(* ===== verification/_CoqProject ===== *)
-Q . S2P
Prelude.v
Catalog.v
OS.v
Fixture.v
Resolver.v
Materializer.v
Applier.v
Plan.v
Coverage.v
Commands.v
Cli.v
ExitStatus.v
Scenario.v
