(* ===== verification/Prelude.v ===== *)
(** * Control metalayer wizard: a verification development

    This library models, in Rocq, the Python program
    [src/.skills/control-metalayer-loop/scripts/control_wizard.py] (the
    "control wizard", a Typer command-line tool), and proves the
    properties that make its materialisation engine correct.

    ** The program and how its parts interact

    The wizard copies "control" files from a template directory installed
    with the skill into a target repository.  Its parts, leaf first:
    - the catalog (lines 28-106): the [Profile] and [Primitive]
      enumerations, the baseline file list, the files of each primitive
      and the primitives of the governed and autonomous profiles;
    - the resolver [_resolve_repo] (lines 109-114): expands [~], makes
      the path absolute and normal, and exits with code 2 unless it is a
      directory;
    - the materialiser [_copy_template] (lines 126-141): copies one
      template to the repository, skipping an existing target unless
      [force], and makes [.sh] files and [.githooks/] files mode 0o755;
    - the applier [_apply_primitives] and [_activate_hooks] (lines
      144-164): copies every file of every primitive in order, and runs
      the repository's [scripts/control/install_hooks.sh] after [hooks];
    - the process bridge [_run] (lines 117-123): runs an external script
      and turns a nonzero exit code into [typer.Exit];
    - the commands [init], [audit], [status], [primitive list] and
      [primitive add] (lines 167-245), which resolve the repository and
      compose the parts above;
    - the command line (lines 18-20 and the parameter declarations of
      the commands): Typer, on Click, turns the argument vector of
      [app()] (line 249) into one command call with converted arguments;
      before it, the import guard of lines 11-16 stops the program with
      an install hint when [typer] is missing.

    ** Files

    - [Prelude] (this file): the state and exception monad [SE] with its
      notation ([x <- m ;; k]) in [wiz_scope], the [for_] loop, the monad
      laws, the predicate [raises_only] on what a computation may raise
      (with the tactic [raises_solve]), the hint databases [wiz],
      [wiz_rw] and [raises], and the shared lemmas on strings, counting ([count_if]), lists and integers.
    - [Catalog], module [Catalog]: the enumerations as inductive types
      with their string values and decidable equality, the file tables,
      [profile_primitives] (the choice of line 185), and the catalog's
      laws.
    - [OS]: the library semantics the code calls.  The machine state is a
      [world]: a file system [fsys] (a [gmap] from paths, lists of
      components, to [File bytes mode] or [Dir]) and the output written so
      far (stdout lines, stderr lines, and one event per child process).
      [Path.exists], [Path.mkdir(parents=True, exist_ok=True)],
      [write_bytes], [read_bytes] and [chmod] are functions on [fsys]
      returning an [errno] on failure ([ENOENT], [EEXIST], [ENOTDIR],
      [EISDIR], [EACCES]); a new file gets mode [0o666 & ~umask].
      [subprocess.run] is [spawn]: execve's checks (missing program,
      directory, no execute bit) and then a child given by the [Process]
      class, which returns an exit code and a new file system.  Python
      exceptions are [exn] ([Exit code] for [typer.Exit], [OSError errno]).
      The computations are [M := SE exn world].
    - [Fixture], module [Fixture]: concrete worlds on which the witnesses
      evaluate the model (an installation under [/opt/skill], an empty
      repository [/home/dev/repo], hook installers exiting 0 or 1).
    - [Resolver], module [Resolver]: [PurePath] parsing, [expanduser],
      the lexical [resolve] (with [..] handled as on a file system without
      symbolic links) and [_resolve_repo].
    - [Materializer], module [Materializer]: [PurePath.suffix], the
      permission rule, [TEMPLATE_DIR] and [_copy_template] (a Section over
      the process environment [E]).
    - [Applier], module [Applier]: [_activate_hooks], the loop body
      [copy_step], [apply_primitive] and [_apply_primitives] (a Section
      over a [Process] instance and [E]).
    - [Plan], module [Plan]: the abstract batch of the specification
      (section 4.4), [plan], which computes the outcome [Written] or
      [Skipped] of every file from the set of catalog paths present
      alone, and the abstraction [present_inv] relating it to the file
      system.
    - [Coverage], module [Coverage]: [status] and the report it prints.
    - [Commands], module [Commands]: [_run], [init], [audit],
      [primitive_list], [primitive_add] and the exit status of a command.
    - [Cli], module [Cli]: the command line.  [scan] is Click's token
      scanner for the option forms the declarations admit, [parse_cli]
      and [parse_primitive] route the two groups, [build_init] and its
      siblings convert and default each declared parameter, and [main]
      is [app()]: parse, then run the command, or print the help and
      stop with status 0, or print the usage error on stderr and raise
      [Exit 2]; the texts Click prints are parameters ([help_text],
      [usage_text]), not their wording.  [script] is the file run as a
      program, the import guard and then [app()].
    - [ExitStatus], module [ExitStatus]: the status of the process.
      [exit_failing] says which exceptions end it with a nonzero status,
      and [raises_only exit_failing] is proved for
      each function of the program, bottom up, to [script].
    - [Scenario], module [Scenario]: sequences of commands: [init]
      followed by [status] on the same path.

    ** What the theorems show

    - Applier: an executable installer that fails only adds a warning;
      a second run without [force] after any completed run
      changes no file and prints only skip lines (idempotence); a run with
      [force] leaves every file of the batch with its template's bytes,
      whatever it held; the installer runs once per occurrence of [hooks];
      a missing template aborts the batch at its primitive, after the
      earlier primitives have been applied.
    - Materializer: every returning run either skips (force off, target
      present, nothing changed) or writes the template's bytes with the
      mode of the permission rule and changes nothing else but new parent
      directories; a missing template is exit 2 with one error line;
      with [force], a target that is a directory or a read-only file
      raises [IsADirectoryError] or [PermissionError] and nothing changes;
      of the catalog's files exactly the five shell scripts and the two
      git hooks are made 0o755, in every repository.
    - Plan: the report a completed batch prints, apart from the hook
      installer's events, is exactly the rendering of the abstract plan
      computed from the paths present before the run (refinement).
    - Coverage: the marker classifies full, partial and missing
      coverage; a primitive a batch applied is [OK ]; deleting one of
      its files makes it [PARTIAL] (or [MISS]).
    - Commands: [init] on every branch (bootstrap failure, [baseline],
      the profile's primitives); a missing bootstrap script is exit 2
      with nothing applied; the files of [baseline] are among those of
      [governed], and those of [governed] among those of [autonomous]
      (profile monotonicity); a [~user] path for an unknown user ends
      every command with [RuntimeError] (status 1); [audit] passes the script's verdict
      through and its exit status is zero exactly when the script
      succeeded; [primitive add] is idempotent as a command; a present
      but non-executable installer aborts a batch with [PermissionError],
      contrary to the promise that hook activation is non-fatal.
    - Resolver and catalog: every repository [_resolve_repo] returns is
      an absolute canonical path, and resolution is the single
      validation point; the profiles are ordered tiers; primitive files
      are disjoint and duplicate-free.
    - Cli: printing any command as an argument vector and parsing it
      gives the command back, and [app()] on that vector runs exactly
      that command (round trip); the declared defaults; an invalid
      primitive name is a usage error with status 2 that changes no
      file and only prints Click's usage text on stderr.
    - ExitStatus: for every argument vector and world, with or without
      [typer] installed, the program ends the process with status 0
      exactly when it returned normally,
      given that a child's return code lies in [-255, 255] (the range
      of [subprocess.run]'s [returncode]).
    - Scenario: after a completed [init], [status] on the same path
      resolves the same repository, changes nothing, prints the report
      of the file system [init] left, and reports every primitive of the
      profile [OK ] (composition).
    Theorems that speak of a second run or of coverage after a run
    assume the hook installer leaves the file system unchanged (the
    [proc_pure] hypothesis): an arbitrary external program could delete
    the files.

    ** Bounds and evaluation

    No definition uses fuel: every loop of the program is over a finite
    list, and the model's loops are structural ([for_], [fold_left],
    [Fixpoint] on strings and lists).  Integers are kept as [Z] where the
    code has them: file modes (tested with [Z.testbit], created with
    [Z.land] and [Z.lnot]) and exit codes (the process status is
    [Z.land code 255]).  The witnesses evaluate the model on [Fixture]
    with [vm_compute], computing only small results (an exit code, a
    lookup, a boolean check of well-formedness) rather than whole worlds.

    ** Not modelled

    The module imports of lines 1-9, which have no behaviour of their
    own; the wording of Typer's help and usage texts (they are
    parameters), the shell-configuration writes of [--install-completion]
    (the completion options are taken as flags, as when [shellingham] is
    installed) and colours; the external scripts themselves (only
    through [Process]); [ENOEXEC] (an executable file the kernel cannot
    run); a [HOME] that is not an absolute path; symbolic links, [//]
    roots, search permission on directories, running as root, and read
    errors of [Path.exists]; a write that fails half
    way (a write is one step, so the spec's temporary-file requirement is
    recorded as a finding, not proved); concurrent invocations, which the
    program does not guard against. *)

From stdpp Require Export base list gmap strings pretty.
From Stdlib Require Export ZArith Ascii.

(** ** Notation scope of the development *)

Declare Scope wiz_scope.
Delimit Scope wiz_scope with wiz.

(** ** A state and exception monad

    Python code threads the state of the machine (here: the file system and
    the output written so far) through every call and leaves a function
    early by raising an exception.  [SE E S A] is a computation over state
    [S] that either returns an [A] or raises an [E]; the state reached at
    the raise is kept, because Python does not roll back the effects done
    before an exception. *)

Definition SE (E S A : Type) : Type := S -> (E + A) * S.

Section monad.
Context {E S : Type}.

Definition ret {A} (a : A) : SE E S A := fun s => (inr a, s).

Definition raise {A} (e : E) : SE E S A := fun s => (inl e, s).

Definition se_bind {A B} (m : SE E S A) (k : A -> SE E S B) : SE E S B :=
  fun s => match m s with
           | (inl e, s') => (inl e, s')
           | (inr a, s') => k a s'
           end.

Definition get_state : SE E S S := fun s => (inr s, s).

Definition modify (f : S -> S) : SE E S unit := fun s => (inr tt, f s).

(** [for x in l: body(x)] *)
Fixpoint for_ {A} (l : list A) (body : A -> SE E S unit) : SE E S unit :=
  match l with
  | [] => ret tt
  | x :: l' => se_bind (body x) (fun _ => for_ l' body)
  end.
End monad.

Notation "x <- m ;; k" := (se_bind m (fun x => k))
  (at level 100, m at next level, right associativity) : wiz_scope.
Notation "m ;; k" := (se_bind m (fun _ => k))
  (at level 100, right associativity) : wiz_scope.

Open Scope wiz_scope.

(** ** Monad laws, pointwise (no functional extensionality is needed) *)

Section monad_laws.
Context {E S : Type}.

Lemma bind_ret_l {A B} (a : A) (k : A -> SE E S B) s :
  se_bind (ret a) k s = k a s.
Proof. reflexivity. Qed.

Lemma bind_ret_r {A} (m : SE E S A) s : se_bind m ret s = m s.
Proof. unfold se_bind. by destruct (m s) as [[] ?]. Qed.

Lemma bind_assoc {A B C} (m : SE E S A) (k : A -> SE E S B)
      (h : B -> SE E S C) s :
  se_bind (se_bind m k) h s = se_bind m (fun a => se_bind (k a) h) s.
Proof. unfold se_bind. by destruct (m s) as [[] ?]. Qed.

Lemma bind_raise {A B} (e : E) (k : A -> SE E S B) s :
  se_bind (raise e) k s = (inl e, s).
Proof. reflexivity. Qed.

(** Running [m] and then [k] when [m] is known to return. *)
Lemma bind_inr {A B} (m : SE E S A) (k : A -> SE E S B) s a s' :
  m s = (inr a, s') -> se_bind m k s = k a s'.
Proof. unfold se_bind. by intros ->. Qed.

Lemma bind_inl {A B} (m : SE E S A) (k : A -> SE E S B) s e s' :
  m s = (inl e, s') -> se_bind m k s = (inl e, s').
Proof. unfold se_bind. by intros ->. Qed.

(** Binds are extensional in their continuation. *)
Lemma bind_ext {A B} (m : SE E S A) (k1 k2 : A -> SE E S B) s :
  (forall a s', k1 a s' = k2 a s') -> se_bind m k1 s = se_bind m k2 s.
Proof. intros H. unfold se_bind. destruct (m s) as [[] ?]; auto. Qed.

(** A loop over [l1 ++ l2] is the loop over [l1] followed by the loop
    over [l2]: this is how a batch splits into a prefix and a rest. *)
Lemma for_app {A} (l1 l2 : list A) (body : A -> SE E S unit) s :
  for_ (l1 ++ l2) body s = se_bind (for_ l1 body) (fun _ => for_ l2 body) s.
Proof.
  revert s. induction l1 as [|x l1 IH]; intros s; simpl.
  - reflexivity.
  - rewrite bind_assoc. apply bind_ext. intros _ s'. apply IH.
Qed.

(** A raise inside the loop body ends the loop: the rest is not run. *)
Lemma bind_ext_l {A B} (m1 m2 : SE E S A) (k : A -> SE E S B) s :
  (forall s', m1 s' = m2 s') -> se_bind m1 k s = se_bind m2 k s.
Proof. intros H. unfold se_bind. by rewrite H. Qed.

Lemma for_ext {A} (l : list A) (b1 b2 : A -> SE E S unit) s :
  (forall x s', b1 x s' = b2 x s') -> for_ l b1 s = for_ l b2 s.
Proof.
  intros Hb. revert s. induction l as [|x l IH]; intros s; [done|]. simpl.
  rewrite (bind_ext _ _ (fun _ => for_ l b2)) by (intros; apply IH). unfold se_bind. by rewrite Hb.
Qed.

Lemma for_map {A B} (f : A -> B) (l : list A) (body : B -> SE E S unit) s :
  for_ (map f l) body s = for_ l (fun x => body (f x)) s.
Proof.
  revert s. induction l as [|x l IH]; intros s; [done|]. simpl. by apply bind_ext.
Qed.

(** A loop over a concatenation of blocks is a loop of loops. *)
Lemma for_flat_map {A B} (g : A -> list B) (l : list A) (body : B -> SE E S unit) s :
  for_ (flat_map g l) body s = for_ l (fun x => for_ (g x) body) s.
Proof.
  revert s. induction l as [|x l IH]; intros s; [done|]. simpl.
  rewrite for_app. by apply bind_ext.
Qed.

Lemma for_app_abort {A} (l1 l2 : list A) (body : A -> SE E S unit) s e s' :
  for_ l1 body s = (inl e, s') -> for_ (l1 ++ l2) body s = (inl e, s').
Proof. intros H. rewrite for_app. by apply bind_inl. Qed.

(** A loop that returns ran every iteration to completion: the loop is
    the fold of the bodies' state transformers. *)
Lemma for_cons_inr {A} x (l : list A) (body : A -> SE E S unit) s s' :
  for_ (x :: l) body s = (inr tt, s') ->
  exists s1, body x s = (inr tt, s1) /\ for_ l body s1 = (inr tt, s').
Proof.
  simpl. unfold se_bind. destruct (body x s) as [[e|[]] s1]; [done|].
  intros H. by exists s1.
Qed.
End monad_laws.

(** ** What a computation may raise

    [raises_only P m]: whatever the state it starts from, every
    exception [m] raises satisfies [P].  The property is closed under the
    operations of the monad, so that for a whole command it is proved by
    a walk over the code ([raises_solve]), given the facts about the
    primitive calls. *)

Section raises.
Context {E S : Type} (P : E -> Prop).

Definition raises_only {A} (m : SE E S A) : Prop :=
  forall s e s', m s = (inl e, s') -> P e.

Lemma raises_ret {A} (a : A) : raises_only (ret a).
Proof. by intros s e s' [=]. Qed.

Lemma raises_raise {A} (e : E) : P e -> raises_only (@raise E S A e).
Proof. by intros He s e' s' [= <- _]. Qed.

Lemma raises_modify (f : S -> S) : raises_only (modify f).
Proof. by intros s e s' [=]. Qed.

Lemma raises_get : raises_only get_state.
Proof. by intros s e s' [=]. Qed.

Lemma raises_bind {A B} (m : SE E S A) (k : A -> SE E S B) :
  raises_only m -> (forall a, raises_only (k a)) -> raises_only (se_bind m k).
Proof.
  intros Hm Hk s e s'. unfold se_bind.
  destruct (m s) as [[e0|a] s0] eqn:Hs; [intros [= <- _]; by eapply Hm | apply Hk].
Qed.

(** A bind whose continuation is safe only for the values [m] can
    return: [Q] is a postcondition of [m]. *)
Lemma raises_bind_post {A B} (Q : A -> Prop) (m : SE E S A) (k : A -> SE E S B) :
  raises_only m -> (forall s a s', m s = (inr a, s') -> Q a) ->
  (forall a, Q a -> raises_only (k a)) -> raises_only (se_bind m k).
Proof.
  intros Hm HQ Hk s e s'. unfold se_bind.
  destruct (m s) as [[e0|a] s0] eqn:Hs; [intros [= <- _]; by eapply Hm | by eapply Hk, HQ].
Qed.

Lemma raises_for {A} (l : list A) (body : A -> SE E S unit) :
  (forall x, raises_only (body x)) -> raises_only (for_ l body).
Proof. intros Hb. induction l; simpl; auto using raises_ret, raises_bind. Qed.
End raises.

Create HintDb raises discriminated.
#[export] Hint Resolve raises_ret raises_modify raises_get : raises.

(** One step of the walk: split a bind or a loop, take both branches of
    a test, or close a leaf with the hints of [raises]. *)
Ltac raises_step :=
  match goal with
  | |- forall _, _ => intros
  | |- raises_only _ (se_bind _ _) => apply raises_bind
  | |- raises_only _ (for_ _ _) => apply raises_for
  | |- raises_only _ (raise _) => apply raises_raise
  | |- raises_only _ (match _ with _ => _ end) => case_match
  | |- raises_only _ (let _ := _ in _) => cbv zeta
  | |- raises_only _ ((fun _ => _) _) => cbv beta
  | |- _ => solve [eauto with raises]
  end.

Ltac raises_solve := repeat raises_step.

(** ** Automation *)

Create HintDb wiz discriminated.
Create Rewrite HintDb wiz_rw.
#[export] Hint Rewrite @bind_ret_l @bind_raise @bind_assoc : wiz_rw.
#[export] Hint Resolve bind_inr bind_inl : wiz.

(** [run_bind H] rewrites with the result equation [H] of the first
    computation of a bind in the goal. *)
Ltac run_bind H :=
  first [ rewrite (bind_inr _ _ _ _ _ H) | rewrite (bind_inl _ _ _ _ _ H) ].

(** Split a hypothesis [se_bind m k s = r] on the result of [m]. *)
Ltac split_bind H :=
  let r := fresh "r" in let s' := fresh "s" in let Hm := fresh "Hm" in
  unfold se_bind at 1 in H;
  lazymatch type of H with
  | context [ match ?m ?s with _ => _ end ] =>
      destruct (m s) as [r s'] eqn:Hm; destruct r
  end.

(** ** Generic lemmas on lists and strings *)

(** stdpp marks [String.append] [simpl never]; this is its step. *)
Lemma string_app_cons (c : Ascii.ascii) (s t : string) :
  String c s +:+ t = String c (s +:+ t).
Proof. reflexivity. Qed.

Lemma string_app_assoc (s1 s2 s3 : string) :
  (s1 +:+ s2) +:+ s3 = s1 +:+ (s2 +:+ s3).
Proof. induction s1 as [|c s1 IH]; [done | exact (f_equal (String c) IH)]. Qed.

Lemma string_app_nil_r (s : string) : s +:+ "" = s.
Proof. induction s as [|c s IH]; [done | exact (f_equal (String c) IH)]. Qed.

Lemma string_length_app (s1 s2 : string) :
  String.length (s1 +:+ s2) = String.length s1 + String.length s2.
Proof. induction s1 as [|c s1 IH]; [done | exact (f_equal S IH)]. Qed.

#[export] Hint Rewrite string_app_cons string_app_assoc string_app_nil_r : wiz_rw.

(** Counting the elements of a list that satisfy a boolean test. *)
Definition count_if {A} (f : A -> bool) (l : list A) : nat :=
  length (filter (fun x => f x = true) l).

Lemma count_if_le {A} (f : A -> bool) (l : list A) : count_if f l <= length l.
Proof. unfold count_if. apply length_filter. Qed.

Lemma count_if_all {A} (f : A -> bool) (l : list A) :
  (forall x, x ∈ l -> f x = true) -> count_if f l = length l.
Proof.
  unfold count_if. induction l as [|x l IH]; intros H; simpl; [done|].
  rewrite filter_cons. rewrite decide_True by (apply H; set_solver).
  simpl. f_equal. apply IH. set_solver.
Qed.

Lemma count_if_ext {A} (f g : A -> bool) (l : list A) :
  (forall x, x ∈ l -> f x = g x) -> count_if f l = count_if g l.
Proof.
  unfold count_if. induction l as [|x l IH]; intros H; simpl; [done|].
  rewrite !filter_cons. rewrite (H x) by set_solver.
  case_decide; simpl; rewrite IH; auto; set_solver.
Qed.

(** Two different members of a duplicate-free list contribute disjoint
    pieces to a duplicate-free [flat_map]. *)
Lemma NoDup_flat_map_disjoint {A B} (f : A -> list B) (l : list A) x y b :
  NoDup (flat_map f l) -> In x l -> In y l -> x <> y ->
  In b (f x) -> ~ In b (f y).
Proof.
  induction l as [|a l IH]; simpl; [done|].
  rewrite NoDup_app. intros (_ & Hdis & Hnd) Hx Hy Hxy Hbx Hby.
  assert (Hin : forall z, In z l -> In b (f z) -> In b (flat_map f l)).
  { intros z Hz Hbz. apply in_flat_map. eauto. }
  destruct Hx as [<-|Hx], Hy as [<-|Hy]; [done| | |by eapply IH].
  - apply (Hdis b); apply list_elem_of_In; eauto.
  - apply (Hdis b); apply list_elem_of_In; eauto.
Qed.

Lemma NoDup_flat_map_one {A B} (f : A -> list B) (l : list A) x :
  NoDup (flat_map f l) -> In x l -> NoDup (f x).
Proof.
  induction l as [|a l IH]; simpl; [done|].
  rewrite NoDup_app. intros (Ha & _ & Hl) [<-|Hx]; auto.
Qed.

(** ** Integers as bit vectors *)

(** [a & b <= a] for a non-negative [a], whatever the sign of [b]. *)
Lemma Z_land_le_l (a b : Z) : (0 <= a)%Z -> (Z.land a b <= a)%Z.
Proof.
  intros Ha.
  assert (Hdisj : Z.land (Z.ldiff a b) (Z.land a b) = 0%Z).
  { apply Z.bits_inj'. intros n _. rewrite Z.bits_0, !Z.land_spec, Z.ldiff_spec.
    by destruct (Z.testbit a n), (Z.testbit b n). }
  pose proof (Z.add_lor_land (Z.ldiff a b) (Z.land a b)) as Hadd.
  rewrite Z.lor_ldiff_and, Hdisj in Hadd.
  pose proof (proj2 (Z.ldiff_nonneg a b) (or_introl Ha)). lia.
Qed.

Lemma count_if_app {A} (f : A -> bool) (l1 l2 : list A) :
  count_if f (l1 ++ l2) = count_if f l1 + count_if f l2.
Proof. unfold count_if. by rewrite filter_app, length_app. Qed.

#[export] Hint Rewrite @count_if_app : wiz_rw.

Lemma count_if_cons {A} (f : A -> bool) (x : A) (l : list A) :
  count_if f (x :: l) = (if f x then 1 else 0) + count_if f l.
Proof. unfold count_if. rewrite filter_cons. by destruct (f x). Qed.

Lemma count_if_nil {A} (f : A -> bool) : count_if f [] = 0.
Proof. reflexivity. Qed.

#[export] Hint Rewrite @count_if_cons @count_if_nil : wiz_rw.

(** A run whose result is known, with its final state left unevaluated
    (the witnesses compute the result, never the whole final state). *)
Lemma run_result {A B} (r : A * B) (a : A) : r.1 = a -> r = (a, r.2).
Proof. destruct r. simpl. by intros ->. Qed.

Lemma map_flat_map {A B C} (f : B -> C) (g : A -> list B) (l : list A) :
  map f (flat_map g l) = flat_map (fun x => map f (g x)) l.
Proof. induction l as [|x l IH]; [done|]. simpl. by rewrite map_app, IH. Qed.

(** The low byte of an integer in [-255, 255] is zero only for zero. *)
Lemma land_255_zero (c : Z) : (-255 <= c <= 255)%Z -> Z.land c 255 = 0%Z <-> c = 0%Z.
Proof.
  intros Hc. change 255%Z with (Z.ones 8). rewrite Z.land_ones by lia.
  split; [|intros ->; done]. intros Hm.
  pose proof (Z.div_mod c (2 ^ 8) ltac:(done)) as Hd. rewrite Hm in Hd. simpl in Hd. lia.
Qed.

(** Filtering with a test every element passes changes nothing. *)
Lemma filter_all {A} (P : A -> Prop) `{forall x, Decision (P x)} (l : list A) :
  Forall P l -> filter P l = l.
Proof.
  induction l as [|x l IH]; intros Hall; [done|]. apply Forall_cons in Hall as [Hx Hl].
  rewrite filter_cons_True by done. by rewrite IH.
Qed.

(** Counting over a duplicate-free list where the test fails at exactly
    one element. *)
Lemma count_if_all_but {A} `{EqDecision A} (f : A -> bool) (l : list A) (x : A) :
  NoDup l -> x ∈ l -> f x = false -> (forall y, y ∈ l -> y <> x -> f y = true) ->
  count_if f l = length l - 1.
Proof.
  induction l as [|a l IH]; intros Hnd Hx Hfx Hall; [by apply not_elem_of_nil in Hx|].
  apply NoDup_cons in Hnd as [Ha Hnd]. rewrite count_if_cons. simpl.
  destruct (decide (a = x)) as [->|Hne].
  - rewrite Hfx, count_if_all; [lia|]. intros y Hy. apply Hall; [set_solver|]. intros ->. done.
  - rewrite Hall by set_solver. apply elem_of_cons in Hx as [->|Hx]; [done|].
    rewrite IH; [|done|done|done|intros y Hy; apply Hall; set_solver].
    destruct l; [by apply not_elem_of_nil in Hx|]. simpl. lia.
Qed.
