(* ===== verification/Catalog.v ===== *)
(** * Catalog: primitives, profiles and their file tables

    Models lines 28-106 of [control_wizard.py]: the enumerations [Profile]
    and [Primitive] (Python [str] enums, kept with their string values),
    the tuple [BASELINE_FILES], the dictionary [PRIMITIVE_FILES], and the
    tuples [GOVERNED_PRIMITIVES] and [AUTONOMOUS_PRIMITIVES].  The catalog
    is process-wide read-only data; the theorems here are the facts about
    it that the other components rely on (no primitive is empty, no path
    is declared twice, [governed] is a prefix of [autonomous]) and the
    round trip between an enumeration member and its string value, which
    is how the command line names them. *)

From S2P Require Import Prelude.

Module Catalog.

(** ** Enumerations *)

(** [class Profile(str, Enum)] *)
Inductive Profile := baseline | governed | autonomous.

(** [class Primitive(str, Enum)], members in declaration order. *)
Inductive Primitive :=
  | policy | commands | topology | loop | metrics | hooks
  | recovery | state | nightly | web | cli.

#[export] Instance Profile_eq_dec : EqDecision Profile.
Proof. solve_decision. Defined.

#[export] Instance Primitive_eq_dec : EqDecision Primitive.
Proof. solve_decision. Defined.

(** The [.value] of each member. *)
Definition profile_value (p : Profile) : string :=
  match p with
  | baseline => "baseline" | governed => "governed" | autonomous => "autonomous"
  end.

Definition primitive_value (p : Primitive) : string :=
  match p with
  | policy => "policy" | commands => "commands" | topology => "topology"
  | loop => "loop" | metrics => "metrics" | hooks => "hooks"
  | recovery => "recovery" | state => "state" | nightly => "nightly"
  | web => "web" | cli => "cli"
  end.

(** Iteration over an enum class ([for primitive in Primitive]) visits the
    members in declaration order. *)
Definition all_profiles : list Profile := [baseline; governed; autonomous].

Definition all_primitives : list Primitive :=
  [policy; commands; topology; loop; metrics; hooks;
   recovery; state; nightly; web; cli].

(** [Primitive(value)]: lookup of a member by its value, as the command
    line does when it converts an argument to the enum; [None] is the
    usage error for an invalid choice. *)
Definition primitive_of_value (s : string) : option Primitive :=
  List.find (fun p => bool_decide (primitive_value p = s)) all_primitives.

Definition profile_of_value (s : string) : option Profile :=
  List.find (fun p => bool_decide (profile_value p = s)) all_profiles.

(** ** Tables *)

Definition BASELINE_FILES : list string :=
  [ "AGENTS.md"; "PLANS.md"; "METALAYER.md"; "Makefile.control";
    "scripts/audit_control.sh"; "scripts/control/smoke.sh";
    "scripts/control/check.sh"; "scripts/control/test.sh";
    "docs/control/ARCHITECTURE.md"; "docs/control/OBSERVABILITY.md";
    ".github/workflows/control-harness.yml" ].

(** [PRIMITIVE_FILES[primitive]]: the dictionary has a key for every
    member, so the lookup is total. *)
Definition PRIMITIVE_FILES (p : Primitive) : list string :=
  match p with
  | policy => [".control/policy.yaml"]
  | commands => [".control/commands.yaml"]
  | topology => [".control/topology.yaml"]
  | loop => ["docs/control/CONTROL_LOOP.md"]
  | metrics => ["evals/control-metrics.yaml"]
  | hooks => [ "scripts/control/install_hooks.sh"; ".githooks/pre-commit";
               ".githooks/pre-push" ]
  | recovery => ["scripts/control/recover.sh"]
  | state => [".control/state.json"]
  | nightly => [".github/workflows/control-nightly.yml"]
  | web => [ "scripts/control/web_e2e.sh"; ".github/workflows/web-e2e.yml";
             "tests/e2e/web/smoke.spec.ts"; "playwright.config.ts" ]
  | cli => [ "scripts/control/cli_e2e.sh"; ".github/workflows/cli-e2e.yml";
             "tests/e2e/cli/smoke.sh" ]
  end.

Definition GOVERNED_PRIMITIVES : list Primitive :=
  [policy; commands; topology; loop; metrics; hooks].

(** The governed tuple unpacked, then the five autonomous primitives. *)
Definition AUTONOMOUS_PRIMITIVES : list Primitive :=
  GOVERNED_PRIMITIVES ++ [recovery; state; nightly; web; cli].

(** The primitives [init] applies for a profile (lines 182-185):
    none for [baseline], the governed tuple for [governed], the autonomous
    tuple otherwise. *)
Definition profile_primitives (profile : Profile) : list Primitive :=
  if decide (profile = baseline) then []
  else if decide (profile = governed) then GOVERNED_PRIMITIVES
  else AUTONOMOUS_PRIMITIVES.

(** Every path the catalog declares for the primitives of a list. *)
Definition primitives_files (ps : list Primitive) : list string :=
  flat_map PRIMITIVE_FILES ps.

(** ** Laws of a catalog

    What the materialisation engine needs of a file table: every primitive
    has at least one file and no file twice; two different primitives
    declare disjoint files; no primitive file is a baseline file. *)
Record catalog_laws (files : Primitive -> list string) (baseline_files : list string)
  : Prop := {
  laws_nonempty : forall p, files p <> [];
  laws_nodup : forall p, NoDup (files p);
  laws_disjoint : forall p q rel, p <> q -> rel ∈ files p -> rel ∉ files q;
  laws_not_baseline : forall p rel, rel ∈ files p -> rel ∉ baseline_files
}.

(** Iterating over the enum visits every member exactly once. *)
Lemma all_primitives_complete (p : Primitive) : In p all_primitives.
Proof. destruct p; simpl; tauto. Qed.

Lemma all_primitives_NoDup : NoDup all_primitives.
Proof. apply (bool_decide_unpack _). by vm_compute. Qed.

(** No path is declared twice in the whole catalog, baseline included. *)
Lemma catalog_NoDup :
  NoDup (primitives_files all_primitives ++ BASELINE_FILES).
Proof. apply (bool_decide_unpack _). by vm_compute. Qed.

Lemma PRIMITIVE_FILES_NoDup (p : Primitive) : NoDup (PRIMITIVE_FILES p).
Proof. destruct p; apply (bool_decide_unpack _); by vm_compute. Qed.

(** C29: the concrete catalog satisfies the laws the engine relies on:
    no primitive is empty or lists a file twice, two primitives never share
    a file, and no primitive file is a baseline file. *)
Theorem PRIMITIVE_FILES_laws : catalog_laws PRIMITIVE_FILES BASELINE_FILES.
Proof.
  pose proof catalog_NoDup as Hnd. apply NoDup_app in Hnd as (Hp & Hb & _).
  split.
  - by intros [].
  - intros p. eapply NoDup_flat_map_one; [exact Hp | apply all_primitives_complete].
  - intros p q rel Hpq Hin Hin'. rewrite list_elem_of_In in Hin, Hin'.
    eapply (NoDup_flat_map_disjoint PRIMITIVE_FILES all_primitives p q);
      eauto using all_primitives_complete.
  - intros p rel Hin. apply Hb. apply list_elem_of_In, in_flat_map.
    exists p. split; [apply all_primitives_complete | by apply list_elem_of_In].
Qed.

(** C22: the profiles are ordered tiers: [baseline] applies no primitive,
    [governed] is a prefix of [autonomous] (same primitives, same order),
    and the primitives [autonomous] adds are not governed ones. *)
Theorem profile_tiers :
  profile_primitives baseline = [] /\
  profile_primitives governed `prefix_of` profile_primitives autonomous /\
  (exists extra, profile_primitives autonomous = profile_primitives governed ++ extra /\
     forall p, p ∈ extra -> p ∉ profile_primitives governed) /\
  NoDup (profile_primitives autonomous).
Proof.
  split; [done|]. split; [by apply prefix_app_r|].
  split; [|apply (bool_decide_unpack _); by vm_compute].
  eexists. split; [reflexivity|]. intros p Hp Hg. simpl in *.
  repeat (apply elem_of_cons in Hp as [->|Hp]); [..|by apply not_elem_of_nil in Hp];
  vm_compute in Hg; repeat (apply elem_of_cons in Hg as [Hg|Hg]; [discriminate|]);
  by apply not_elem_of_nil in Hg.
Qed.

End Catalog.
