(* ===== verification/OS.v ===== *)
(** * OS: the file system, paths and processes the wizard runs against

    The wizard calls [pathlib] and [subprocess]; this file gives those
    library calls the POSIX meaning the program relies on, so that the
    wizard's own functions can be translated line by line on top of them.
    - paths: a [Path] is an absolute list of components; [path_parts] is
      [PurePosixPath]'s parsing of a string ("" and "." components dropped,
      ".." kept), [path_str] is [str(path)];
    - the file system: a finite map (stdpp [gmap]) from absolute paths to
      nodes, a regular file (bytes and permission bits, as a [Z]) or a
      directory; the root always exists;
    - [Path.mkdir(parents=True, exist_ok=True)], [Path.write_bytes],
      [Path.read_bytes], [Path.chmod], [Path.exists], [Path.is_dir], with
      their [OSError]s (errno values);
    - [subprocess.run]: an external program is a [Process] (a type class:
      its exit code and its effect on the file system are not known to the
      wizard); spawning checks what [execve] checks.
    - [typer.echo] / [typer.secho]: one output event per call.
    The program's state is a [world] (file system and output so far) and
    its functions run in the state and exception monad of the prelude. *)

From S2P Require Import Prelude.

(** ** Errors *)

Inductive errno := ENOENT | EEXIST | ENOTDIR | EISDIR | EACCES.

#[export] Instance errno_eq_dec : EqDecision errno.
Proof. solve_decision. Defined.

(** Exceptions that leave a function: [typer.Exit(code)], an [OSError]
    from the file system or from spawning, and the [RuntimeError] of
    [expanduser] for an unknown user. *)
Inductive exn := Exit (code : Z) | OSError (e : errno) | RuntimeError.

#[export] Instance exn_eq_dec : EqDecision exn.
Proof. solve_decision. Defined.

(** ** Paths *)

Abbreviation path := (list string).

Definition slash : Ascii.ascii := "/"%char.

(** [s.split("/")]: one piece per separator, plus one. *)
Fixpoint split_slash (s : string) : list string :=
  match s with
  | EmptyString => [""]
  | String c rest =>
      let parts := split_slash rest in
      if decide (c = slash) then "" :: parts
      else match parts with
           | p :: ps => String c p :: ps
           | [] => [String c EmptyString]
           end
  end.

(** ["/".join(parts)] *)
Fixpoint join_slash (l : list string) : string :=
  match l with
  | [] => ""
  | [x] => x
  | x :: l' => x +:+ String slash (join_slash l')
  end.

(** [PurePosixPath(s).parts] without the root: empty and "." components
    are dropped, ".." is kept. *)
Definition path_parts (s : string) : list string :=
  filter (fun x => x <> "" /\ x <> ".") (split_slash s).

Definition is_absolute (s : string) : bool := String.prefix "/" s.

(** [base / rel] *)
Definition join_path (base : path) (rel : string) : path := base ++ path_parts rel.

(** [str(p)] *)
Definition path_str (p : path) : string := String slash (join_slash p).

(** [p.parent] (the root is its own parent) and [p.name]. *)
Definition parent (p : path) : path := removelast p.
Definition path_name (p : path) : string := default "" (last p).

(** ** The file system *)

Inductive node :=
  | File (data : list Byte.byte) (mode : Z)
  | Dir.

#[export] Instance byte_eq_dec : EqDecision Byte.byte := Byte.byte_eq_dec.

#[export] Instance node_eq_dec : EqDecision node.
Proof. solve_decision. Defined.

Abbreviation fsys := (gmap path node).

Definition lookup_node (fs : fsys) (p : path) : option node :=
  match p with [] => Some Dir | _ => fs !! p end.

(** [p.exists()] and [p.is_dir()] *)
Definition path_exists (fs : fsys) (p : path) : bool :=
  match lookup_node fs p with Some _ => true | None => false end.

Definition path_is_dir (fs : fsys) (p : path) : bool :=
  match lookup_node fs p with Some Dir => true | _ => false end.

(** Permission bits: owner read is bit 8 (0o400), owner write bit 7
    (0o200), owner execute bit 6 (0o100).  The wizard runs as the owner of
    the files it touches. *)
Definition can_read (mode : Z) : bool := Z.testbit mode 8.
Definition can_write (mode : Z) : bool := Z.testbit mode 7.
Definition can_exec (mode : Z) : bool := Z.testbit mode 6.

(** [Path.mkdir(parents=True, exist_ok=True)]: the components are created
    from the top; an existing directory is accepted, an existing file is
    [FileExistsError] when it is the directory asked for and
    [NotADirectoryError] when it is an ancestor. *)
Fixpoint mkdirs_from (fs : fsys) (base : path) (rest : list string)
  : errno + fsys :=
  match rest with
  | [] => inr fs
  | c :: rest' =>
      let q := base ++ [c] in
      match lookup_node fs q with
      | Some Dir => mkdirs_from fs q rest'
      | Some (File _ _) => inl (if rest' is [] then EEXIST else ENOTDIR)
      | None => mkdirs_from (<[q := Dir]> fs) q rest'
      end
  end.

Definition mkdir_parents (fs : fsys) (p : path) : errno + fsys :=
  mkdirs_from fs [] p.

(** A new file is created with mode [0o666 & ~umask]. *)
Definition creation_mode (umask : Z) : Z := Z.land 438 (Z.lnot umask).

(** [Path.write_bytes(data)]: [open(p, "wb")] truncates an existing file
    (keeping its mode) or creates a new one in an existing directory. *)
Definition write_bytes (umask : Z) (fs : fsys) (p : path) (data : list Byte.byte)
  : errno + fsys :=
  match p with
  | [] => inl EISDIR
  | _ =>
      match lookup_node fs (parent p) with
      | Some Dir =>
          match fs !! p with
          | Some Dir => inl EISDIR
          | Some (File _ m) =>
              if can_write m then inr (<[p := File data m]> fs) else inl EACCES
          | None => inr (<[p := File data (creation_mode umask)]> fs)
          end
      | Some (File _ _) => inl ENOTDIR
      | None => inl ENOENT
      end
  end.

(** [Path.read_bytes()] *)
Definition read_bytes (fs : fsys) (p : path) : errno + list Byte.byte :=
  match lookup_node fs p with
  | Some (File d m) => if can_read m then inr d else inl EACCES
  | Some Dir => inl EISDIR
  | None => inl ENOENT
  end.

(** [Path.chmod(mode)]; directory modes are not tracked. *)
Definition chmod (fs : fsys) (p : path) (mode : Z) : errno + fsys :=
  match lookup_node fs p with
  | Some (File d _) => inr (<[p := File d mode]> fs)
  | Some Dir => inr fs
  | None => inl ENOENT
  end.

(** The structural invariant of a file system: the root is not an entry,
    and the parent of every entry is a directory. *)
Definition fs_wf (fs : fsys) : Prop :=
  fs !! [] = None /\
  forall p x n, fs !! (p ++ [x]) = Some n -> lookup_node fs p = Some Dir.

(** ** Output and the world *)

Inductive event :=
  | EvOut (line : string)                    (** [typer.echo] / [secho] *)
  | EvErr (line : string)                    (** [secho(s, err=True)] *)
  | EvProc (argv : list string) (cwd : path) (code : Z).  (** a child ran *)

#[export] Instance event_eq_dec : EqDecision event.
Proof. solve_decision. Defined.

Record world := mkWorld { w_fs : fsys; w_out : list event }.

Abbreviation M := (SE exn world).

(** The configuration the process starts with: working directory, home
    directories for [expanduser], the directory of the script
    ([Path(__file__).resolve().parent]) and the umask. *)
Record env := mkEnv {
  env_cwd : path;
  env_home : path;
  env_user_home : string -> option path;
  env_script_dir : path;
  env_umask : Z
}.

(** ** External programs

    [subprocess.run] of a program the wizard does not control: what it
    does is a parameter, with the one law that it leaves a well-formed
    file system (it runs against the same POSIX file system). *)
Class Process := {
  proc_run : list string -> path -> fsys -> Z * fsys;
  proc_run_wf : forall argv cwd fs, fs_wf fs -> fs_wf (proc_run argv cwd fs).2
}.

(** ** The library calls as operations of the monad *)

Definition add_event (ev : event) (w : world) : world :=
  mkWorld (w_fs w) (w_out w ++ [ev]).

(** A line break, as in ["\n[policy]"]. *)
Definition nl : string := String "010"%char EmptyString.

Definition add_events (evs : list event) (w : world) : world :=
  mkWorld (w_fs w) (w_out w ++ evs).

(** [typer.echo(s)] / [typer.secho(s, fg=...)]: colours are not modelled. *)
Definition echo (s : string) : M unit := modify (add_event (EvOut s)).

(** [typer.secho(s, err=True)] *)
Definition echo_err (s : string) : M unit := modify (add_event (EvErr s)).

Definition exists_at (p : path) : M bool :=
  fun w => (inr (path_exists (w_fs w) p), w).

Definition is_dir_at (p : path) : M bool :=
  fun w => (inr (path_is_dir (w_fs w) p), w).

(** A file-system call: its [OSError] propagates as an exception. *)
Definition fs_call (r : fsys -> errno + fsys) : M unit :=
  fun w => match r (w_fs w) with
           | inl e => (inl (OSError e), w)
           | inr fs' => (inr tt, mkWorld fs' (w_out w))
           end.

Definition read_at (p : path) : M (list Byte.byte) :=
  fun w => match read_bytes (w_fs w) p with
           | inl e => (inl (OSError e), w)
           | inr d => (inr d, w)
           end.

(** [subprocess.run([str(prog), *args], cwd=cwd, check=False).returncode]:
    [execve] fails with [ENOENT] on a missing program and [EACCES] on a
    directory or a file without the execute bit; otherwise the child runs
    to completion and its exit code is returned. *)
Definition spawn `{Process} (prog : path) (args : list string) (cwd : path) : M Z :=
  fun w =>
    match lookup_node (w_fs w) prog with
    | Some (File _ m) =>
        if can_exec m then
          let argv := path_str prog :: args in
          let r := proc_run argv cwd (w_fs w) in
          (inr r.1, mkWorld r.2 (w_out w ++ [EvProc argv cwd r.1]))
        else (inl (OSError EACCES), w)
    | Some Dir => (inl (OSError EACCES), w)
    | None => (inl (OSError ENOENT), w)
    end.

(** ** Lemmas on lookups *)

Lemma lookup_node_cons (fs : fsys) x p : lookup_node fs (x :: p) = fs !! (x :: p).
Proof. reflexivity. Qed.

Lemma lookup_node_nonempty (fs : fsys) p : p <> [] -> lookup_node fs p = fs !! p.
Proof. by destruct p. Qed.

Lemma lookup_node_snoc (fs : fsys) p x : lookup_node fs (p ++ [x]) = fs !! (p ++ [x]).
Proof. by destruct p. Qed.

Lemma lookup_node_insert_eq (fs : fsys) q n :
  q <> [] -> lookup_node (<[q := n]> fs) q = Some n.
Proof. destruct q; [done|]. intros _. apply lookup_insert_eq. Qed.

Lemma lookup_node_insert_ne (fs : fsys) p q n :
  p <> q -> lookup_node (<[q := n]> fs) p = lookup_node fs p.
Proof. destruct p; [done|]. intros Hne. simpl. by rewrite lookup_insert_ne. Qed.

Lemma parent_snoc (p : path) x : parent (p ++ [x]) = p.
Proof. apply removelast_last. Qed.

Lemma snoc_neq_self (p : path) x : p ++ [x] <> p.
Proof. intros H. apply (f_equal length) in H. rewrite length_app in H. simpl in H. lia. Qed.

Lemma snoc_not_nil (p : path) x : p ++ [x] <> [].
Proof. by destruct p. Qed.

#[export] Hint Resolve snoc_neq_self snoc_not_nil : wiz.
#[export] Hint Rewrite lookup_node_snoc parent_snoc : wiz_rw.

(** Every non-root path is its parent extended by its name. *)
Lemma path_snoc_cases (p : path) : p = [] \/ exists q x, p = q ++ [x].
Proof.
  destruct p as [|y p] using rev_ind; [by left|]. right. eauto.
Qed.

(** ** The invariant: insertion, and what it says about ancestors *)

(** Inserting an entry under an existing directory keeps the file system
    well formed, unless it turns a directory (which may have entries)
    into a file. *)
Lemma fs_wf_insert (fs : fsys) q x n :
  fs_wf fs -> lookup_node fs q = Some Dir ->
  (n = Dir \/ fs !! (q ++ [x]) <> Some Dir) ->
  fs_wf (<[q ++ [x] := n]> fs).
Proof.
  intros [Hroot Hpar] Hq Hn. split.
  - rewrite lookup_insert_ne; [done|]. intros H. by apply (snoc_not_nil q x).
  - intros p y m Hp. destruct (decide (p ++ [y] = q ++ [x])) as [Heq|Hne].
    + apply app_inj_tail in Heq as [-> ->].
      rewrite lookup_node_insert_ne; [done|]. intros H. by apply (snoc_neq_self q x).
    + rewrite lookup_insert_ne in Hp by done. pose proof (Hpar _ _ _ Hp) as Hd.
      destruct (decide (p = q ++ [x])) as [->|Hpq].
      * rewrite lookup_node_insert_eq by auto with wiz.
        destruct Hn as [->|Hn]; [done|]. by rewrite lookup_node_snoc in Hd.
      * by rewrite lookup_node_insert_ne.
Qed.

(** In a well-formed file system, every ancestor of an existing path is a
    directory. *)
Lemma fs_wf_ancestor (fs : fsys) p q n :
  fs_wf fs -> q <> [] -> lookup_node fs (p ++ q) = Some n -> lookup_node fs p = Some Dir.
Proof.
  intros Hwf. revert n. induction q as [|x q IH] using rev_ind; intros n Hq Hl; [done|].
  rewrite app_assoc, lookup_node_snoc in Hl. apply (proj2 Hwf) in Hl.
  destruct q as [|y q'] using rev_ind; [by rewrite app_nil_r in Hl|].
  eapply IH; [|exact Hl]. auto with wiz.
Qed.

(** ** [mkdir(parents=True, exist_ok=True)] *)

(** The change a [mkdir_parents fs p] makes: entries stay, or are new
    directories on a prefix of [p]. *)
Definition mkdir_frame (fs fs' : fsys) (p : path) : Prop :=
  forall q, fs' !! q = fs !! q \/ (fs !! q = None /\ fs' !! q = Some Dir /\ q `prefix_of` p).

(** On success the directory exists, the file system is still well
    formed, and the only entries that changed are new directories on the
    way to it. *)
Lemma mkdirs_from_spec (fs : fsys) base rest fs' :
  fs_wf fs -> lookup_node fs base = Some Dir -> mkdirs_from fs base rest = inr fs' ->
  fs_wf fs' /\ lookup_node fs' (base ++ rest) = Some Dir /\
  (forall p, fs' !! p = fs !! p \/
     (fs !! p = None /\ fs' !! p = Some Dir /\ p `prefix_of` (base ++ rest))).
Proof.
  revert fs base. induction rest as [|c rest IH]; intros fs base Hwf Hb H; simpl in H.
  - injection H as <-. rewrite app_nil_r. auto.
  - replace (base ++ c :: rest) with ((base ++ [c]) ++ rest) by by rewrite <-app_assoc.
    destruct (lookup_node fs (base ++ [c])) as [[]|] eqn:Hq; [by destruct rest| |].
    + by apply IH.
    + edestruct (IH (<[base ++ [c] := Dir]> fs) (base ++ [c])) as (Hwf' & Hd & Hch);
        [by apply fs_wf_insert; auto | by apply lookup_node_insert_eq, snoc_not_nil | done |].
      split; [done|]. split; [done|]. intros p.
      rewrite lookup_node_snoc in Hq.
      destruct (decide (p = base ++ [c])) as [->|Hne].
      * right. rewrite Hq. split; [done|]. split; [|by apply prefix_app_r].
        destruct (Hch (base ++ [c])) as [->|(Hn & _)]; [apply lookup_insert_eq|].
        by rewrite lookup_insert_eq in Hn.
      * by rewrite <-(lookup_insert_ne fs (base ++ [c]) p Dir) by done.
Qed.

(** When the directory already exists the call changes nothing. *)
Lemma mkdirs_from_existing (fs : fsys) base rest :
  fs_wf fs -> lookup_node fs (base ++ rest) = Some Dir -> mkdirs_from fs base rest = inr fs.
Proof.
  revert base. induction rest as [|c rest IH]; intros base Hwf Hd; simpl; [done|].
  assert (Hq : lookup_node fs (base ++ [c]) = Some Dir).
  { destruct rest as [|y rest].
    - done.
    - eapply (fs_wf_ancestor _ _ (y :: rest)); [done..|]. by rewrite <-app_assoc. }
  rewrite Hq. apply IH; [done|]. by rewrite <-app_assoc.
Qed.

Lemma mkdir_parents_spec (fs : fsys) p fs' :
  fs_wf fs -> mkdir_parents fs p = inr fs' ->
  fs_wf fs' /\ lookup_node fs' p = Some Dir /\
  mkdir_frame fs fs' p.
Proof. intros Hwf H. by apply (mkdirs_from_spec fs [] p). Qed.

Lemma mkdir_parents_existing (fs : fsys) p :
  fs_wf fs -> lookup_node fs p = Some Dir -> mkdir_parents fs p = inr fs.
Proof. intros. by apply mkdirs_from_existing. Qed.

(** ** [write_bytes] and [chmod] *)

(** A successful write replaces (or creates) exactly the file written:
    an existing file keeps its mode, a new one gets the creation mode. *)
Lemma write_bytes_spec (u : Z) (fs : fsys) (p : path) (d : list Byte.byte) (fs' : fsys) :
  write_bytes u fs p d = inr fs' ->
  exists q x m, p = q ++ [x] /\ lookup_node fs q = Some Dir /\
    fs' = <[p := File d m]> fs /\
    ((exists d0, fs !! p = Some (File d0 m) /\ can_write m = true) \/
     (fs !! p = None /\ m = creation_mode u)).
Proof.
  unfold write_bytes. destruct (path_snoc_cases p) as [->|(q & x & ->)]; [done|].
  rewrite parent_snoc. replace (match q ++ [x] with [] => _ | _ => _ end) with
    (match lookup_node fs q with
     | Some Dir => match fs !! (q ++ [x]) with
                   | Some Dir => inl EISDIR
                   | Some (File _ m) => if can_write m then inr (<[q ++ [x] := File d m]> fs) else inl EACCES
                   | None => inr (<[q ++ [x] := File d (creation_mode u)]> fs) end
     | Some (File _ _) => inl ENOTDIR | None => inl ENOENT end) by by destruct q.
  destruct (lookup_node fs q) as [[]|] eqn:Hq; try done.
  destruct (fs !! (q ++ [x])) as [[d0 m0|]|] eqn:Hp; try done.
  - destruct (can_write m0) eqn:Hw; [|done]. intros [= <-]. eauto 10.
  - intros [= <-]. eauto 10.
Qed.

Lemma write_bytes_wf (u : Z) (fs : fsys) (p : path) (d : list Byte.byte) (fs' : fsys) :
  fs_wf fs -> write_bytes u fs p d = inr fs' -> fs_wf fs'.
Proof.
  intros Hwf (q & x & m & -> & Hq & -> & Hold)%write_bytes_spec.
  apply fs_wf_insert; [done..|]. right.
  destruct Hold as [(d0 & -> & _)|(-> & _)]; done.
Qed.

Lemma chmod_wf (fs : fsys) (p : path) (mode : Z) (fs' : fsys) :
  fs_wf fs -> chmod fs p mode = inr fs' -> fs_wf fs'.
Proof.
  unfold chmod. intros Hwf.
  destruct (lookup_node fs p) as [[d m|]|] eqn:Hp; intros H; inversion H; subst; [|done].
  destruct (path_snoc_cases p) as [->|(q & x & ->)]; [done|].
  apply fs_wf_insert; [done| |].
  - rewrite lookup_node_snoc in Hp. eapply (proj2 Hwf). exact Hp.
  - right. rewrite lookup_node_snoc in Hp. by rewrite Hp.
Qed.

#[export] Hint Resolve write_bytes_wf chmod_wf : wiz.

(** An existing path's parent is a directory. *)
Lemma exists_parent_dir (fs : fsys) p :
  fs_wf fs -> path_exists fs p = true -> lookup_node fs (parent p) = Some Dir.
Proof.
  intros Hwf. unfold path_exists.
  destruct (path_snoc_cases p) as [->|(q & x & ->)]; [done|].
  rewrite parent_snoc, lookup_node_snoc.
  destruct (fs !! (q ++ [x])) eqn:Hl; [|done]. intros _. by eapply (proj2 Hwf).
Qed.

(** ** Frames: what a [mkdir] leaves unchanged *)

Lemma mkdir_frame_not_prefix (fs fs' : fsys) p q :
  mkdir_frame fs fs' p -> ~ q `prefix_of` p -> lookup_node fs' q = lookup_node fs q.
Proof.
  intros Hfr Hq. destruct q as [|y q]; [done|]. simpl.
  by destruct (Hfr (y :: q)) as [->|(_ & _ & ?)].
Qed.

Lemma mkdir_frame_exists (fs fs' : fsys) p q :
  mkdir_frame fs fs' p -> path_exists fs q = true -> lookup_node fs' q = lookup_node fs q.
Proof.
  unfold path_exists. intros Hfr Hq. destruct q as [|y q]; [done|]. simpl in *.
  destruct (Hfr (y :: q)) as [->|(Hn & _)]; [done|]. by rewrite Hn in Hq.
Qed.

(** A path is not a prefix of its parent. *)
Lemma not_prefix_parent (p : path) : p <> [] -> ~ p `prefix_of` parent p.
Proof.
  destruct (path_snoc_cases p) as [->|(q & x & ->)]; [done|]. intros _ Hp.
  rewrite parent_snoc in Hp. apply prefix_length in Hp. rewrite length_app in Hp. simpl in Hp. lia.
Qed.

Lemma chmod_file (fs : fsys) p d m mode :
  lookup_node fs p = Some (File d m) -> chmod fs p mode = inr (<[p := File d mode]> fs).
Proof. unfold chmod. by intros ->. Qed.

(** ** Growth: paths that exist keep existing *)

Definition fs_grows (fs fs' : fsys) : Prop :=
  forall q, path_exists fs q = true -> path_exists fs' q = true.

Lemma fs_grows_refl (fs : fsys) : fs_grows fs fs.
Proof. by intros q. Qed.

Lemma fs_grows_trans (fs1 fs2 fs3 : fsys) :
  fs_grows fs1 fs2 -> fs_grows fs2 fs3 -> fs_grows fs1 fs3.
Proof. intros H12 H23 q Hq. by apply H23, H12. Qed.

#[export] Hint Resolve fs_grows_refl fs_grows_trans : wiz.

(** Output events of child processes. *)
Definition is_proc (ev : event) : bool :=
  match ev with EvProc _ _ _ => true | _ => false end.

Definition count_procs (l : list event) : nat := count_if is_proc l.

(** ** Deciding the invariant on a concrete file system *)

Definition fs_wf_b (fs : fsys) : bool :=
  bool_decide (fs !! [] = None) &&
  forallb (fun pn => bool_decide (lookup_node fs (parent pn.1) = Some Dir))
          (map_to_list fs).

Lemma fs_wf_b_sound (fs : fsys) : fs_wf_b fs = true -> fs_wf fs.
Proof.
  unfold fs_wf_b. intros [Hroot Hall]%andb_true_iff. split.
  - by apply bool_decide_eq_true in Hroot.
  - intros p x n Hp. apply forallb_forall with (x := (p ++ [x], n)) in Hall.
    + apply bool_decide_eq_true in Hall. simpl in Hall. by rewrite parent_snoc in Hall.
    + apply list_elem_of_In. by apply elem_of_map_to_list.
Qed.

(** ** Paths apart: neither is a prefix of the other *)

(** [q] lies outside the tree rooted at [root] and is not one of its
    ancestors. *)
Definition outside (root q : path) : Prop :=
  ~ root `prefix_of` q /\ ~ q `prefix_of` root.

Lemma outside_not_prefix_app (root q y : path) :
  outside root q -> ~ q `prefix_of` (root ++ y).
Proof.
  intros [Hrq Hqr] Hq.
  destruct (prefix_weak_total q root (root ++ y)) as [?|?];
    [done | by apply prefix_app_r | done | done].
Qed.

Lemma outside_neq_app (root q y : path) : outside root q -> q <> root ++ y.
Proof. intros [Hrq _] ->. apply Hrq. by apply prefix_app_r. Qed.

(** Every path of a tree [a ++ x] is outside a tree [b] apart from [a]. *)
Lemma outside_app (a b x : path) : outside b a -> outside b (a ++ x).
Proof.
  intros [Hba Hab]. split.
  - intros Hb. destruct (prefix_weak_total b a (a ++ x)); [done | by apply prefix_app_r | done | done].
  - intros Hax. apply Hab. by apply prefix_app_l in Hax.
Qed.

Lemma parent_prefix (p : path) : parent p `prefix_of` p.
Proof.
  destruct (path_snoc_cases p) as [->|(q & x & ->)]; [done|].
  rewrite parent_snoc. by apply prefix_app_r.
Qed.

Lemma path_exists_same (fs fs' : fsys) q :
  fs' !! q = fs !! q -> path_exists fs' q = path_exists fs q.
Proof. unfold path_exists. destruct q; [done|]. simpl. by intros ->. Qed.

Lemma read_bytes_same (fs fs' : fsys) p :
  fs' !! p = fs !! p -> read_bytes fs' p = read_bytes fs p.
Proof. unfold read_bytes. destruct p; [done|]. simpl. by intros ->. Qed.

Lemma is_absolute_path_str (p : path) : is_absolute (path_str p) = true.
Proof. unfold is_absolute, path_str. simpl. by destruct (join_slash p). Qed.

(** ** Output *)

Lemma add_events_cons (ev : event) (evs : list event) (w : world) :
  add_events evs (add_event ev w) = add_events (ev :: evs) w.
Proof. unfold add_events, add_event. simpl. by rewrite <-app_assoc. Qed.

Lemma add_events_app (evs1 evs2 : list event) (w : world) :
  add_events evs2 (add_events evs1 w) = add_events (evs1 ++ evs2) w.
Proof. unfold add_events. simpl. by rewrite <-app_assoc. Qed.

Lemma add_events_nil (w : world) : add_events [] w = w.
Proof. unfold add_events. rewrite app_nil_r. by destruct w. Qed.

Lemma echo_run (s : string) (w : world) : echo s w = (inr tt, add_events [EvOut s] w).
Proof. reflexivity. Qed.

(** A loop that only prints. *)
Lemma for_echo {A} (l : list A) (f : A -> string) (w : world) :
  for_ l (fun x => echo (f x)) w = (inr tt, add_events (map (fun x => EvOut (f x)) l) w).
Proof.
  revert w. induction l as [|x l IH]; intros w; simpl; [by rewrite add_events_nil|].
  rewrite (bind_inr _ _ _ _ _ (echo_run _ _)), IH. by rewrite add_events_app.
Qed.

(** A loop whose every step completes and only prints. *)
Lemma for_events {A} (l : list A) (f : A -> M unit) (g : A -> list event) (w : world) :
  (forall x w, f x w = (inr tt, add_events (g x) w)) ->
  for_ l f w = (inr tt, add_events (flat_map g l) w).
Proof.
  intros Hf. revert w. induction l as [|x l IH]; intros w; simpl; [by rewrite add_events_nil|].
  rewrite (bind_inr _ _ _ _ _ (Hf x w)), IH. by rewrite add_events_app.
Qed.

Lemma bind_echo {A} (s : string) (k : unit -> M A) (w : world) :
  se_bind (echo s) k w = k tt (add_events [EvOut s] w).
Proof. reflexivity. Qed.

(** Lines printed on stderr, one event each. *)
Lemma for_echo_err (l : list string) (w : world) :
  for_ l echo_err w = (inr tt, add_events (map EvErr l) w).
Proof.
  revert w. induction l as [|x l IH]; intros w; simpl; [by rewrite add_events_nil|].
  rewrite (bind_inr _ _ _ _ _ (eq_refl : echo_err x w = (inr tt, add_events [EvErr x] w))), IH.
  by rewrite add_events_app.
Qed.

Lemma bind_for_echo {A B} (l : list A) (f : A -> string) (k : unit -> M B) (w : world) :
  se_bind (for_ l (fun x => echo (f x))) k w = k tt (add_events (map (fun x => EvOut (f x)) l) w).
Proof. by rewrite (bind_inr _ _ _ _ _ (for_echo _ _ _)). Qed.

Lemma bind_get_state {A} (k : world -> M A) (w : world) : se_bind get_state k w = k w w.
Proof. reflexivity. Qed.
