(* ===== verification/Fixture.v ===== *)
(** * Fixture: concrete worlds on which the witnesses run

    An installation of the skill under [/opt/skill] (scripts, and one
    template per catalog path, whose bytes are the path's own text), an
    empty repository [/home/dev/repo], and two external hook installers:
    one that succeeds and one that fails.  Nothing here models code; the
    witnesses of the theorems evaluate the model on these inputs. *)

From S2P Require Import Prelude Catalog OS.
Import Catalog.

Module Fixture.

(** Process environment: cwd and home [/home/dev], umask 0o022. *)
Definition E0 : env :=
  mkEnv ["home"; "dev"] ["home"; "dev"] (fun _ => None) ["opt"; "skill"; "scripts"] 18.

Definition template_root : path := ["opt"; "skill"; "assets"; "templates"].

Definition repo0 : path := ["home"; "dev"; "repo"].

(** Add an entry, creating its parent directories. *)
Definition add_node (fs : fsys) (p : path) (n : node) : fsys :=
  match mkdir_parents fs (parent p) with
  | inr fs' => <[p := n]> fs'
  | inl _ => fs
  end.

Definition template_bytes (rel : string) : list Byte.byte := String.list_byte_of_string rel.

(** Every catalog path has a template, mode 0o644. *)
Definition fs_templates : fsys :=
  fold_left (fun fs rel => add_node fs (template_root ++ path_parts rel)
                                   (File (template_bytes rel) 420))
            (primitives_files all_primitives) ∅.

Definition fs0 : fsys :=
  add_node
    (add_node
       (add_node fs_templates ["opt"; "skill"; "scripts"; "bootstrap_control.sh"] (File [] 493))
       ["opt"; "skill"; "scripts"; "audit_control.sh"] (File [] 493))
    repo0 Dir.

Definition w0 : world := mkWorld fs0 [].

(** External programs that exit with a fixed code and touch nothing. *)
Definition const_proc (code : Z) : Process.
Proof. refine {| proc_run := fun _ _ fs => (code, fs) |}. by intros. Defined.

Definition proc_ok : Process := const_proc 0.
Definition proc_fail : Process := const_proc 1.

Lemma fs0_wf : fs_wf fs0.
Proof. apply fs_wf_b_sound. by vm_compute. Qed.

End Fixture.
