(* ===== verification/Resolver.v ===== *)
(** * Resolver: [_resolve_repo]

    Models lines 109-114 of [control_wizard.py]: the command-line path is
    parsed by [pathlib], [expanduser] replaces a leading [~] or [~user],
    [resolve] makes it absolute against the working directory and removes
    [..] (no symbolic links are modelled, so [resolve] is the lexical
    normalisation [os.path.realpath] does on a link-free tree), and the
    result must be an existing directory, else an error is printed and the
    command exits with code 2.  This is the one place every command gets
    its repository from.

    The theorems: the result is a normal absolute path (no empty, [.] or
    [..] component, no [/] inside a component); a successful resolution
    returns an existing directory and changes nothing; a failed one exits
    with 2 after one error line; and printing a normal path and resolving
    the text gives the path back. *)

From S2P Require Import Prelude OS Fixture.
Import Fixture.

Module Resolver.

(** ** Normal paths *)

Fixpoint has_slash (s : string) : bool :=
  match s with
  | EmptyString => false
  | String c r => bool_decide (c = slash) || has_slash r
  end.

Definition component_ok (c : string) : Prop :=
  c <> "" /\ c <> "." /\ c <> ".." /\ has_slash c = false.

Definition path_normal (p : path) : Prop := Forall component_ok p.

(** ** [Path.expanduser] and [Path.resolve] *)

(** A parsed [PurePosixPath]: whether it has a root, and its parts. *)
Record pure_path := PurePath { pp_absolute : bool; pp_parts : list string }.

Definition parse_path (s : string) : pure_path := PurePath (is_absolute s) (path_parts s).

(** [expanduser]: only a relative path whose first part starts with [~]
    changes; an unknown user is a [RuntimeError]. *)
Definition expanduser (E : env) (p : pure_path) : exn + pure_path :=
  if pp_absolute p then inr p
  else match pp_parts p with
       | String c user :: rest =>
           if decide (c = "~"%char) then
             match (if decide (user = "") then Some (env_home E) else env_user_home E user) with
             | Some home => inr (PurePath true (home ++ rest))
             | None => inl RuntimeError
             end
           else inr p
       | _ => inr p
       end.

(** [os.path.realpath] on a tree without links: [..] goes up (the root is
    its own parent), any other part goes down. *)
Definition normalize (base : path) (parts : list string) : path :=
  fold_left (fun acc c => if decide (c = "..") then parent acc else acc ++ [c]) parts base.

Definition resolve (E : env) (p : pure_path) : path :=
  normalize (if pp_absolute p then [] else env_cwd E) (pp_parts p).

(** Lines 109-114. *)
Definition _resolve_repo (E : env) (s : string) : M path :=
  pp <- (match expanduser E (parse_path s) with
         | inl e => raise e
         | inr pp => ret pp
         end) ;;
  let repo := resolve E pp in
  ex <- exists_at repo ;;
  dir <- is_dir_at repo ;;
  if negb ex || negb dir then
    echo_err ("error: repo path does not exist: " +:+ path_str repo) ;;
    raise (Exit 2)
  else ret repo.

(** ** Parsing a printed path *)

Lemma split_slash_noslash (x : string) : has_slash x = false -> split_slash x = [x].
Proof.
  induction x as [|c x IH]; [done|]. simpl. intros [Hc Hx]%orb_false_iff.
  rewrite IH by done. by rewrite decide_False by by apply bool_decide_eq_false in Hc.
Qed.

Lemma split_slash_app (x rest : string) :
  has_slash x = false -> split_slash (x +:+ String slash rest) = x :: split_slash rest.
Proof.
  induction x as [|c x IH]; [done|]. simpl. intros [Hc Hx]%orb_false_iff.
  rewrite ?string_app_cons. simpl. rewrite IH by done.
  by rewrite decide_False by by apply bool_decide_eq_false in Hc.
Qed.

Lemma split_join (p : path) :
  Forall (fun c => has_slash c = false) p -> p <> [] -> split_slash (join_slash p) = p.
Proof.
  induction p as [|x [|y p] IH]; intros Hall Hne; [done| |].
  - apply Forall_cons in Hall as [Hx _]. by apply split_slash_noslash.
  - apply Forall_cons in Hall as [Hx Hall]. change (join_slash (x :: y :: p)) with
      (x +:+ String slash (join_slash (y :: p))).
    rewrite split_slash_app by done. by rewrite IH.
Qed.

(** [str(p)] parses back to the parts of [p]. *)
Lemma path_parts_path_str (p : path) : path_normal p -> path_parts (path_str p) = p.
Proof.
  intros Hn. unfold path_parts, path_str. cbn [split_slash]. rewrite decide_True by done.
  rewrite filter_cons_False by naive_solver.
  destruct p as [|x p]; [done|].
  rewrite split_join; [|by eapply Forall_impl; [exact Hn | intros c (_ & _ & _ & ?)] | done].
  apply filter_all. eapply Forall_impl; [exact Hn|]. intros c (? & ? & _). done.
Qed.

(** ** Normalisation *)

(** What [pathlib] parsing guarantees of a part. *)
Definition part_ok (c : string) : Prop := c <> "" /\ c <> "." /\ has_slash c = false.

Lemma split_slash_parts (s : string) : Forall (fun c => has_slash c = false) (split_slash s).
Proof.
  induction s as [|c s IH]; simpl; [by constructor|].
  case_decide; [by constructor|].
  destruct (split_slash s) as [|x ps]; [by repeat constructor; simpl; rewrite bool_decide_eq_false_2|].
  apply Forall_cons in IH as [Hx Hps]. constructor; [|done].
  simpl. by rewrite bool_decide_eq_false_2.
Qed.

Lemma path_parts_ok (s : string) : Forall part_ok (path_parts s).
Proof.
  apply Forall_forall. intros c Hc. unfold path_parts in Hc.
  apply list_elem_of_filter in Hc as [[? ?] Hc].
  pose proof (split_slash_parts s) as Hall. rewrite Forall_forall in Hall.
  split_and!; auto.
Qed.

Lemma component_part_ok (c : string) : component_ok c -> part_ok c.
Proof. by intros (? & ? & _ & ?). Qed.

Lemma normalize_no_dotdot (base : path) (parts : list string) :
  Forall (fun c => c <> "..") parts -> normalize base parts = base ++ parts.
Proof.
  revert base. induction parts as [|c parts IH]; intros base Hall; simpl; [by rewrite app_nil_r|].
  apply Forall_cons in Hall as [Hc Hall]. rewrite decide_False by done.
  rewrite IH by done. by rewrite <-app_assoc.
Qed.

Lemma path_normal_parent (p : path) : path_normal p -> path_normal (parent p).
Proof.
  destruct (path_snoc_cases p) as [->|(q & x & ->)]; [done|].
  rewrite parent_snoc. unfold path_normal. by rewrite Forall_app; intros [? _].
Qed.

Lemma normalize_normal (base : path) (parts : list string) :
  path_normal base -> Forall part_ok parts -> path_normal (normalize base parts).
Proof.
  revert base. induction parts as [|c parts IH]; intros base Hb Hall; simpl; [done|].
  apply Forall_cons in Hall as [(? & ? & ?) Hall]. apply IH; [|done].
  case_decide; [by apply path_normal_parent|]. unfold path_normal.
  rewrite Forall_app. split; [done|]. by repeat constructor.
Qed.

(** [expanduser] then [resolve] yields a normal absolute path (no
    empty, [.] or [..] part, no [/] inside a part) whenever the working
    and home directories are normal. *)
Lemma resolve_normal (E : env) (s : string) (pp : pure_path) :
  path_normal (env_cwd E) -> path_normal (env_home E) ->
  (forall u h, env_user_home E u = Some h -> path_normal h) ->
  expanduser E (parse_path s) = inr pp -> path_normal (resolve E pp).
Proof.
  intros Hcwd Hhome Husers.
  assert (Hres : forall pp', Forall part_ok (pp_parts pp') -> path_normal (resolve E pp')).
  { intros [[] parts] Hp; unfold resolve; simpl; apply normalize_normal; by try constructor. }
  unfold expanduser, parse_path. simpl.
  pose proof (path_parts_ok s) as Hparts.
  destruct (is_absolute s); simpl; [intros [= <-]; by apply Hres|].
  destruct (path_parts s) as [|[|c user] rest] eqn:Hps; try (intros [= <-]; by apply Hres).
  apply Forall_cons in Hparts as [Hfirst Hrest].
  destruct (decide (c = "~"%char)) as [->|Hc];
    [|intros [= <-]; apply Hres; simpl; by constructor].
  assert (Hh : forall h, (if decide (user = "") then Some (env_home E) else env_user_home E user)
                         = Some h -> path_normal h).
  { case_decide; [by intros h [= <-] | apply Husers]. }
  destruct (if decide (user = "") then _ else _) as [h|] eqn:Hu; [|done].
  intros [= <-]. unfold resolve. simpl. unfold normalize. rewrite fold_left_app.
  fold (normalize [] h). rewrite normalize_no_dotdot.
  - apply normalize_normal; [by apply Hh | done].
  - eapply Forall_impl; [by apply Hh|]. by intros x (_ & _ & ? & _).
Qed.

(** Once the path parses, resolution is one test of the file system:
    whether the resolved path is a directory. *)
Lemma resolve_repo_unfold (E : env) (s : string) (w : world) (pp : pure_path) :
  expanduser E (parse_path s) = inr pp ->
  _resolve_repo E s w =
    if path_is_dir (w_fs w) (resolve E pp) then (inr (resolve E pp), w)
    else (inl (Exit 2), add_event (EvErr ("error: repo path does not exist: " +:+
                                          path_str (resolve E pp))) w).
Proof.
  intros He. unfold _resolve_repo, se_bind. rewrite He.
  unfold exists_at, is_dir_at, ret, raise, echo_err, modify, path_exists, path_is_dir. simpl.
  by destruct (lookup_node (w_fs w) (resolve E pp)) as [[]|].
Qed.

(** A path [expanduser] rejects: the exception propagates and nothing
    else happens. *)
Lemma resolve_repo_expand_error (E : env) (s : string) (w : world) (e : exn) :
  expanduser E (parse_path s) = inl e -> _resolve_repo E s w = (inl e, w).
Proof. intros He. unfold _resolve_repo, se_bind. by rewrite He. Qed.

(** [~user] for a user without a home directory. *)
Lemma expanduser_unknown (E : env) (user : string) (rest : list string) :
  user <> "" -> env_user_home E user = None ->
  expanduser E (PurePath false (String "~" user :: rest)) = inl RuntimeError.
Proof.
  intros Hu Hh. unfold expanduser. cbn [pp_absolute pp_parts].
  rewrite decide_True by done. by rewrite decide_False, Hh.
Qed.

Lemma resolve_repo_ok (E : env) (s : string) (w : world) (pp : pure_path) (repo : path) :
  expanduser E (parse_path s) = inr pp -> resolve E pp = repo ->
  lookup_node (w_fs w) repo = Some Dir -> _resolve_repo E s w = (inr repo, w).
Proof.
  intros He <- Hd. rewrite (resolve_repo_unfold _ _ _ _ He). unfold path_is_dir. by rewrite Hd.
Qed.

(** C23: the single validation point.  A resolution that returns leaves the
    world unchanged and yields an existing directory; one that does not
    return, for a path that parses, prints one error line and exits with
    code 2. *)
Theorem resolve_repo_spec (E : env) (s : string) (w : world) (pp : pure_path) :
  expanduser E (parse_path s) = inr pp ->
  (lookup_node (w_fs w) (resolve E pp) = Some Dir /\
     _resolve_repo E s w = (inr (resolve E pp), w)) \/
  (lookup_node (w_fs w) (resolve E pp) <> Some Dir /\
     _resolve_repo E s w =
       (inl (Exit 2), add_event (EvErr ("error: repo path does not exist: " +:+
                                        path_str (resolve E pp))) w)).
Proof.
  intros He. rewrite (resolve_repo_unfold _ _ _ _ He). unfold path_is_dir.
  destruct (lookup_node (w_fs w) (resolve E pp)) as [[]|]; [right|left|right]; done.
Qed.


(** ** Witnesses on the fixture *)

Ltac solve_normal :=
  unfold path_normal, component_ok; repeat constructor; try discriminate.

Section normal.
Variable E : env.
Hypothesis cwd_normal : path_normal (env_cwd E).
Hypothesis home_normal : path_normal (env_home E).
Hypothesis users_normal : forall u h, env_user_home E u = Some h -> path_normal h.

(** C27: the repository [_resolve_repo] hands to the commands is
    canonical (spec 4.2: an absolute, canonicalized target): whatever
    the string given, with [~], [.], [..], repeated or trailing slashes,
    every path it returns is absolute with no empty, [.] or [..]
    component, given a normal working directory and normal home
    directories. *)
Theorem resolve_repo_normal (s : string) (w w' : world) (repo : path) :
  _resolve_repo E s w = (inr repo, w') -> path_normal repo.
Proof.
  destruct (expanduser E (parse_path s)) as [e|pp] eqn:He.
  - by rewrite (resolve_repo_expand_error _ _ _ _ He).
  - rewrite (resolve_repo_unfold _ _ _ _ He). case_match; [|done]. intros [= <- _].
    by apply (resolve_normal E s pp).
Qed.

End normal.

Lemma resolve_repo_spec_witness :
  expanduser E0 (parse_path "repo") = inr (PurePath false ["repo"]) /\
  ((lookup_node (w_fs w0) (resolve E0 (PurePath false ["repo"])) = Some Dir /\
      _resolve_repo E0 "repo" w0 = (inr (resolve E0 (PurePath false ["repo"])), w0)) \/
   (lookup_node (w_fs w0) (resolve E0 (PurePath false ["repo"])) <> Some Dir /\
      _resolve_repo E0 "repo" w0 =
        (inl (Exit 2), add_event (EvErr ("error: repo path does not exist: " +:+
                                         path_str (resolve E0 (PurePath false ["repo"])))) w0))).
Proof.
  assert (He : expanduser E0 (parse_path "repo") = inr (PurePath false ["repo"]))
    by (vm_compute; reflexivity).
  split; [exact He|]. exact (resolve_repo_spec E0 "repo" w0 _ He).
Defined.

Lemma resolve_repo_normal_witness : path_normal ["home"; "dev"; "repo"].
Proof.
  assert (Hn : forall p : path, Forall (fun c => bool_decide (component_ok c) = true) p -> path_normal p).
  { intros p Hp. eapply Forall_impl; [exact Hp|]. intros x. apply bool_decide_eq_true_1. }
  assert (Hc : path_normal (env_cwd E0)) by (apply Hn; vm_compute; repeat constructor).
  assert (Hh : path_normal (env_home E0)) by (apply Hn; vm_compute; repeat constructor).
  assert (Hu : forall u h, env_user_home E0 u = Some h -> path_normal h) by done.
  apply (resolve_repo_normal E0 Hc Hh Hu "~/x/../repo/." w0 w0).
  apply (resolve_repo_ok E0 "~/x/../repo/." w0 (PurePath true ["home"; "dev"; "x"; ".."; "repo"]));
    vm_compute; reflexivity.
Defined.

End Resolver.
