(* ===== verification/Materializer.v ===== *)
(** * Materializer: [_copy_template]

    Models lines 22-24 ([TEMPLATE_DIR]) and 126-141 ([_copy_template]) of
    [control_wizard.py]: for one relative path, check the template exists
    (else print an error and exit 2), create the target's parent
    directories, skip an existing target unless [force], otherwise copy the
    template's bytes over the target and, for a [.sh] file or a file under
    [.githooks/], set its mode to 0o755.  The theorems give the result of
    every branch: the fatal error, the skip (which changes nothing), the
    write (the target holds the template's bytes with the mode the
    permission rule gives, and no other entry changed), and that the file
    system stays well formed. *)

From S2P Require Import Prelude Catalog OS Fixture.
Import Catalog Fixture.

Module Materializer.

(** ** The permission rule *)

(** The last [.]-suffix of a name, scanning from the right: [Some s] when
    [s] is the part from the last dot on. *)
Fixpoint last_dot_suffix (s : string) : option string :=
  match s with
  | EmptyString => None
  | String c rest =>
      match last_dot_suffix rest with
      | Some x => Some x
      | None => if decide (c = "."%char) then Some s else None
      end
  end.

(** [PurePath.suffix]: [i = name.rfind("."); name[i:] if 0 < i < len(name) - 1
    else ""].  A dot in first position (a hidden file) or in last position
    gives no suffix. *)
Definition path_suffix (name : string) : string :=
  match name with
  | EmptyString => ""
  | String _ rest =>
      match last_dot_suffix rest with
      | Some x => if decide (String.length x <= 1) then "" else x
      | None => ""
      end
  end.

(** Line 139: [target.suffix == ".sh" or relative_path.startswith(".githooks/")]. *)
Definition is_executable_path (target : path) (relative_path : string) : bool :=
  bool_decide (path_suffix (path_name target) = ".sh")
  || String.prefix ".githooks/" relative_path.

(** 0o755 *)
Definition EXEC_MODE : Z := 493.

(** *** Facts about the rule *)

Lemma last_dot_suffix_app_sh (s : string) : last_dot_suffix (s +:+ ".sh") = Some ".sh".
Proof. induction s as [|c s IH]; [done|]. rewrite string_app_cons. cbn [last_dot_suffix]. by rewrite IH. Qed.

Lemma last_dot_suffix_app (s x : string) :
  last_dot_suffix s = Some x -> exists pre, s = pre +:+ x.
Proof.
  induction s as [|c s IH]; [done|]. cbn [last_dot_suffix].
  destruct (last_dot_suffix s) as [y|] eqn:Hy.
  - intros [= <-]. destruct (IH eq_refl) as [pre ->]. by exists (String c pre).
  - case_decide; [|done]. intros [= <-]. by exists "".
Qed.

(** A name has the suffix [.sh] exactly when it is a non-empty stem
    followed by [.sh]: [".sh"] itself (a hidden file) is not a shell
    script for [PurePath.suffix]. *)
Lemma path_suffix_sh (name : string) :
  path_suffix name = ".sh" <-> exists stem, stem <> "" /\ name = stem +:+ ".sh".
Proof.
  split.
  - destruct name as [|c rest]; [done|]. simpl.
    destruct (last_dot_suffix rest) as [x|] eqn:Hx; [|done].
    case_decide; [done|]. intros ->. apply last_dot_suffix_app in Hx as [pre ->].
    by exists (String c pre).
  - intros (stem & Hne & ->). destruct stem as [|c stem]; [done|].
    rewrite string_app_cons. simpl. by rewrite last_dot_suffix_app_sh.
Qed.

(** The creation mode [0o666 & ~umask] lies in [0, 0o666] and never has
    the owner execute bit, whatever the umask. *)
Lemma creation_mode_bounds (umask : Z) :
  (0 <= creation_mode umask <= 438)%Z /\ can_exec (creation_mode umask) = false.
Proof.
  unfold creation_mode, can_exec. split.
  - split; [apply Z.land_nonneg; lia|]. apply Z_land_le_l; lia.
  - by rewrite Z.land_spec.
Qed.

Lemma path_name_join (repo : path) (rel : string) :
  path_parts rel <> [] -> path_name (join_path repo rel) = path_name (path_parts rel).
Proof.
  intros Hne. unfold path_name, join_path. rewrite last_app.
  by destruct (last (path_parts rel)) eqn:Hl; [|apply last_None in Hl].
Qed.

(** C28: the permission rule of line 139 on the catalog.  Of the files a
    primitive declares, exactly seven are made 0o755 (the five shell
    scripts and the two git hooks), in every repository: the decision
    depends on the relative path alone (spec 4.3). *)
Theorem catalog_executables (repo : path) (p : Primitive) (rel : string) :
  rel ∈ PRIMITIVE_FILES p ->
  is_executable_path (join_path repo rel) rel = true <->
  rel ∈ ["scripts/control/install_hooks.sh"; ".githooks/pre-commit"; ".githooks/pre-push";
         "scripts/control/recover.sh"; "scripts/control/web_e2e.sh";
         "scripts/control/cli_e2e.sh"; "tests/e2e/cli/smoke.sh"].
Proof.
  intros Hrel. unfold is_executable_path. rewrite <-(bool_decide_eq_true (rel ∈ _)).
  destruct p; repeat (apply elem_of_cons in Hrel as [->|Hrel];
    [rewrite path_name_join by (vm_compute; discriminate); vm_compute; tauto|]);
    by apply not_elem_of_nil in Hrel.
Qed.

(** ** The template directory *)

(** [SCRIPT_DIR = Path(__file__).resolve().parent], [SKILL_DIR =
    SCRIPT_DIR.parent], [TEMPLATE_DIR = SKILL_DIR / "assets" / "templates"]. *)
Definition TEMPLATE_DIR (E : env) : path :=
  parent (env_script_dir E) ++ ["assets"; "templates"].

(** ** [_copy_template] *)

Section copy.
Context (E : env).

Definition template_source (relative_path : string) : path :=
  join_path (TEMPLATE_DIR E) relative_path.

Definition _copy_template (relative_path : string) (repo : path) (force : bool)
  : M string :=
  let source := template_source relative_path in
  let target := join_path repo relative_path in
  src_ok <- exists_at source ;;
  if negb src_ok then
    echo_err ("error: missing template: " +:+ path_str source) ;;
    raise (Exit 2)
  else
    fs_call (fun fs => mkdir_parents fs (parent target)) ;;
    tgt <- exists_at target ;;
    if tgt && negb force then ret "skip"
    else
      data <- read_at source ;;
      fs_call (fun fs => write_bytes (env_umask E) fs target data) ;;
      (if is_executable_path target relative_path
       then fs_call (fun fs => chmod fs target EXEC_MODE)
       else ret tt) ;;
      ret "write".

(** The mode a written file ends with: 0o755 for an executable path,
    otherwise the mode it had, or the creation mode for a new file. *)
Definition written_mode (target : path) (relative_path : string)
           (old : option node) : Z :=
  if is_executable_path target relative_path then EXEC_MODE
  else match old with
       | Some (File _ m) => m
       | _ => creation_mode (env_umask E)
       end.

Ltac unfold_copy :=
  unfold _copy_template, se_bind, exists_at, fs_call, read_at, ret, raise,
    echo_err, modify; simpl.

(** A missing template: the error branch of lines 130-132. *)
Lemma copy_template_no_template (relative_path : string) (repo : path)
        (force : bool) (w : world) :
  path_exists (w_fs w) (template_source relative_path) = false ->
  _copy_template relative_path repo force w =
    (inl (Exit 2),
     add_event (EvErr ("error: missing template: " +:+
                       path_str (template_source relative_path))) w).
Proof. intros H. unfold_copy. by rewrite H. Qed.

(** An existing target without [force]: the early return of line 136. *)
Lemma copy_template_skips (relative_path : string) (repo : path) (w : world) :
  fs_wf (w_fs w) ->
  path_exists (w_fs w) (template_source relative_path) = true ->
  path_exists (w_fs w) (join_path repo relative_path) = true ->
  _copy_template relative_path repo false w = (inr "skip", w).
Proof.
  intros Hwf Hs Ht. unfold_copy. rewrite Hs. simpl.
  rewrite mkdir_parents_existing by auto using exists_parent_dir.
  simpl. rewrite Ht. by destruct w.
Qed.

(** C24: without [force], an existing target is skipped and the world is
    left exactly as it was (idempotence of one file). *)
Theorem copy_template_skip (relative_path : string) (repo : path) (w : world) :
  fs_wf (w_fs w) ->
  path_exists (w_fs w) (template_source relative_path) = true ->
  path_exists (w_fs w) (join_path repo relative_path) = true ->
  _copy_template relative_path repo false w = (inr "skip", w).
Proof. apply copy_template_skips. Qed.

(** C25: a missing template is fatal: an error line on stderr, exit code 2,
    and nothing else happens. *)
Theorem copy_template_missing (relative_path : string) (repo : path)
        (force : bool) (w : world) :
  path_exists (w_fs w) (template_source relative_path) = false ->
  _copy_template relative_path repo force w =
    (inl (Exit 2),
     add_event (EvErr ("error: missing template: " +:+
                       path_str (template_source relative_path))) w).
Proof. apply copy_template_no_template. Qed.

(** C20: with [--force], a target that cannot be overwritten is a
    [FilesystemError] that aborts: when the template is readable and the
    target is a directory ([IsADirectoryError]) or a file without the
    owner's write bit ([PermissionError]), [_copy_template] raises that
    [OSError] and the world is left as it was. *)
Theorem copy_template_write_fails (relative_path : string) (repo : path) (w : world)
        (d : list Byte.byte) :
  fs_wf (w_fs w) ->
  read_bytes (w_fs w) (template_source relative_path) = inr d ->
  match lookup_node (w_fs w) (join_path repo relative_path) with
  | Some (File _ m) => can_write m = false
  | Some Dir => True
  | None => False
  end ->
  _copy_template relative_path repo true w =
    (inl (OSError (if path_is_dir (w_fs w) (join_path repo relative_path) then EISDIR else EACCES)), w).
Proof.
  intros Hwf Hr Hbad. destruct w as [fs out]. cbn [w_fs] in *.
  assert (Hs : path_exists fs (template_source relative_path) = true).
  { unfold read_bytes in Hr. unfold path_exists. by destruct (lookup_node _ _) as [[]|]. }
  assert (Ht : path_exists fs (join_path repo relative_path) = true).
  { unfold path_exists. by destruct (lookup_node _ _) as [[]|]. }
  unfold_copy. rewrite Hs. simpl.
  rewrite mkdir_parents_existing by auto using exists_parent_dir.
  simpl. rewrite Ht. simpl. rewrite Hr. simpl. unfold path_is_dir, write_bytes.
  destruct (join_path repo relative_path) as [|x q] eqn:Hj; [done|].
  rewrite (exists_parent_dir _ _ Hwf Ht).
  rewrite lookup_node_cons in Hbad |- *.
  destruct (fs !! (x :: q)) as [[d' m|]|]; [|done|done]. by rewrite Hbad.
Qed.

(** The two outcomes of a run that returns. *)
Lemma copy_template_cases (relative_path : string) (repo : path) (force : bool)
        (w w' : world) (s : string) :
  fs_wf (w_fs w) ->
  _copy_template relative_path repo force w = (inr s, w') ->
  let target := join_path repo relative_path in
  fs_wf (w_fs w') /\ w_out w' = w_out w /\
  path_exists (w_fs w) (template_source relative_path) = true /\
  ((s = "skip" /\ force = false /\ path_exists (w_fs w) target = true /\
    w_fs w' = w_fs w) \/
   (s = "write" /\ (force = true \/ path_exists (w_fs w) target = false) /\
    exists d, read_bytes (w_fs w) (template_source relative_path) = inr d /\
      w_fs w' !! target =
        Some (File d (written_mode target relative_path (w_fs w !! target))) /\
      forall p, p <> target ->
        w_fs w' !! p = w_fs w !! p \/
        (w_fs w !! p = None /\ w_fs w' !! p = Some Dir /\ p `prefix_of` parent target))).
Proof.
  destruct w as [fs out]. simpl. intros Hwf. set (tgt := join_path repo relative_path).
  set (src := template_source relative_path). unfold_copy. fold tgt src.
  destruct (path_exists fs src) eqn:Hs; simpl; [|done].
  destruct (mkdir_parents fs (parent tgt)) as [e|fs1] eqn:Hm; simpl; [done|].
  pose proof (mkdir_parents_spec _ _ _ Hwf Hm) as (Hwf1 & Hdir1 & Hfr1).
  assert (Ht1 : lookup_node fs1 tgt = lookup_node fs tgt).
  { destruct tgt as [|y t] eqn:Ht; [done|]. apply (mkdir_frame_not_prefix _ _ _ _ Hfr1).
    apply not_prefix_parent. done. }
  assert (He1 : path_exists fs1 tgt = path_exists fs tgt) by (unfold path_exists; by rewrite Ht1).
  rewrite He1. destruct (path_exists fs tgt && negb force) eqn:Hskip; simpl.
  { intros [= <- <-]. apply andb_true_iff in Hskip as [Hex Hf%negb_true_iff].
    rewrite mkdir_parents_existing in Hm by eauto using exists_parent_dir.
    injection Hm as <-. simpl. auto 10. }
  assert (Hr1 : read_bytes fs1 src = read_bytes fs src).
  { unfold read_bytes. by rewrite (mkdir_frame_exists _ _ _ _ Hfr1 Hs). }
  rewrite Hr1. destruct (read_bytes fs src) as [e|d] eqn:Hr; simpl; [done|].
  destruct (write_bytes _ fs1 tgt d) as [e|fs2] eqn:Hw; simpl; [done|].
  pose proof Hw as (q & x & m & Htq & Hq & -> & Hold)%write_bytes_spec.
  assert (Hold' : fs1 !! tgt = fs !! tgt).
  { rewrite Htq in Ht1 |- *. by rewrite !lookup_node_snoc in Ht1. }
  assert (Hwf2 : fs_wf (<[tgt := File d m]> fs1)) by eauto with wiz.
  assert (Hframe : forall v p, p <> tgt -> <[tgt := v]> fs1 !! p = fs !! p \/
            (fs !! p = None /\ <[tgt := v]> fs1 !! p = Some Dir /\ p `prefix_of` parent tgt)).
  { intros v p Hp. rewrite lookup_insert_ne by done. apply Hfr1. }
  assert (Hforce : force = true \/ path_exists fs tgt = false).
  { destruct force; [by left|]. right. rewrite andb_true_r in Hskip. done. }
  assert (Hmode : written_mode tgt relative_path (fs !! tgt) = m \/
                  is_executable_path tgt relative_path = true).
  { unfold written_mode. destruct (is_executable_path _ _); [by right|left].
    rewrite <-Hold'. by destruct Hold as [(d0 & -> & _)|(-> & ->)]. }
  destruct (is_executable_path tgt relative_path) eqn:Hx; simpl.
  - rewrite (chmod_file _ _ d m).
    2:{ rewrite lookup_node_nonempty by (rewrite Htq; apply snoc_not_nil).
        apply lookup_insert_eq. }
    simpl. intros [= <- <-]. simpl. rewrite insert_insert_eq. split.
    { rewrite Htq. apply fs_wf_insert; [done|done|].
      right. rewrite <-Htq. destruct Hold as [(d0 & -> & _)|(-> & _)]; done. }
    split; [done|]. split; [done|]. right. split; [done|]. split; [done|]. exists d. split; [done|].
    split; [|apply Hframe]. rewrite lookup_insert_eq. unfold written_mode. by rewrite Hx.
  - intros [= <- <-]. simpl. split; [done|]. split; [done|]. split; [done|]. right.
    split; [done|]. split; [done|]. exists d. split; [done|].
    destruct Hmode as [<-|?]; [|congruence]. split; [apply lookup_insert_eq|apply Hframe].
Qed.

(** C7: the result of every run that returns.  Either the target existed,
    [force] was off, and the world is unchanged ("skip"); or ("write")
    the target now holds the template's bytes with the mode of the
    permission rule, and every other entry is unchanged except the new
    parent directories.  Output is not touched and the file system stays
    well formed. *)
Theorem copy_template_spec (relative_path : string) (repo : path) (force : bool)
        (w w' : world) (s : string) :
  fs_wf (w_fs w) ->
  _copy_template relative_path repo force w = (inr s, w') ->
  let target := join_path repo relative_path in
  fs_wf (w_fs w') /\ w_out w' = w_out w /\
  path_exists (w_fs w) (template_source relative_path) = true /\
  ((s = "skip" /\ force = false /\ path_exists (w_fs w) target = true /\
    w_fs w' = w_fs w) \/
   (s = "write" /\ (force = true \/ path_exists (w_fs w) target = false) /\
    exists d, read_bytes (w_fs w) (template_source relative_path) = inr d /\
      w_fs w' !! target =
        Some (File d (written_mode target relative_path (w_fs w !! target))) /\
      forall p, p <> target ->
        w_fs w' !! p = w_fs w !! p \/
        (w_fs w !! p = None /\ w_fs w' !! p = Some Dir /\ p `prefix_of` parent target))).
Proof. apply copy_template_cases. Qed.

(** A run that returns leaves the target in place, keeps every existing
    path, and keeps the file system well formed. *)
Lemma copy_template_grows (relative_path : string) (repo : path) (force : bool)
      (w w' : world) (s : string) :
  fs_wf (w_fs w) ->
  _copy_template relative_path repo force w = (inr s, w') ->
  fs_wf (w_fs w') /\ w_out w' = w_out w /\ fs_grows (w_fs w) (w_fs w') /\
  path_exists (w_fs w') (join_path repo relative_path) = true /\
  path_exists (w_fs w) (template_source relative_path) = true.
Proof.
  intros Hwf Hrun. destruct (copy_template_cases _ _ _ _ _ _ Hwf Hrun)
    as (Hwf' & Hout & Hsrc & [(-> & _ & Hex & ->)|(-> & _ & d & _ & Ht & Hfr)]);
    simpl in *; [by auto with wiz|].
  assert (Hex' : path_exists (w_fs w') (join_path repo relative_path) = true).
  { unfold path_exists. destruct (join_path repo relative_path); [done|]. by rewrite lookup_node_cons, Ht. }
  split_and!; try done. intros q. unfold path_exists.
  destruct q as [|y q]; [done|]. rewrite !lookup_node_cons.
  destruct (decide (y :: q = join_path repo relative_path)) as [Heq|Hne].
  - rewrite Heq in *. by rewrite Ht.
  - destruct (Hfr _ Hne) as [->|(-> & _)]; done.
Qed.

(** A run that returns leaves alone every path outside the repository,
    the templates in particular. *)
Lemma copy_template_outside (relative_path : string) (repo : path) (force : bool)
      (w w' : world) (s : string) (q : path) :
  fs_wf (w_fs w) ->
  _copy_template relative_path repo force w = (inr s, w') ->
  outside repo q -> w_fs w' !! q = w_fs w !! q.
Proof.
  intros Hwf Hrun Hq.
  destruct (copy_template_cases _ _ _ _ _ _ Hwf Hrun)
    as (_ & _ & _ & [(_ & _ & _ & ->)|(_ & _ & d & _ & _ & Hfr)]); [done|].
  destruct (Hfr q) as [->|(_ & _ & Hp)]; [by apply outside_neq_app| done |].
  exfalso. eapply outside_not_prefix_app; [exact Hq|].
  etrans; [exact Hp | apply parent_prefix].
Qed.
End copy.

(** ** Witnesses on the fixture *)

Lemma copy_template_missing_witness :
  path_exists fs0 (template_source E0 "README.md") = false /\
  _copy_template E0 "README.md" repo0 true w0 =
    (inl (Exit 2), add_event (EvErr ("error: missing template: " +:+
                                     path_str (template_source E0 "README.md"))) w0).
Proof.
  split; [vm_compute; reflexivity|]. apply copy_template_missing. vm_compute; reflexivity.
Defined.

(** The repository after [.control/policy.yaml] was materialised once. *)
Definition w_policy : world := snd (_copy_template E0 ".control/policy.yaml" repo0 false w0).

Lemma copy_template_skip_witness :
  fs_wf (w_fs w_policy) /\
  _copy_template E0 ".control/policy.yaml" repo0 false w_policy = (inr "skip", w_policy).
Proof.
  assert (Hwf : fs_wf (w_fs w_policy)) by (apply fs_wf_b_sound; vm_compute; reflexivity).
  split; [exact Hwf|].
  apply copy_template_skip; [exact Hwf | vm_compute; reflexivity | vm_compute; reflexivity].
Defined.

Lemma copy_template_spec_witness :
  fs_wf (w_fs w_policy) /\ exists w',
  _copy_template E0 "scripts/control/install_hooks.sh" repo0 true w_policy = (inr "write", w') /\
  (let target := join_path repo0 "scripts/control/install_hooks.sh" in
   fs_wf (w_fs w') /\ w_out w' = w_out w_policy /\
   path_exists (w_fs w_policy) (template_source E0 "scripts/control/install_hooks.sh") = true /\
   (("write" = "skip" /\ true = false /\ path_exists (w_fs w_policy) target = true /\
     w_fs w' = w_fs w_policy) \/
    ("write" = "write" /\ (true = true \/ path_exists (w_fs w_policy) target = false) /\
     exists d, read_bytes (w_fs w_policy) (template_source E0 "scripts/control/install_hooks.sh") = inr d /\
       w_fs w' !! target =
         Some (File d (written_mode E0 target "scripts/control/install_hooks.sh" (w_fs w_policy !! target))) /\
       forall p, p <> target ->
         w_fs w' !! p = w_fs w_policy !! p \/
         (w_fs w_policy !! p = None /\ w_fs w' !! p = Some Dir /\ p `prefix_of` parent target)))).
Proof.
  assert (Hwf : fs_wf (w_fs w_policy)) by (apply fs_wf_b_sound; vm_compute; reflexivity).
  split; [exact Hwf|].
  set (run := _copy_template E0 "scripts/control/install_hooks.sh" repo0 true w_policy).
  assert (Hr : run = (inr "write", run.2)) by (apply run_result; vm_compute; reflexivity).
  exists run.2. split; [exact Hr|].
  exact (copy_template_spec E0 "scripts/control/install_hooks.sh" repo0 true w_policy run.2 "write" Hwf Hr).
Defined.

(** The fixture with a read-only [.control/policy.yaml] (mode 0o444) in
    the repository. *)
Definition w_readonly : world :=
  mkWorld (add_node fs0 (join_path repo0 ".control/policy.yaml") (File [] 292)) [].

Lemma copy_template_write_fails_witness :
  _copy_template E0 ".control/policy.yaml" repo0 true w_readonly =
    (inl (OSError (if path_is_dir (w_fs w_readonly) (join_path repo0 ".control/policy.yaml")
                   then EISDIR else EACCES)), w_readonly).
Proof.
  apply (copy_template_write_fails E0 ".control/policy.yaml" repo0 w_readonly
           (template_bytes ".control/policy.yaml")).
  - apply fs_wf_b_sound. vm_compute. reflexivity.
  - vm_compute. reflexivity.
  - vm_compute. reflexivity.
Defined.

Lemma catalog_executables_witness :
  is_executable_path (join_path repo0 ".githooks/pre-push") ".githooks/pre-push" = true <->
  ".githooks/pre-push" ∈ ["scripts/control/install_hooks.sh"; ".githooks/pre-commit"; ".githooks/pre-push";
         "scripts/control/recover.sh"; "scripts/control/web_e2e.sh";
         "scripts/control/cli_e2e.sh"; "tests/e2e/cli/smoke.sh"].
Proof. apply (catalog_executables repo0 hooks). by right; right; left. Defined.

End Materializer.
