(* ===== verification/Applier.v ===== *)
(** * Applier: [_activate_hooks] and [_apply_primitives]

    Models lines 144-164 of [control_wizard.py].  [_apply_primitives]
    walks the primitives in the order given and, for each, prints a header,
    materialises its files in catalog order with [_copy_template] (printing
    a [write] or [skip ] line per file), and after the files of [hooks]
    runs the repository's [scripts/control/install_hooks.sh] through
    [_activate_hooks], whose failure is only a warning.  The external
    hook installer is a [Process] (see [OS]).

    The theorems: a batch splits into its prefix and its rest, and an
    error ends it (template skew aborts before any later primitive); the
    hook installer runs once per occurrence of [hooks]; a second run
    without [force] changes nothing and reports every file as skipped;
    a run with [force] leaves every file with its template's bytes. *)

From S2P Require Import Prelude Catalog OS Fixture Materializer.
Import Catalog Fixture Materializer.

Module Applier.

Section apply.
Context `{Process} (E : env).

(** [repo / "scripts" / "control" / "install_hooks.sh"] *)
Definition install_hooks_script (repo : path) : path :=
  repo ++ ["scripts"; "control"; "install_hooks.sh"].

Definition HOOK_WARNING : string :=
  "  [warn] failed to activate git hooks automatically; run scripts/control/install_hooks.sh manually.".

(** Lines 144-153. *)
Definition _activate_hooks (repo : path) : M unit :=
  let install_script := install_hooks_script repo in
  ex <- exists_at install_script ;;
  if negb ex then ret tt
  else
    code <- spawn install_script [] repo ;;
    if decide (code = 0%Z) then ret tt else echo HOOK_WARNING.

(** Line 161: [label = "write" if state == "write" else "skip "]. *)
Definition copy_label (state : string) : string :=
  if decide (state = "write") then "write" else "skip ".

Definition primitive_header (primitive : Primitive) : string :=
  nl +:+ "[" +:+ primitive_value primitive +:+ "]".

Definition file_line (label relative_path : string) : string :=
  "  [" +:+ label +:+ "] " +:+ relative_path.

(** The body of the inner loop, lines 160-162. *)
Definition copy_step (repo : path) (force : bool) (relative_path : string) : M unit :=
  state <- _copy_template E relative_path repo force ;;
  echo (file_line (copy_label state) relative_path).

(** The body of the outer loop, lines 158-164, for one primitive. *)
Definition apply_primitive (repo : path) (force : bool) (primitive : Primitive)
  : M unit :=
  echo (primitive_header primitive) ;;
  for_ (PRIMITIVE_FILES primitive) (copy_step repo force) ;;
  if decide (primitive = hooks) then _activate_hooks repo else ret tt.

(** Lines 156-164. *)
Definition _apply_primitives (repo : path) (primitives : list Primitive)
           (force : bool) : M unit :=
  for_ primitives (apply_primitive repo force).

(** ** Batches: prefix, rest, abort *)

Lemma apply_primitives_app (repo : path) (l1 l2 : list Primitive) (force : bool) w :
  _apply_primitives repo (l1 ++ l2) force w =
  se_bind (_apply_primitives repo l1 force) (fun _ => _apply_primitives repo l2 force) w.
Proof. apply for_app. Qed.

(** ** One step of the inner loop *)

Lemma copy_step_inv (repo : path) (force : bool) (rel : string) (w w' : world) :
  copy_step repo force rel w = (inr tt, w') ->
  exists s w1, _copy_template E rel repo force w = (inr s, w1) /\
    w' = add_event (EvOut (file_line (copy_label s) rel)) w1.
Proof.
  unfold copy_step, se_bind.
  destruct (_copy_template E rel repo force w) as [[e|s] w1]; [done|].
  intros [= <-]. eauto.
Qed.

(** The files of a primitive: on success every target and template
    exists, existing paths are kept, and one output line is printed per
    file (no process is run). *)
Lemma copy_files_spec (repo : path) (force : bool) (rels : list string) (w w' : world) :
  fs_wf (w_fs w) -> for_ rels (copy_step repo force) w = (inr tt, w') ->
  fs_wf (w_fs w') /\ fs_grows (w_fs w) (w_fs w') /\
  (forall rel, rel ∈ rels -> path_exists (w_fs w') (join_path repo rel) = true /\
                             path_exists (w_fs w') (template_source E rel) = true) /\
  exists new, w_out w' = w_out w ++ new /\ count_procs new = 0.
Proof.
  revert w. induction rels as [|rel rels IH]; intros w Hwf Hrun.
  - injection Hrun as <-. split_and!; auto with wiz; [set_solver|]. exists []. by rewrite app_nil_r.
  - apply for_cons_inr in Hrun as (w1 & Hstep & Hrest).
    apply copy_step_inv in Hstep as (s & w0 & Hcopy & ->).
    destruct (copy_template_grows _ _ _ _ _ _ _ Hwf Hcopy) as (Hwf0 & Hout0 & Hg0 & Ht0 & Hs0).
    destruct (IH (add_event _ w0) Hwf0 Hrest) as (Hwf' & Hg' & Hall & new & Hout & Hcnt). simpl in *.
    split_and!; [done|eauto with wiz| |].
    + intros r [->|Hr]%elem_of_cons; [|by apply Hall].
      split; apply Hg'; [done|]. by apply Hg0.
    + exists (EvOut (file_line (copy_label s) rel) :: new). rewrite Hout, Hout0, <-app_assoc.
      split; [done|]. unfold count_procs in *. by rewrite count_if_cons.
Qed.

(** [_activate_hooks] runs the installer once when it exists, and never
    raises on a non-zero exit code (it only prints a warning). *)
Lemma activate_hooks_spec (repo : path) (w w' : world) :
  fs_wf (w_fs w) -> _activate_hooks repo w = (inr tt, w') ->
  fs_wf (w_fs w') /\ exists new, w_out w' = w_out w ++ new /\
    count_procs new = (if path_exists (w_fs w) (install_hooks_script repo) then 1 else 0).
Proof.
  intros Hwf. unfold _activate_hooks, se_bind, exists_at, ret. simpl.
  destruct (path_exists _ _) eqn:Hex; simpl.
  - unfold spawn. destruct (lookup_node _ _) as [[d m|]|]; try done.
    destruct (can_exec m); [|done]. simpl.
    destruct (decide _); unfold echo, modify, add_event, ret; simpl;
      intros [= <-]; simpl; (split; [by apply proc_run_wf|]).
    + eexists. split; [done|]. reflexivity.
    + eexists. rewrite <-app_assoc. split; [done|]. reflexivity.
  - intros [= <-]. split; [done|]. exists []. by rewrite app_nil_r.
Qed.

(** The installer is the first file of the [hooks] primitive. *)
Lemma install_hooks_in_catalog (repo : path) :
  join_path repo "scripts/control/install_hooks.sh" = install_hooks_script repo /\
  "scripts/control/install_hooks.sh" ∈ PRIMITIVE_FILES hooks.
Proof. split; [reflexivity|]. set_solver. Qed.

Lemma apply_primitive_inv (repo : path) (force : bool) (p : Primitive) (w w' : world) :
  apply_primitive repo force p w = (inr tt, w') ->
  exists w1, for_ (PRIMITIVE_FILES p) (copy_step repo force)
               (add_event (EvOut (primitive_header p)) w) = (inr tt, w1) /\
    (if decide (p = hooks) then _activate_hooks repo else ret tt) w1 = (inr tt, w').
Proof.
  unfold apply_primitive, se_bind at 1, echo, modify. simpl. unfold se_bind.
  destruct (for_ _ _ _) as [[e|[]] w1]; [done|]. eauto.
Qed.

(** One primitive: the installer runs exactly when the primitive is
    [hooks]. *)
Lemma apply_primitive_procs (repo : path) (force : bool) (p : Primitive) (w w' : world) :
  fs_wf (w_fs w) -> apply_primitive repo force p w = (inr tt, w') ->
  fs_wf (w_fs w') /\ exists new, w_out w' = w_out w ++ new /\
    count_procs new = (if decide (p = hooks) then 1 else 0).
Proof.
  intros Hwf (w1 & Hfiles & Hact)%apply_primitive_inv.
  destruct (copy_files_spec repo force _ (add_event _ w) w1 Hwf Hfiles) as (Hwf1 & _ & Hall & new1 & Hout1 & Hc1).
  simpl in Hout1. destruct (decide (p = hooks)) as [->|Hne].
  - destruct (activate_hooks_spec _ _ _ Hwf1 Hact) as (Hwf' & new2 & Hout2 & Hc2).
    destruct (install_hooks_in_catalog repo) as [Heq Hin].
    destruct (Hall _ Hin) as [Hex _]. rewrite Heq in Hex. rewrite Hex in Hc2.
    split; [done|]. exists ((EvOut (primitive_header hooks) :: new1) ++ new2).
    rewrite Hout2, Hout1, <-!app_assoc. split; [done|].
    unfold count_procs in *. rewrite count_if_app, count_if_cons, Hc1, Hc2. done.
  - injection Hact as <-. split; [done|]. exists (EvOut (primitive_header p) :: new1).
    rewrite Hout1, <-app_assoc. split; [done|]. unfold count_procs in *. by rewrite count_if_cons, Hc1.
Qed.

(** C3: the hook installer runs exactly once per occurrence of [hooks] in
    a batch that completes, whatever the other primitives are. *)
Theorem apply_primitives_hook_runs (repo : path) (primitives : list Primitive)
        (force : bool) (w w' : world) :
  fs_wf (w_fs w) -> _apply_primitives repo primitives force w = (inr tt, w') ->
  exists new, w_out w' = w_out w ++ new /\
    count_procs new = count_occ (decide_rel eq) primitives hooks.
Proof.
  revert w. induction primitives as [|p ps IH]; intros w Hwf Hrun.
  - injection Hrun as <-. exists []. by rewrite app_nil_r.
  - apply for_cons_inr in Hrun as (w1 & Hp & Hrest).
    destruct (apply_primitive_procs _ _ _ _ _ Hwf Hp) as (Hwf1 & new1 & Hout1 & Hc1).
    destruct (IH _ Hwf1 Hrest) as (new2 & Hout2 & Hc2).
    exists (new1 ++ new2). rewrite Hout2, Hout1, <-app_assoc. split; [done|].
    unfold count_procs in *. rewrite count_if_app, Hc1, Hc2. simpl.
    destruct (decide (p = hooks)), (decide_rel eq p hooks); simpl; congruence.
Qed.

(** A batch that completes keeps the file system well formed. *)
Lemma apply_primitives_wf (repo : path) (primitives : list Primitive) (force : bool)
      (w w' : world) :
  fs_wf (w_fs w) -> _apply_primitives repo primitives force w = (inr tt, w') ->
  fs_wf (w_fs w').
Proof.
  revert w. induction primitives as [|p ps IH]; intros w Hwf Hrun.
  - by injection Hrun as <-.
  - apply for_cons_inr in Hrun as (w1 & Hp & Hrest).
    eapply IH; [|exact Hrest]. by apply (apply_primitive_procs _ _ _ _ _ Hwf Hp).
Qed.

(** ** Template skew *)

(** Within the files of one primitive, a missing template stops the loop:
    the earlier files do not create it (they write inside the repository,
    and the template directory is outside it). *)
Lemma copy_files_abort (repo : path) (force : bool) (rels : list string) (rel : string)
      (w : world) :
  fs_wf (w_fs w) -> outside repo (TEMPLATE_DIR E) -> rel ∈ rels ->
  path_exists (w_fs w) (template_source E rel) = false ->
  exists e w', for_ rels (copy_step repo force) w = (inl e, w').
Proof.
  revert w. induction rels as [|r rs IH]; intros w Hwf Hout Hin Hmiss;
    [by apply not_elem_of_nil in Hin|].
  simpl. unfold se_bind at 1.
  destruct (copy_step repo force r w) as [[e|[]] w1] eqn:Hs; [eauto|].
  apply copy_step_inv in Hs as (s & w0 & Hc & ->).
  destruct (decide (r = rel)) as [->|Hne].
  - by rewrite copy_template_no_template in Hc.
  - destruct (copy_template_grows _ _ _ _ _ _ _ Hwf Hc) as (Hwf0 & _).
    apply IH; [done | done | by apply elem_of_cons in Hin as [->|?] |]. simpl.
    rewrite (path_exists_same (w_fs w)); [done|].
    eapply copy_template_outside; [done | exact Hc |]. by apply outside_app.
Qed.

(** C4: template skew is fatal to the batch: when a file of primitive [p]
    has no template, a batch [l1 ++ p :: l2] stops inside [p], after every
    primitive of [l1] was applied in full and before any primitive of
    [l2] (the template directory lies outside the repository). *)
Theorem template_skew_aborts (repo : path) (l1 : list Primitive) (p : Primitive)
        (l2 : list Primitive) (force : bool) (w w1 : world) (rel : string) :
  fs_wf (w_fs w) -> outside repo (TEMPLATE_DIR E) ->
  _apply_primitives repo l1 force w = (inr tt, w1) ->
  rel ∈ PRIMITIVE_FILES p -> path_exists (w_fs w1) (template_source E rel) = false ->
  exists e w2, _apply_primitives repo (l1 ++ p :: l2) force w = (inl e, w2) /\
    apply_primitive repo force p w1 = (inl e, w2).
Proof.
  intros Hwf Hout Hl1 Hin Hmiss.
  pose proof (apply_primitives_wf _ _ _ _ _ Hwf Hl1) as Hwf1.
  destruct (copy_files_abort repo force _ rel (add_event (EvOut (primitive_header p)) w1)
              Hwf1 Hout Hin Hmiss) as (e & w2 & Hfiles).
  assert (Hp : apply_primitive repo force p w1 = (inl e, w2)).
  { unfold apply_primitive, se_bind at 1, echo, modify. simpl. by rewrite (bind_inl _ _ _ _ _ Hfiles). }
  exists e, w2. split; [|done].
  rewrite apply_primitives_app, (bind_inr _ _ _ _ _ Hl1).
  change (_apply_primitives repo (p :: l2) force w1) with
    (se_bind (apply_primitive repo force p) (fun _ => _apply_primitives repo l2 force) w1).
  by rewrite (bind_inl _ _ _ _ _ Hp).
Qed.
(** C14: a failing hook installer is not fatal.  When the installer is an
    executable file, [_activate_hooks] always returns normally: it runs
    the installer once in the repository and prints the warning exactly
    when the exit code is nonzero. *)
Theorem activate_hooks_nonfatal (repo : path) (w : world) (d : list Byte.byte) (m : Z) :
  lookup_node (w_fs w) (install_hooks_script repo) = Some (File d m) -> can_exec m = true ->
  let argv := [path_str (install_hooks_script repo)] in
  let r := proc_run argv repo (w_fs w) in
  _activate_hooks repo w =
    (inr tt, mkWorld r.2 (w_out w ++ EvProc argv repo r.1 ::
                          (if decide (r.1 = 0%Z) then [] else [EvOut HOOK_WARNING]))).
Proof.
  intros Hl Hx. cbv zeta. unfold _activate_hooks.
  rewrite (bind_inr _ _ _ true w) by (unfold exists_at, path_exists; by rewrite Hl).
  cbn [negb]. unfold se_bind, spawn. rewrite Hl, Hx. cbn [fst snd].
  destruct (decide _); unfold ret, echo, modify, add_event; simpl; by rewrite <-?app_assoc.
Qed.
End apply.

(** ** Idempotence

    A hook installer that changes no file of the model (its effect, a git
    configuration entry, is outside what the wizard reads) is assumed for
    this group of lemmas; the exit code it returns is arbitrary. *)

Section idempotence.
Context `{Process} (E : env).
Hypothesis proc_pure : forall argv cwd fs, (proc_run argv cwd fs).2 = fs.

(** Every file of [p] has its template and its target. *)
Definition settled (repo : path) (fs : fsys) (p : Primitive) : Prop :=
  forall rel, rel ∈ PRIMITIVE_FILES p ->
    path_exists fs (template_source E rel) = true /\
    path_exists fs (join_path repo rel) = true.

(** The installer exists and can be executed. *)
Definition hooks_ready (repo : path) (fs : fsys) : Prop :=
  exists d m, lookup_node fs (install_hooks_script repo) = Some (File d m) /\
              can_exec m = true.

(** The exit code the installer gives on [fs]. *)
Definition hook_code (repo : path) (fs : fsys) : Z :=
  (proc_run [path_str (install_hooks_script repo)] repo fs).1.

(** The output of a run in which every file is skipped. *)
Definition hook_trace (repo : path) (code : Z) : list event :=
  EvProc [path_str (install_hooks_script repo)] repo code ::
  (if decide (code = 0%Z) then [] else [EvOut HOOK_WARNING]).

Definition primitive_skip_trace (repo : path) (code : Z) (p : Primitive) : list event :=
  EvOut (primitive_header p) ::
  map (fun rel => EvOut (file_line "skip " rel)) (PRIMITIVE_FILES p) ++
  (if decide (p = hooks) then hook_trace repo code else []).

Definition skip_trace (repo : path) (code : Z) (primitives : list Primitive) : list event :=
  flat_map (primitive_skip_trace repo code) primitives.

Lemma settled_grows (repo : path) (fs fs' : fsys) p :
  fs_grows fs fs' -> settled repo fs p -> settled repo fs' p.
Proof. intros Hg Hs rel Hrel. destruct (Hs rel Hrel). split; by apply Hg. Qed.

Lemma install_is_executable (repo : path) (rel : string) :
  is_executable_path (install_hooks_script repo) rel = true.
Proof.
  unfold is_executable_path, path_name, install_hooks_script.
  rewrite last_app. reflexivity.
Qed.

Lemma install_not_nil (repo : path) : install_hooks_script repo <> [].
Proof. unfold install_hooks_script. by destruct repo. Qed.

(** Materialising any file keeps the installer ready: it is another file
    and untouched, or it is rewritten with mode 0o755. *)
Lemma copy_template_ready (rel : string) (repo : path) (force : bool) (w w' : world) (s : string) :
  fs_wf (w_fs w) -> _copy_template E rel repo force w = (inr s, w') ->
  hooks_ready repo (w_fs w) -> hooks_ready repo (w_fs w').
Proof.
  intros Hwf Hrun (d & m & Hl & Hx).
  destruct (copy_template_cases _ _ _ _ _ _ _ Hwf Hrun)
    as (_ & _ & _ & [(_ & _ & _ & ->)|(_ & _ & d' & _ & Ht & Hfr)]); [by exists d, m|].
  rewrite lookup_node_nonempty in Hl by apply install_not_nil.
  destruct (decide (install_hooks_script repo = join_path repo rel)) as [Heq|Hne].
  - exists d', EXEC_MODE. rewrite lookup_node_nonempty by apply install_not_nil.
    rewrite Heq, Ht. unfold written_mode. by rewrite <-Heq, install_is_executable.
  - exists d, m. rewrite lookup_node_nonempty by apply install_not_nil.
    destruct (Hfr _ Hne) as [->|(Hn & _)]; [done|]. by rewrite Hn in Hl.
Qed.

Lemma copy_files_ready (repo : path) (force : bool) (rels : list string) (w w' : world) :
  fs_wf (w_fs w) -> for_ rels (copy_step E repo force) w = (inr tt, w') ->
  hooks_ready repo (w_fs w) -> hooks_ready repo (w_fs w').
Proof.
  revert w. induction rels as [|rel rels IH]; intros w Hwf Hrun Hr.
  - by injection Hrun as <-.
  - apply for_cons_inr in Hrun as (w1 & Hstep & Hrest).
    apply copy_step_inv in Hstep as (s & w0 & Hcopy & ->).
    destruct (copy_template_grows _ _ _ _ _ _ _ Hwf Hcopy) as (Hwf0 & _).
    apply (IH (add_event _ w0) Hwf0 Hrest). exact (copy_template_ready _ _ _ _ _ _ Hwf Hcopy Hr).
Qed.

(** With a pure installer, activation leaves the file system as it is,
    and when it ran, the installer was ready. *)
Lemma activate_hooks_pure (repo : path) (w w' : world) :
  _activate_hooks repo w = (inr tt, w') ->
  w_fs w' = w_fs w /\
  (path_exists (w_fs w) (install_hooks_script repo) = true -> hooks_ready repo (w_fs w)).
Proof.
  unfold _activate_hooks, se_bind, exists_at, ret. simpl.
  destruct (path_exists _ _) eqn:Hex; simpl; [|by intros [= <-]].
  unfold spawn. destruct (lookup_node _ _) as [[d m|]|] eqn:Hl; try done.
  destruct (can_exec m) eqn:Hx; [|done]. simpl. rewrite proc_pure.
  destruct (decide _); unfold echo, modify, add_event, ret; simpl; intros [= <-];
    simpl; (split; [done | intros _; by exists d, m]).
Qed.

(** The first run: after a completed batch every primitive of it is
    settled, and the installer is ready if [hooks] was among them. *)
Lemma apply_primitive_settles (repo : path) (force : bool) (p : Primitive) (w w' : world) :
  fs_wf (w_fs w) -> apply_primitive E repo force p w = (inr tt, w') ->
  fs_wf (w_fs w') /\ fs_grows (w_fs w) (w_fs w') /\ settled repo (w_fs w') p /\
  (hooks_ready repo (w_fs w) -> hooks_ready repo (w_fs w')) /\
  (p = hooks -> hooks_ready repo (w_fs w')).
Proof.
  intros Hwf (w1 & Hfiles & Hact)%apply_primitive_inv.
  destruct (copy_files_spec E repo force _ (add_event _ w) w1 Hwf Hfiles) as (Hwf1 & Hg1 & Hall & _).
  pose proof (copy_files_ready repo force _ (add_event _ w) w1 Hwf Hfiles) as Hr1.
  assert (Hset : settled repo (w_fs w1) p) by (intros rel Hrel; destruct (Hall rel Hrel); done).
  destruct (decide (p = hooks)) as [->|Hne].
  - destruct (activate_hooks_pure _ _ _ Hact) as [-> Hready].
    split_and!; try done. intros _. apply Hready.
    destruct (install_hooks_in_catalog repo) as [<- Hin]. by apply Hset.
  - injection Hact as <-. split_and!; done.
Qed.

Lemma apply_primitives_settles (repo : path) (force : bool) (primitives : list Primitive)
      (w w' : world) :
  fs_wf (w_fs w) -> _apply_primitives E repo primitives force w = (inr tt, w') ->
  fs_wf (w_fs w') /\ fs_grows (w_fs w) (w_fs w') /\
  (forall p, p ∈ primitives -> settled repo (w_fs w') p) /\
  (hooks_ready repo (w_fs w) -> hooks_ready repo (w_fs w')) /\
  (hooks ∈ primitives -> hooks_ready repo (w_fs w')).
Proof.
  revert w. induction primitives as [|p ps IH]; intros w Hwf Hrun.
  - injection Hrun as <-. split_and!; auto with wiz;
      (first [intros ? Hin | intros Hin]); by apply not_elem_of_nil in Hin.
  - apply for_cons_inr in Hrun as (w1 & Hp & Hrest).
    destruct (apply_primitive_settles _ _ _ _ _ Hwf Hp) as (Hwf1 & Hg1 & Hs1 & Hr1 & Hh1).
    destruct (IH _ Hwf1 Hrest) as (Hwf' & Hg' & Hs' & Hr' & Hh').
    split_and!; eauto with wiz.
    + intros q [->|Hq]%elem_of_cons; [|by apply Hs']. by apply (settled_grows _ (w_fs w1)).
    + intros [Heq|Hq]%elem_of_cons; [apply Hr', Hh1; by subst | auto].
Qed.

(** The second run, from a settled world: nothing is written. *)
Lemma copy_files_settled (repo : path) (rels : list string) (w : world) :
  fs_wf (w_fs w) ->
  (forall rel, rel ∈ rels -> path_exists (w_fs w) (template_source E rel) = true /\
                             path_exists (w_fs w) (join_path repo rel) = true) ->
  for_ rels (copy_step E repo false) w =
    (inr tt, add_events (map (fun rel => EvOut (file_line "skip " rel)) rels) w).
Proof.
  revert w. induction rels as [|rel rels IH]; intros w Hwf Hall; simpl.
  - unfold add_events. rewrite app_nil_r. by destruct w.
  - destruct (Hall rel) as [Hs Ht]; [by apply elem_of_cons; left|].
    unfold se_bind at 1, copy_step. rewrite (bind_inr _ _ _ _ _ (copy_template_skips E _ _ _ Hwf Hs Ht)).
    unfold echo, modify. simpl. rewrite IH; [by rewrite add_events_cons | done |].
    intros r Hr. apply Hall. by apply elem_of_cons; right.
Qed.

Lemma activate_hooks_ready (repo : path) (w : world) :
  hooks_ready repo (w_fs w) ->
  _activate_hooks repo w = (inr tt, add_events (hook_trace repo (hook_code repo (w_fs w))) w).
Proof.
  intros (d & m & Hl & Hx). unfold _activate_hooks.
  rewrite (bind_inr _ _ _ true w) by (unfold exists_at, path_exists; by rewrite Hl).
  simpl. set (code := hook_code repo (w_fs w)).
  rewrite (bind_inr _ _ _ code (add_event (EvProc [path_str (install_hooks_script repo)] repo code) w)).
  2:{ unfold spawn. rewrite Hl, Hx. unfold add_event, code, hook_code. simpl. by rewrite proc_pure. }
  unfold hook_trace. destruct (decide (code = 0%Z)); unfold ret, echo, modify, add_event, add_events;
    simpl; rewrite <-?app_assoc; reflexivity.
Qed.

Lemma apply_primitive_settled (repo : path) (p : Primitive) (w : world) :
  fs_wf (w_fs w) -> settled repo (w_fs w) p -> (p = hooks -> hooks_ready repo (w_fs w)) ->
  apply_primitive E repo false p w =
    (inr tt, add_events (primitive_skip_trace repo (hook_code repo (w_fs w)) p) w).
Proof.
  intros Hwf Hset Hready. unfold apply_primitive.
  rewrite (bind_inr _ _ _ tt (add_event (EvOut (primitive_header p)) w)) by reflexivity.
  rewrite (bind_inr _ _ _ _ _
             (copy_files_settled repo _ (add_event (EvOut (primitive_header p)) w) Hwf Hset)).
  unfold primitive_skip_trace. destruct (decide (p = hooks)) as [->|Hne].
  - rewrite activate_hooks_ready by auto. unfold add_events. simpl. by rewrite <-!app_assoc.
  - unfold ret, add_events. simpl. by rewrite <-!app_assoc, app_nil_r.
Qed.

Lemma apply_primitives_settled (repo : path) (primitives : list Primitive) (w : world) :
  fs_wf (w_fs w) -> (forall p, p ∈ primitives -> settled repo (w_fs w) p) ->
  (hooks ∈ primitives -> hooks_ready repo (w_fs w)) ->
  _apply_primitives E repo primitives false w =
    (inr tt, add_events (skip_trace repo (hook_code repo (w_fs w)) primitives) w).
Proof.
  revert w. induction primitives as [|p ps IH]; intros w Hwf Hset Hready.
  - unfold add_events. simpl. rewrite app_nil_r. by destruct w.
  - unfold _apply_primitives. cbn [for_]. fold (_apply_primitives E repo ps false).
    assert (Hp : p = hooks -> hooks_ready repo (w_fs w)).
    { intros ->. apply Hready. by apply elem_of_cons; left. }
    rewrite (bind_inr _ _ _ _ _ (apply_primitive_settled _ _ _ Hwf (Hset p ltac:(by apply elem_of_cons; left)) Hp)).
    rewrite IH; simpl; [by rewrite add_events_app | done | |].
    + intros q Hq. apply Hset. by apply elem_of_cons; right.
    + intros Hq. apply Hready. by apply elem_of_cons; right.
Qed.

(** C1: idempotence.  After any batch completes (with or without [force]),
    running the same batch again without [force] completes, leaves the
    file system exactly as it was, and prints [skip] for every file: the
    output is the header, a skip line per file, and the installer's run
    for each [hooks]. *)
Theorem apply_primitives_idempotent (repo : path) (primitives : list Primitive)
        (force : bool) (w w1 : world) :
  fs_wf (w_fs w) ->
  _apply_primitives E repo primitives force w = (inr tt, w1) ->
  _apply_primitives E repo primitives false w1 =
    (inr tt, add_events (skip_trace repo (hook_code repo (w_fs w1)) primitives) w1).
Proof.
  intros Hwf Hrun.
  destruct (apply_primitives_settles _ _ _ _ _ Hwf Hrun) as (Hwf1 & _ & Hset & _ & Hready).
  by apply apply_primitives_settled.
Qed.

(** ** Overwriting with [force] *)

(** Different catalog paths name different files of the repository. *)
Lemma catalog_parts_NoDup :
  NoDup (map path_parts (primitives_files all_primitives)).
Proof. apply (bool_decide_unpack _). by vm_compute. Qed.

Definition catalog_file (rel : string) : Prop := rel ∈ primitives_files all_primitives.

Lemma catalog_parts_nonempty (rel : string) :
  catalog_file rel -> path_parts rel <> [].
Proof.
  unfold catalog_file. revert rel. apply Forall_forall.
  apply (bool_decide_unpack _). by vm_compute.
Qed.

Lemma catalog_file_of (p : Primitive) (rel : string) :
  rel ∈ PRIMITIVE_FILES p -> catalog_file rel.
Proof.
  intros Hin. apply list_elem_of_In, in_flat_map. exists p.
  split; [apply all_primitives_complete | by apply list_elem_of_In].
Qed.

Lemma catalog_target_inj (repo : path) (r r' : string) :
  catalog_file r -> catalog_file r' -> join_path repo r = join_path repo r' -> r = r'.
Proof.
  intros Hr Hr' Heq. apply app_inv_head in Heq.
  pose proof catalog_parts_NoDup as Hnd.
  apply list_elem_of_lookup in Hr as [i Hi]. apply list_elem_of_lookup in Hr' as [j Hj].
  assert (i = j) as <-.
  { eapply NoDup_lookup; [exact Hnd | by rewrite list_lookup_fmap, Hi |].
    by rewrite list_lookup_fmap, Hj, Heq. }
  congruence.
Qed.

(** The target of [rel] holds the bytes the template had in [fs0]. *)
Definition has_template_bytes (fs0 fs : fsys) (repo : path) (rel : string) : Prop :=
  exists d m, read_bytes fs0 (template_source E rel) = inr d /\
              fs !! join_path repo rel = Some (File d m).

(** What a batch with [force] keeps invariant: the paths outside the
    repository are those of [fs0], and every catalog file already
    materialised holds its template's bytes. *)
Definition force_inv (fs0 fs : fsys) (repo : path) (done_files : list string) : Prop :=
  (forall q, outside repo q -> fs !! q = fs0 !! q) /\
  (forall rel, rel ∈ done_files -> has_template_bytes fs0 fs repo rel).

Lemma copy_template_force_inv (fs0 : fsys) (repo : path) (done_files : list string)
      (rel : string) (w w' : world) (s : string) :
  fs_wf (w_fs w) -> outside repo (TEMPLATE_DIR E) ->
  catalog_file rel -> (forall r, r ∈ done_files -> catalog_file r) ->
  force_inv fs0 (w_fs w) repo done_files ->
  _copy_template E rel repo true w = (inr s, w') ->
  force_inv fs0 (w_fs w') repo (rel :: done_files).
Proof.
  intros Hwf Hout Hcat Hdone [Hq Hhas] Hrun. split.
  - intros q Hoq. rewrite <-(Hq q Hoq). by eapply copy_template_outside.
  - destruct (copy_template_cases _ _ _ _ _ _ _ Hwf Hrun)
      as (_ & _ & _ & [(_ & [=] & _)|(_ & _ & d & Hr & Ht & Hfr)]).
    rewrite (read_bytes_same fs0) in Hr.
    2:{ apply Hq. by apply outside_app. }
    intros r [->|Hr']%elem_of_cons; [by eexists d, _|].
    destruct (Hhas r Hr') as (d' & m' & Hd' & Hl').
    destruct (decide (join_path repo r = join_path repo rel)) as [Heq|Hne].
    + apply catalog_target_inj in Heq as ->; [by eexists d, _ | by apply Hdone | done].
    + exists d', m'. split; [done|]. destruct (Hfr _ Hne) as [->|(Hn & _)]; [done|].
      by rewrite Hn in Hl'.
Qed.

Lemma force_inv_sub (fs0 fs : fsys) (repo : path) (l l' : list string) :
  force_inv fs0 fs repo l -> (forall x, x ∈ l' -> x ∈ l) -> force_inv fs0 fs repo l'.
Proof. intros [Hq Hh] Hsub. split; [done|]. intros r Hr. by apply Hh, Hsub. Qed.

Lemma copy_files_force_inv (fs0 : fsys) (repo : path) (done_files rels : list string)
      (w w' : world) :
  fs_wf (w_fs w) -> outside repo (TEMPLATE_DIR E) ->
  (forall r, r ∈ rels ++ done_files -> catalog_file r) ->
  force_inv fs0 (w_fs w) repo done_files ->
  for_ rels (copy_step E repo true) w = (inr tt, w') ->
  force_inv fs0 (w_fs w') repo (rels ++ done_files).
Proof.
  revert w done_files. induction rels as [|rel rels IH]; intros w done_files Hwf Hout Hcat Hinv Hrun.
  - by injection Hrun as <-.
  - apply for_cons_inr in Hrun as (w1 & Hstep & Hrest).
    apply copy_step_inv in Hstep as (s & w0 & Hcopy & ->).
    destruct (copy_template_grows _ _ _ _ _ _ _ Hwf Hcopy) as (Hwf0 & _).
    assert (Hinv0 := copy_template_force_inv fs0 repo done_files rel w w0 s Hwf Hout
                       ltac:(apply Hcat; set_solver) ltac:(intros; apply Hcat; set_solver) Hinv Hcopy).
    eapply force_inv_sub.
    + apply (IH (add_event (EvOut (file_line (copy_label s) rel)) w0) (rel :: done_files));
        [exact Hwf0 | exact Hout | | exact Hinv0 | exact Hrest].
      intros r Hr. apply Hcat. set_solver.
    + intros x. set_solver.
Qed.

Lemma apply_primitives_force_inv (fs0 : fsys) (repo : path) (primitives : list Primitive)
      (done_files : list string) (w w' : world) :
  fs_wf (w_fs w) -> outside repo (TEMPLATE_DIR E) ->
  (forall r, r ∈ done_files -> catalog_file r) ->
  force_inv fs0 (w_fs w) repo done_files ->
  _apply_primitives E repo primitives true w = (inr tt, w') ->
  force_inv fs0 (w_fs w') repo (primitives_files primitives ++ done_files).
Proof.
  revert w done_files. induction primitives as [|p ps IH]; intros w done_files Hwf Hout Hcat Hinv Hrun.
  - by injection Hrun as <-.
  - apply for_cons_inr in Hrun as (w1 & Hp & Hrest).
    destruct (apply_primitive_procs _ _ _ _ _ _ Hwf Hp) as (Hwf1 & _).
    apply apply_primitive_inv in Hp as (w2 & Hfiles & Hact).
    assert (Hcatp : forall r, r ∈ PRIMITIVE_FILES p ++ done_files -> catalog_file r).
    { intros r [Hr|Hr]%elem_of_app; [by eapply catalog_file_of | by apply Hcat]. }
    assert (Hinv2 := copy_files_force_inv fs0 repo done_files _ (add_event _ w) w2 Hwf Hout Hcatp Hinv Hfiles).
    assert (Hfs : w_fs w1 = w_fs w2).
    { destruct (decide (p = hooks)); [by apply activate_hooks_pure in Hact as [-> _] | by injection Hact as <-]. }
    rewrite <-Hfs in Hinv2.
    eapply force_inv_sub.
    + apply (IH w1 (PRIMITIVE_FILES p ++ done_files)); [exact Hwf1 | exact Hout | | exact Hinv2 | exact Hrest].
      intros r Hr. by apply Hcatp.
    + intros x. unfold primitives_files. simpl. set_solver.
Qed.

(** C2: [--force] overwrites.  After a batch with [force] completes, the
    target of every file of every primitive in it holds exactly the bytes
    its template had before the run, whatever the target held before
    (the template directory lies outside the repository). *)
Theorem apply_primitives_force (repo : path) (primitives : list Primitive) (w w1 : world) :
  fs_wf (w_fs w) -> outside repo (TEMPLATE_DIR E) ->
  _apply_primitives E repo primitives true w = (inr tt, w1) ->
  forall p rel, p ∈ primitives -> rel ∈ PRIMITIVE_FILES p ->
  exists d m, read_bytes (w_fs w) (template_source E rel) = inr d /\
              w_fs w1 !! join_path repo rel = Some (File d m).
Proof.
  intros Hwf Hout Hrun p rel Hp Hrel.
  destruct (apply_primitives_force_inv (w_fs w) repo primitives [] w w1 Hwf Hout
              ltac:(set_solver) ltac:(split; [done | set_solver]) Hrun) as [_ Hhas].
  apply Hhas. rewrite app_nil_r. apply list_elem_of_In, in_flat_map.
  exists p. split; by apply list_elem_of_In.
Qed.
End idempotence.

Section permission.
Context `{Process} (E : env).

(** C15: a hook installer that is present but not executable aborts the
    batch.  When every file of [hooks] is already in place and
    [scripts/control/install_hooks.sh] is a file without the execute bit,
    a run without [--force] skips the three files and then fails with
    [PermissionError] (an [OSError] with [EACCES]) from [subprocess.run]:
    the primitives after [hooks] are never applied, although hook
    activation is meant to be non-fatal. *)
Theorem hooks_not_executable_aborts (repo : path) (rest : list Primitive) (w : world)
        (d : list Byte.byte) (m : Z) :
  fs_wf (w_fs w) -> settled E repo (w_fs w) hooks ->
  lookup_node (w_fs w) (install_hooks_script repo) = Some (File d m) -> can_exec m = false ->
  _apply_primitives E repo (hooks :: rest) false w =
    (inl (OSError EACCES),
     add_events (EvOut (primitive_header hooks) ::
                 map (fun rel => EvOut (file_line "skip " rel)) (PRIMITIVE_FILES hooks)) w).
Proof.
  intros Hwf Hset Hl Hx. unfold _apply_primitives. cbn [for_].
  apply bind_inl. unfold apply_primitive. rewrite bind_echo.
  rewrite (bind_inr _ _ _ _ _ (copy_files_settled E repo _ (add_events [EvOut (primitive_header hooks)] w) Hwf Hset)).
  rewrite decide_True by done. rewrite add_events_app. unfold _activate_hooks.
  rewrite (bind_inr _ _ _ true (add_events ([EvOut (primitive_header hooks)] ++ map (fun rel => EvOut (file_line "skip " rel)) (PRIMITIVE_FILES hooks)) w)) by (unfold exists_at, path_exists; cbn [w_fs add_events]; by rewrite Hl).
  cbn [negb]. apply bind_inl. unfold spawn. cbn [w_fs add_events]. by rewrite Hl, Hx.
Qed.

End permission.

(** ** Witnesses on the fixture *)

Lemma apply_primitives_hook_runs_witness :
  fs_wf (w_fs w0) /\ exists w',
  @_apply_primitives proc_fail E0 repo0 [hooks; policy; hooks] false w0 = (inr tt, w') /\
  exists new, w_out w' = w_out w0 ++ new /\
    count_procs new = count_occ (decide_rel eq) [hooks; policy; hooks] hooks.
Proof.
  split; [exact fs0_wf|].
  set (run := @_apply_primitives proc_fail E0 repo0 [hooks; policy; hooks] false w0).
  assert (Hr : run = (inr tt, run.2)) by (apply run_result; vm_compute; reflexivity).
  exists run.2. split; [exact Hr|].
  exact (@apply_primitives_hook_runs proc_fail E0 repo0 _ false w0 run.2 fs0_wf Hr).
Defined.

Lemma apply_primitives_idempotent_witness :
  (forall argv cwd fs, (@proc_run proc_fail argv cwd fs).2 = fs) /\ fs_wf (w_fs w0) /\
  exists w1,
    @_apply_primitives proc_fail E0 repo0 [policy; hooks] true w0 = (inr tt, w1) /\
    @_apply_primitives proc_fail E0 repo0 [policy; hooks] false w1 =
      (inr tt, add_events (skip_trace repo0 (@hook_code proc_fail repo0 (w_fs w1))
                                      [policy; hooks]) w1).
Proof.
  assert (Hpure : forall argv cwd fs, (@proc_run proc_fail argv cwd fs).2 = fs) by done.
  split; [exact Hpure|]. split; [exact fs0_wf|].
  set (run := @_apply_primitives proc_fail E0 repo0 [policy; hooks] true w0).
  assert (Hr : run = (inr tt, run.2)) by (apply run_result; vm_compute; reflexivity).
  exists run.2. split; [exact Hr|].
  exact (@apply_primitives_idempotent proc_fail E0 Hpure repo0 _ true w0 run.2 fs0_wf Hr).
Defined.

(** A repository whose [.control/policy.yaml] was edited by hand. *)
Definition w_edited : world :=
  mkWorld (add_node fs0 (repo0 ++ [".control"; "policy.yaml"]) (File [Byte.x00] 420)) [].

Lemma apply_primitives_force_witness :
  (forall argv cwd fs, (@proc_run proc_ok argv cwd fs).2 = fs) /\ fs_wf (w_fs w_edited) /\
  outside repo0 (TEMPLATE_DIR E0) /\
  exists w1,
    @_apply_primitives proc_ok E0 repo0 [policy; hooks] true w_edited = (inr tt, w1) /\
    forall p rel, p ∈ [policy; hooks] -> rel ∈ PRIMITIVE_FILES p ->
    exists d m, read_bytes (w_fs w_edited) (template_source E0 rel) = inr d /\
                w_fs w1 !! join_path repo0 rel = Some (File d m).
Proof.
  assert (Hpure : forall argv cwd fs, (@proc_run proc_ok argv cwd fs).2 = fs) by done.
  assert (Hwf : fs_wf (w_fs w_edited)) by (apply fs_wf_b_sound; vm_compute; reflexivity).
  assert (Hout : outside repo0 (TEMPLATE_DIR E0)).
  { split; apply (bool_decide_unpack _); vm_compute; reflexivity. }
  split; [exact Hpure|]. split; [exact Hwf|]. split; [exact Hout|].
  set (run := @_apply_primitives proc_ok E0 repo0 [policy; hooks] true w_edited).
  assert (Hr : run = (inr tt, run.2)) by (apply run_result; vm_compute; reflexivity).
  exists run.2. split; [exact Hr|].
  exact (@apply_primitives_force proc_ok E0 Hpure repo0 _ w_edited run.2 Hwf Hout Hr).
Defined.

(** An installation whose template for [scripts/control/recover.sh] is
    missing. *)
Definition w_skew : world :=
  mkWorld (delete (template_root ++ path_parts "scripts/control/recover.sh") fs0) [].

Lemma template_skew_aborts_witness :
  fs_wf (w_fs w_skew) /\ outside repo0 (TEMPLATE_DIR E0) /\
  exists w1,
    @_apply_primitives proc_ok E0 repo0 [policy] false w_skew = (inr tt, w1) /\
    "scripts/control/recover.sh" ∈ PRIMITIVE_FILES recovery /\
    path_exists (w_fs w1) (template_source E0 "scripts/control/recover.sh") = false /\
    exists e w2,
      @_apply_primitives proc_ok E0 repo0 ([policy] ++ recovery :: [hooks]) false w_skew = (inl e, w2) /\
      @apply_primitive proc_ok E0 repo0 false recovery w1 = (inl e, w2).
Proof.
  assert (Hwf : fs_wf (w_fs w_skew)) by (apply fs_wf_b_sound; vm_compute; reflexivity).
  assert (Hout : outside repo0 (TEMPLATE_DIR E0)).
  { split; apply (bool_decide_unpack _); vm_compute; reflexivity. }
  split; [exact Hwf|]. split; [exact Hout|].
  assert (Hin : "scripts/control/recover.sh" ∈ PRIMITIVE_FILES recovery)
    by (apply elem_of_cons; by left).
  set (run := @_apply_primitives proc_ok E0 repo0 [policy] false w_skew).
  assert (Hr : run = (inr tt, run.2)) by (apply run_result; vm_compute; reflexivity).
  assert (Hmiss : path_exists (w_fs run.2) (template_source E0 "scripts/control/recover.sh") = false)
    by (vm_compute; reflexivity).
  exists run.2. split; [exact Hr|]. split; [exact Hin|]. split; [exact Hmiss|].
  exact (@template_skew_aborts proc_ok E0 repo0 [policy] recovery [hooks] false w_skew run.2
           "scripts/control/recover.sh" Hwf Hout Hr Hin Hmiss).
Defined.

(** The fixture with an executable installer in the repository. *)
Definition w_hook : world :=
  mkWorld (add_node fs0 (install_hooks_script repo0) (File [] 493)) [].

Lemma activate_hooks_nonfatal_witness :
  let argv := [path_str (install_hooks_script repo0)] in
  let r := @proc_run proc_fail argv repo0 (w_fs w_hook) in
  @_activate_hooks proc_fail repo0 w_hook =
    (inr tt, mkWorld r.2 (w_out w_hook ++ EvProc argv repo0 r.1 ::
                          (if decide (r.1 = 0%Z) then [] else [EvOut HOOK_WARNING]))).
Proof.
  apply (@activate_hooks_nonfatal proc_fail repo0 w_hook [] 493); [vm_compute; reflexivity | reflexivity].
Defined.

(** The fixture with the three files of [hooks] checked out in the
    repository with mode 0o644: the installer is not executable. *)
Definition w_noexec : world :=
  mkWorld (fold_left (fun fs rel => add_node fs (join_path repo0 rel) (File [] 420))
                     (PRIMITIVE_FILES hooks) fs0) [].

Lemma hooks_not_executable_aborts_witness :
  @_apply_primitives proc_ok E0 repo0 [hooks; recovery] false w_noexec =
    (inl (OSError EACCES),
     add_events (EvOut (primitive_header hooks) ::
                 map (fun rel => EvOut (file_line "skip " rel)) (PRIMITIVE_FILES hooks)) w_noexec).
Proof.
  apply (@hooks_not_executable_aborts proc_ok E0 repo0 [recovery] w_noexec [] 420).
  - apply fs_wf_b_sound. vm_compute. reflexivity.
  - unfold settled. apply Forall_forall, (bool_decide_unpack _). vm_compute. reflexivity.
  - vm_compute. reflexivity.
  - reflexivity.
Defined.

End Applier.
