(* ===== verification/Plan.v ===== *)
(** * Plan: the abstract batch of the specification and its refinement

    The specification describes a batch (its section 4.4) as an
    operation returning, for every primitive in order, the outcome of
    every file: [written] or [skipped], where a file is skipped exactly
    when it already exists and [force] is off.  [plan] computes those
    outcomes from the list of catalog paths present in the repository
    alone, updating that list as files are written; it knows nothing of
    templates, bytes, modes or processes.

    The refinement theorem: when a batch of [_apply_primitives] (lines
    156-164 of [control_wizard.py]) completes, the report lines it
    prints, once the hook installer's own events are set aside, are
    exactly the rendering of the plan computed from the repository
    before the run. *)

From S2P Require Import Prelude Catalog OS Fixture Materializer Applier.
Import Catalog Fixture Materializer Applier.

Module Plan.

(** The outcome of one file (the spec's [MaterializationOutcome]). *)
Inductive outcome_kind := Written | Skipped.

(** The label [_apply_primitives] prints for it (line 161). *)
Definition outcome_label (o : outcome_kind) : string :=
  match o with Written => "write" | Skipped => "skip " end.

(** The outcomes of a list of files, and the paths present afterwards. *)
Fixpoint plan_files (present : list string) (force : bool) (rels : list string)
  : list (string * outcome_kind) * list string :=
  match rels with
  | [] => ([], present)
  | rel :: rest =>
      let o := if negb force && bool_decide (rel ∈ present) then Skipped else Written in
      let r := plan_files (rel :: present) force rest in
      ((rel, o) :: r.1, r.2)
  end.

(** The outcomes of a batch, primitive by primitive. *)
Fixpoint plan (present : list string) (force : bool) (primitives : list Primitive)
  : list (Primitive * list (string * outcome_kind)) :=
  match primitives with
  | [] => []
  | p :: ps =>
      let r := plan_files present force (PRIMITIVE_FILES p) in
      (p, r.1) :: plan r.2 force ps
  end.

(** The report a plan stands for: a header per primitive, a line per file. *)
Definition render_plan (pl : list (Primitive * list (string * outcome_kind))) : list event :=
  flat_map (fun '(p, os) =>
              EvOut (primitive_header p) ::
              map (fun '(rel, o) => EvOut (file_line (outcome_label o) rel)) os) pl.

(** The events of the hook installer: its run and its warning. *)
Definition hook_event (ev : event) : bool :=
  match ev with
  | EvProc _ _ _ => true
  | EvOut s => bool_decide (s = HOOK_WARNING)
  | EvErr _ => false
  end.

Definition report_events (evs : list event) : list event :=
  filter (fun ev => hook_event ev = false) evs.

(** The catalog paths present in a repository. *)
Definition present_paths (fs : fsys) (repo : path) : list string :=
  filter (fun rel => path_exists fs (join_path repo rel) = true) (primitives_files all_primitives).

(** The abstraction: [present] lists exactly the catalog paths present. *)
Definition present_inv (fs : fsys) (repo : path) (present : list string) : Prop :=
  forall rel, catalog_file rel -> path_exists fs (join_path repo rel) = true <-> rel ∈ present.

(** ** Lemmas *)

(** No catalog path lies on the way to another one: creating the parents
    of one catalog file never creates another. *)
Lemma catalog_prefix_free (r r' : string) :
  catalog_file r -> catalog_file r' -> ~ path_parts r' `prefix_of` removelast (path_parts r).
Proof.
  intros Hr Hr'.
  assert (Hall : Forall (fun r => Forall (fun r' => ~ path_parts r' `prefix_of` removelast (path_parts r))
                                         (primitives_files all_primitives))
                        (primitives_files all_primitives))
    by (apply (bool_decide_unpack _); by vm_compute).
  rewrite Forall_forall in Hall. specialize (Hall r Hr). rewrite Forall_forall in Hall. by apply Hall.
Qed.

Lemma present_paths_inv (fs : fsys) (repo : path) : present_inv fs repo (present_paths fs repo).
Proof.
  intros rel Hrel. unfold present_paths. rewrite list_elem_of_filter. naive_solver.
Qed.

Lemma report_events_app (l1 l2 : list event) :
  report_events (l1 ++ l2) = report_events l1 ++ report_events l2.
Proof. apply filter_app. Qed.

Lemma report_events_cons (ev : event) (l : list event) :
  report_events (ev :: l) = report_events [ev] ++ report_events l.
Proof. exact (report_events_app [ev] l). Qed.

Lemma report_file_line (o : outcome_kind) (rel : string) :
  report_events [EvOut (file_line (outcome_label o) rel)] = [EvOut (file_line (outcome_label o) rel)].
Proof.
  unfold report_events. rewrite filter_cons_True; [done|]. simpl.
  rewrite bool_decide_false; [done|].
  destruct o; cbv [file_line outcome_label HOOK_WARNING String.append]; discriminate.
Qed.

Lemma report_header (p : Primitive) :
  report_events [EvOut (primitive_header p)] = [EvOut (primitive_header p)].
Proof.
  unfold report_events. rewrite filter_cons_True; [done|]. simpl.
  done.
Qed.

Lemma report_file_lines (os : list (string * outcome_kind)) :
  report_events (map (fun '(rel, o) => EvOut (file_line (outcome_label o) rel)) os) =
  map (fun '(rel, o) => EvOut (file_line (outcome_label o) rel)) os.
Proof.
  induction os as [|[rel o] os IH]; [done|].
  by rewrite map_cons, report_events_cons, report_file_line, IH.
Qed.

Section refinement.
Context `{Process} (E : env) (repo : path).
Hypothesis proc_pure : forall argv cwd fs, (proc_run argv cwd fs).2 = fs.

(** One file: the printed label is the plan's, and the abstraction is
    kept with the file now present. *)
Lemma copy_step_plan (force : bool) (rel : string) (present : list string) (w w' : world) :
  fs_wf (w_fs w) -> catalog_file rel -> present_inv (w_fs w) repo present ->
  copy_step E repo force rel w = (inr tt, w') ->
  let o := if negb force && bool_decide (rel ∈ present) then Skipped else Written in
  fs_wf (w_fs w') /\ w_out w' = w_out w ++ [EvOut (file_line (outcome_label o) rel)] /\
  present_inv (w_fs w') repo (rel :: present).
Proof.
  intros Hwf Hcat Hinv (s & w1 & Hc & ->)%copy_step_inv.
  destruct (copy_template_cases E _ _ _ _ _ _ Hwf Hc)
    as (Hwf1 & Hout & _ & [(-> & -> & Hex & Hfs)|(-> & Hf & d & _ & Ht & Hfr)]);
    (split; [done|]); unfold add_event; simpl; rewrite Hout.
  - apply Hinv in Hex; [|done]. rewrite bool_decide_true by done. simpl.
    split; [done|]. intros r Hr. rewrite Hfs, (Hinv r Hr), elem_of_cons. naive_solver.
  - assert (Hw : (if negb force && bool_decide (rel ∈ present) then Skipped else Written) = Written).
    { destruct Hf as [->|Hn]; [done|]. rewrite bool_decide_false; [by destruct force|].
      intros Hin. apply Hinv in Hin; [congruence|done]. }
    rewrite Hw. split; [done|]. intros r Hr. rewrite elem_of_cons, <-(Hinv r Hr).
    destruct (decide (r = rel)) as [->|Hne].
    + unfold path_exists. rewrite lookup_node_nonempty, Ht;
        [naive_solver | unfold join_path; intros [_ ?]%app_eq_nil; by eapply catalog_parts_nonempty].
    + assert (Hq : join_path repo r <> join_path repo rel)
        by (intros Heq; by apply Hne, (catalog_target_inj repo)).
      assert (Hnn : join_path repo r <> [])
        by (unfold join_path; intros [_ ?]%app_eq_nil; by eapply catalog_parts_nonempty).
      unfold path_exists. rewrite !lookup_node_nonempty by done.
      destruct (Hfr _ Hq) as [->|(_ & _ & Hp)]; [naive_solver|].
      exfalso. unfold join_path in Hp. unfold parent in Hp.
      rewrite removelast_app in Hp by (by eapply catalog_parts_nonempty).
      apply prefix_app_inv in Hp. by apply (catalog_prefix_free rel r).
Qed.

Lemma copy_files_plan (force : bool) (rels : list string) (present : list string) (w w' : world) :
  fs_wf (w_fs w) -> (forall rel, rel ∈ rels -> catalog_file rel) ->
  present_inv (w_fs w) repo present ->
  for_ rels (copy_step E repo force) w = (inr tt, w') ->
  let r := plan_files present force rels in
  fs_wf (w_fs w') /\
  w_out w' = w_out w ++ map (fun '(rel, o) => EvOut (file_line (outcome_label o) rel)) r.1 /\
  present_inv (w_fs w') repo r.2.
Proof.
  revert present w. induction rels as [|rel rels IH]; intros present w Hwf Hcat Hinv Hrun; simpl.
  - injection Hrun as <-. by rewrite app_nil_r.
  - apply for_cons_inr in Hrun as (w1 & Hstep & Hrest).
    destruct (copy_step_plan _ _ _ _ _ Hwf (Hcat rel ltac:(by apply elem_of_cons; left)) Hinv Hstep) as (Hwf1 & Hout1 & Hinv1).
    destruct (IH _ _ Hwf1 (fun r Hr => Hcat r ltac:(by apply elem_of_cons; right)) Hinv1 Hrest) as (Hwf' & Hout' & Hinv').
    split_and!; [done| |done]. rewrite Hout', Hout1, <-app_assoc. done.
Qed.

(** The installer's activation prints only installer events and, with a
    pure installer, changes no file. *)
Lemma activate_hooks_report (w w' : world) :
  _activate_hooks repo w = (inr tt, w') ->
  w_fs w' = w_fs w /\ exists new, w_out w' = w_out w ++ new /\ report_events new = [].
Proof.
  unfold _activate_hooks, se_bind, exists_at, ret. simpl.
  destruct (path_exists _ _); simpl; [|intros [= <-]; split; [done|]; exists []; by rewrite app_nil_r].
  unfold spawn. destruct (lookup_node _ _) as [[d m|]|]; try done.
  destruct (can_exec m); [|done]. simpl. rewrite proc_pure.
  destruct (decide _); unfold echo, modify, add_event, ret; simpl; intros [= <-]; (split; [done|]).
  - eexists. split; [done|]. reflexivity.
  - eexists. rewrite <-app_assoc. split; [done|]. unfold report_events. simpl.
    by rewrite ?bool_decide_true.
Qed.

(** C11: refinement of the abstract batch.  When a batch completes (with a
    hook installer that changes no file), the lines it prints other than
    the installer's own events are exactly the report of [plan] computed
    from the catalog paths present before the run: a header per
    primitive and, per file, [skip ] when the path was present and
    [force] off, [write] otherwise, a path written earlier in the batch
    counting as present. *)
Theorem apply_primitives_refines_plan (primitives : list Primitive) (force : bool) (w w' : world) :
  fs_wf (w_fs w) ->
  _apply_primitives E repo primitives force w = (inr tt, w') ->
  exists new, w_out w' = w_out w ++ new /\
    report_events new = render_plan (plan (present_paths (w_fs w) repo) force primitives).
Proof.
  intros Hwf. generalize (present_paths_inv (w_fs w) repo).
  generalize (present_paths (w_fs w) repo). intros present Hinv Hrun.
  revert present w Hwf Hinv Hrun. induction primitives as [|p ps IH]; intros present w Hwf Hinv Hrun.
  - injection Hrun as <-. exists []. by rewrite app_nil_r.
  - apply for_cons_inr in Hrun as (w1 & Hp & Hrest).
    apply apply_primitive_inv in Hp as (w2 & Hfiles & Hact).
    destruct (copy_files_plan force _ present (add_event (EvOut (primitive_header p)) w) _ Hwf (catalog_file_of p) Hinv Hfiles)
      as (Hwf2 & Hout2 & Hinv2).
    assert (Hw1 : w_fs w1 = w_fs w2 /\ exists new, w_out w1 = w_out w2 ++ new /\ report_events new = []).
    { destruct (decide (p = hooks)); [by apply activate_hooks_report|].
      injection Hact as <-. split; [done|]. exists []. by rewrite app_nil_r. }
    destruct Hw1 as (Hfs1 & hk & Hout1 & Hhk).
    rewrite <-Hfs1 in Hwf2, Hinv2.
    destruct (IH _ _ Hwf2 Hinv2 Hrest) as (new & Hout & Hnew).
    eexists. split.
    + rewrite Hout, Hout1, Hout2. simpl. rewrite <-!app_assoc. reflexivity.
    + simpl. rewrite report_events_cons, !report_events_app.
      by rewrite report_header, report_file_lines, Hhk, Hnew.
Qed.

End refinement.

(** ** Witness: the example of the specification (section 8) *)

Lemma apply_primitives_refines_plan_witness :
  plan (present_paths (w_fs w0) repo0) false [policy; commands] =
    [(policy, [(".control/policy.yaml", Written)]); (commands, [(".control/commands.yaml", Written)])] /\
  exists w', @_apply_primitives proc_ok E0 repo0 [policy; commands] false w0 = (inr tt, w') /\
  exists new, w_out w' = w_out w0 ++ new /\
    report_events new = render_plan (plan (present_paths (w_fs w0) repo0) false [policy; commands]).
Proof.
  split; [vm_compute; reflexivity|].
  set (run := @_apply_primitives proc_ok E0 repo0 [policy; commands] false w0).
  assert (Hr : run = (inr tt, run.2)) by (apply run_result; vm_compute; reflexivity).
  exists run.2. split; [exact Hr|].
  exact (@apply_primitives_refines_plan proc_ok E0 repo0 (fun _ _ _ => eq_refl) _ false w0 run.2 fs0_wf Hr).
Defined.

End Plan.
