(* ===== verification/Coverage.v ===== *)
(** * Coverage: the [status] command

    Models lines 203-224 of [control_wizard.py]: after resolving the
    repository, [status] prints how many baseline files exist, one
    [OK ]/[MISS] line per baseline file, and for every primitive (in enum
    order) a line [  [marker] name: present/total] whose marker is [OK ]
    when all its files exist, [PARTIAL] when some do and [MISS] when none
    does.  It only reads the file system.

    The theorems: [status] always completes after a successful resolution,
    never changes the file system, and prints exactly the report computed
    from the file system; the marker classifies a primitive correctly; a
    primitive that a batch applied is reported [OK ]; deleting one of its
    files makes it [PARTIAL] (or [MISS] for a one-file primitive). *)

From S2P Require Import Prelude Catalog OS Fixture Resolver Materializer Applier.
Import Catalog Fixture Resolver Materializer Applier.

Module Coverage.

(** [f"{n}"] for a count. *)
Definition show_nat (n : nat) : string := pretty (N.of_nat n).

(** [sum(1 for rel in rels if (repo / rel).exists())] *)
Definition count_present (fs : fsys) (repo : path) (rels : list string) : nat :=
  count_if (fun rel => path_exists fs (join_path repo rel)) rels.

(** Line 215: ["OK " if (repo / rel).exists() else "MISS"]. *)
Definition file_marker (present : bool) : string := if present then "OK " else "MISS".

(** Line 223. *)
Definition primitive_marker (present total : nat) : string :=
  if decide (present = total) then "OK "
  else if decide (0 < present) then "PARTIAL" else "MISS".

(** The lines [status] prints for a repository, in order (lines 209-224). *)
Definition status_lines (fs : fsys) (repo : path) : list string :=
  ["Control metalayer status for " +:+ path_str repo; "";
   "baseline: " +:+ show_nat (count_present fs repo BASELINE_FILES) +:+ "/" +:+
     show_nat (length BASELINE_FILES)] ++
  map (fun rel => "  [" +:+ file_marker (path_exists fs (join_path repo rel)) +:+ "] " +:+ rel)
      BASELINE_FILES ++
  [""; "primitives:"] ++
  map (fun primitive =>
         let files := PRIMITIVE_FILES primitive in
         let present := count_present fs repo files in
         "  [" +:+ primitive_marker present (length files) +:+ "] " +:+
           primitive_value primitive +:+ ": " +:+ show_nat present +:+ "/" +:+
           show_nat (length files))
      all_primitives.

(** The body of [status] after the repository is resolved, written as the
    source is: the checks read the file system, the loops print. *)
Definition status_body (repo : path) : M unit :=
  echo ("Control metalayer status for " +:+ path_str repo) ;;
  echo "" ;;
  w <- get_state ;;
  let fs := w_fs w in
  let baseline_present := count_present fs repo BASELINE_FILES in
  echo ("baseline: " +:+ show_nat baseline_present +:+ "/" +:+ show_nat (length BASELINE_FILES)) ;;
  for_ BASELINE_FILES (fun rel =>
    echo ("  [" +:+ file_marker (path_exists fs (join_path repo rel)) +:+ "] " +:+ rel)) ;;
  echo "" ;;
  echo "primitives:" ;;
  for_ all_primitives (fun primitive =>
    let files := PRIMITIVE_FILES primitive in
    let present := count_present fs repo files in
    echo ("  [" +:+ primitive_marker present (length files) +:+ "] " +:+
          primitive_value primitive +:+ ": " +:+ show_nat present +:+ "/" +:+
          show_nat (length files))).

(** [status(repo_path)], lines 203-224. *)
Definition status (E : env) (repo_path : string) : M unit :=
  repo <- _resolve_repo E repo_path ;;
  status_body repo.

(** ** Theorems *)

(** The body of [status] prints the report and changes nothing else. *)
Lemma status_body_report (repo : path) (w : world) :
  status_body repo w = (inr tt, add_events (map EvOut (status_lines (w_fs w) repo)) w).
Proof.
  unfold status_body. rewrite !bind_echo, bind_get_state. cbv beta.
  rewrite bind_echo, bind_for_echo, !bind_echo, for_echo. simpl w_fs.
  rewrite !add_events_app. unfold status_lines. rewrite !map_app, !map_map. reflexivity.
Qed.

(** C26: the marker classifies a primitive's coverage: [OK ] when every
    file is present, [PARTIAL] when some but not all are, [MISS] when
    none is (for a primitive with files; at most all files are present). *)
Theorem primitive_marker_spec (fs : fsys) (repo : path) (p : Primitive) :
  let present := count_present fs repo (PRIMITIVE_FILES p) in
  let total := length (PRIMITIVE_FILES p) in
  present <= total /\
  ((primitive_marker present total = "OK " /\ present = total) \/
   (primitive_marker present total = "PARTIAL" /\ 0 < present < total) \/
   (primitive_marker present total = "MISS" /\ present = 0)).
Proof.
  intros present total.
  assert (Hle : present <= total) by apply count_if_le.
  assert (Hpos : 0 < total) by (unfold total; destruct p; simpl; lia).
  split; [done|]. unfold primitive_marker.
  destruct (decide (present = total)); [by left|].
  destruct (decide (0 < present)); [right; left; split; [done|lia] | right; right; split; [done|lia]].
Qed.

(** C6: deleting exactly one file of a fully present primitive makes it
    [PARTIAL], or [MISS] when it has a single file. *)
Theorem status_after_delete (fs : fsys) (repo : path) (p : Primitive) (rel : string) :
  (forall r, r ∈ PRIMITIVE_FILES p -> path_exists fs (join_path repo r) = true) ->
  rel ∈ PRIMITIVE_FILES p ->
  let fs' := delete (join_path repo rel) fs in
  count_present fs' repo (PRIMITIVE_FILES p) = length (PRIMITIVE_FILES p) - 1 /\
  primitive_marker (count_present fs' repo (PRIMITIVE_FILES p)) (length (PRIMITIVE_FILES p)) =
    (if decide (length (PRIMITIVE_FILES p) = 1) then "MISS" else "PARTIAL").
Proof.
  intros Hall Hrel fs'.
  assert (Hnn : join_path repo rel <> []).
  { unfold join_path. intros [_ Hn]%app_eq_nil. revert Hn.
    by apply catalog_parts_nonempty, (catalog_file_of p). }
  assert (Hcnt : count_present fs' repo (PRIMITIVE_FILES p) = length (PRIMITIVE_FILES p) - 1).
  { apply (count_if_all_but _ _ rel); [apply PRIMITIVE_FILES_NoDup | done | |].
    - unfold fs', path_exists. rewrite lookup_node_nonempty by done. by rewrite lookup_delete_eq.
    - intros y Hy Hne. unfold fs'. rewrite <-(Hall y Hy). apply path_exists_same.
      apply lookup_delete_ne. intros Heq. apply Hne.
      apply (catalog_target_inj repo); [by eapply catalog_file_of.. | done]. }
  split; [done|]. rewrite Hcnt. unfold primitive_marker.
  assert (Hpos : 0 < length (PRIMITIVE_FILES p)) by (destruct p; simpl; lia).
  repeat case_decide; try lia; done.
Qed.

(** Every file of a settled primitive counts as present. *)
Lemma settled_count_present (E : env) (repo : path) (fs : fsys) (p : Primitive) :
  settled E repo fs p -> count_present fs repo (PRIMITIVE_FILES p) = length (PRIMITIVE_FILES p).
Proof. intros Hs. apply count_if_all. intros rel Hrel. by destruct (Hs rel Hrel). Qed.

Section after_apply.
Context `{Process} (E : env).
Hypothesis proc_pure : forall argv cwd fs, (proc_run argv cwd fs).2 = fs.

(** C5: after a batch applies a list of primitives (with a hook installer
    that leaves the file system alone), [status] reports each of them
    [OK ] with all of its files present. *)
Theorem status_after_apply (repo : path) (primitives : list Primitive) (force : bool)
        (w w' : world) (p : Primitive) :
  fs_wf (w_fs w) ->
  _apply_primitives E repo primitives force w = (inr tt, w') ->
  p ∈ primitives ->
  count_present (w_fs w') repo (PRIMITIVE_FILES p) = length (PRIMITIVE_FILES p) /\
  primitive_marker (count_present (w_fs w') repo (PRIMITIVE_FILES p))
                   (length (PRIMITIVE_FILES p)) = "OK ".
Proof.
  intros Hwf Hrun Hp.
  destruct (apply_primitives_settles E proc_pure _ _ _ _ _ Hwf Hrun) as (_ & _ & Hset & _).
  pose proof (settled_count_present E _ _ _ (Hset p Hp)) as Hc.
  split; [done|]. rewrite Hc. unfold primitive_marker. by rewrite decide_True.
Qed.

End after_apply.

(** ** Witnesses *)

(** A repository holding exactly the three files of [hooks]. *)
Definition fs_hooks : fsys :=
  fold_left (fun fs rel => <[join_path repo0 rel := File [] 420]> fs) (PRIMITIVE_FILES hooks) ∅.

Lemma status_after_delete_witness :
  count_present (delete (join_path repo0 ".githooks/pre-commit") fs_hooks) repo0
                (PRIMITIVE_FILES hooks) = 2 /\
  primitive_marker (count_present (delete (join_path repo0 ".githooks/pre-commit") fs_hooks)
                                  repo0 (PRIMITIVE_FILES hooks)) 3 = "PARTIAL".
Proof.
  apply (status_after_delete fs_hooks repo0 hooks ".githooks/pre-commit").
  - apply Forall_forall, (bool_decide_unpack _). vm_compute. reflexivity.
  - apply (bool_decide_unpack _). vm_compute. reflexivity.
Defined.

Lemma status_after_apply_witness :
  exists w',
    @_apply_primitives proc_ok E0 repo0 [policy; hooks] false w0 = (inr tt, w') /\
    count_present (w_fs w') repo0 (PRIMITIVE_FILES hooks) = 3 /\
    primitive_marker (count_present (w_fs w') repo0 (PRIMITIVE_FILES hooks)) 3 = "OK ".
Proof.
  set (run := @_apply_primitives proc_ok E0 repo0 [policy; hooks] false w0).
  assert (Hr : run = (inr tt, run.2)) by (apply run_result; vm_compute; reflexivity).
  exists run.2. split; [exact Hr|].
  exact (@status_after_apply proc_ok E0 (fun _ _ _ => eq_refl) repo0 _ false w0 run.2 hooks
           fs0_wf Hr ltac:(by right; left)).
Defined.

End Coverage.
