(* ===== verification/Commands.v ===== *)
(** * Commands: the wizard's sub-commands

    Models lines 25-26 ([BOOTSTRAP_SCRIPT], [AUDIT_SCRIPT]), 117-123
    ([_run]), 167-200 ([init], [audit]) and 227-245 ([primitive list],
    [primitive add]) of [control_wizard.py], with the status the process
    exits with (lines 248-249, [app()] run by Typer).

    [init] resolves the repository, runs the bootstrap script and, unless
    the profile is [baseline], applies the profile's primitives; [audit]
    runs the audit script; [primitive add] applies a chosen list;
    [primitive list] prints the catalog.  The theorems give each command's
    result on every branch, the exit status a failing script leaves, the
    idempotence of [primitive add] as a command, and the abort of a batch
    on an installer that is present but not executable. *)

From S2P Require Import Prelude Catalog OS Fixture Resolver Materializer Applier.
Import Catalog Fixture Resolver Materializer Applier.

Module Commands.

Section commands.
Context `{Process} (E : env).

(** [BOOTSTRAP_SCRIPT = SCRIPT_DIR / "bootstrap_control.sh"] *)
Definition BOOTSTRAP_SCRIPT : path := env_script_dir E ++ ["bootstrap_control.sh"].

(** [AUDIT_SCRIPT = SCRIPT_DIR / "audit_control.sh"] *)
Definition AUDIT_SCRIPT : path := env_script_dir E ++ ["audit_control.sh"].

(** [_run(script, args)], lines 117-123: the child inherits the working
    directory; a nonzero exit code becomes [typer.Exit(code)]. *)
Definition _run (script : path) (args : list string) : M unit :=
  ex <- exists_at script ;;
  if negb ex then
    echo_err ("error: script not found: " +:+ path_str script) ;;
    raise (Exit 2)
  else
    code <- spawn script args (env_cwd E) ;;
    if decide (code = 0%Z) then ret tt else raise (Exit code).

(** Lines 177-179. *)
Definition init_args (repo : path) (force : bool) : list string :=
  path_str repo :: (if force then ["--force"] else []).

(** [init(repo_path, profile, force)], lines 167-187. *)
Definition init (repo_path : string) (profile : Profile) (force : bool) : M unit :=
  repo <- _resolve_repo E repo_path ;;
  echo ("Initializing control metalayer in " +:+ path_str repo) ;;
  _run BOOTSTRAP_SCRIPT (init_args repo force) ;;
  if decide (profile = baseline) then ret tt
  else
    let primitives := if decide (profile = governed) then GOVERNED_PRIMITIVES
                      else AUTONOMOUS_PRIMITIVES in
    _apply_primitives E repo primitives force ;;
    echo (nl +:+ "Initialization complete.").

(** Lines 197-199. *)
Definition audit_args (repo : path) (strict : bool) : list string :=
  path_str repo :: (if strict then ["--strict"] else []).

(** [audit(repo_path, strict)], lines 190-200. *)
Definition audit (repo_path : string) (strict : bool) : M unit :=
  repo <- _resolve_repo E repo_path ;;
  _run AUDIT_SCRIPT (audit_args repo strict).

(** [primitive_add(primitives, repo, force)], lines 236-245. *)
Definition primitive_add (primitives : list Primitive) (repo : string) (force : bool)
  : M unit :=
  repo_path <- _resolve_repo E repo ;;
  _apply_primitives E repo_path primitives force ;;
  echo (nl +:+ "Primitive update complete.").

End commands.

(** [primitive_list()], lines 227-233. *)
Definition primitive_list : M unit :=
  for_ all_primitives (fun primitive =>
    echo (primitive_value primitive) ;;
    for_ (PRIMITIVE_FILES primitive) (fun rel => echo ("  - " +:+ rel))).

(** The status the process exits with when a command ends (Typer's
    standalone mode under [app()], lines 248-249): a normal return is 0;
    [typer.Exit(code)] becomes [sys.exit(code)], whose status is the low
    byte of the code; any other exception ends the interpreter with a
    traceback and status 1. *)
Definition exit_status {A} (r : exn + A) : Z :=
  match r with
  | inr _ => 0
  | inl (Exit c) => Z.land c 255
  | inl _ => 1
  end.

(** The listing [primitive list] prints. *)
Definition catalog_listing : list string :=
  flat_map (fun p => primitive_value p :: map (fun rel => "  - " +:+ rel) (PRIMITIVE_FILES p))
           all_primitives.

(** ** Lemmas *)

Section lemmas.
Context `{Process} (E : env).

(** [_run] on every branch: a missing script, a script that cannot be
    executed, and a script that runs. *)
Lemma _run_spec (script : path) (args : list string) (w : world) :
  _run E script args w =
  match lookup_node (w_fs w) script with
  | None => (inl (Exit 2), add_event (EvErr ("error: script not found: " +:+ path_str script)) w)
  | Some Dir => (inl (OSError EACCES), w)
  | Some (File _ m) =>
      if can_exec m then
        let argv := path_str script :: args in
        let r := proc_run argv (env_cwd E) (w_fs w) in
        (if decide (r.1 = 0%Z) then inr tt else inl (Exit r.1),
         mkWorld r.2 (w_out w ++ [EvProc argv (env_cwd E) r.1]))
      else (inl (OSError EACCES), w)
  end.
Proof.
  unfold _run, se_bind, exists_at, path_exists, spawn, echo_err, modify, raise, ret. simpl.
  destruct (lookup_node (w_fs w) script) as [[d m|]|] eqn:Hl; simpl; rewrite ?Hl; [|done|done].
  destruct (can_exec m); simpl; [|done]. by destruct (decide _).
Qed.

(** A successful resolution leaves the world as it was and yields a
    directory. *)
Lemma resolve_repo_inr (s : string) (w w' : world) (repo : path) :
  _resolve_repo E s w = (inr repo, w') -> w' = w /\ lookup_node (w_fs w) repo = Some Dir.
Proof.
  unfold _resolve_repo, se_bind. destruct (expanduser E (parse_path s)); [done|].
  unfold exists_at, is_dir_at, ret, raise, echo_err, modify, path_exists, path_is_dir. simpl.
  by destruct (lookup_node (w_fs w) _) as [[]|] eqn:Hl; simpl; intros; simplify_eq.
Qed.

(** Resolution reads the file system only through the repository's own
    entry: it succeeds again on any world where that entry is a directory. *)
Lemma resolve_repo_dir (s : string) (w w' : world) (repo : path) :
  _resolve_repo E s w = (inr repo, w) -> lookup_node (w_fs w') repo = Some Dir ->
  _resolve_repo E s w' = (inr repo, w').
Proof.
  unfold _resolve_repo, se_bind. destruct (expanduser E (parse_path s)); [done|].
  unfold exists_at, is_dir_at, ret, raise, echo_err, modify, path_exists, path_is_dir. simpl.
  destruct (lookup_node (w_fs w) _) as [[]|]; simpl; intros; simplify_eq. by rewrite H1.
Qed.

(** [_run] keeps the file system well formed. *)
Lemma run_wf (script : path) (args : list string) (w w' : world) (r : exn + unit) :
  fs_wf (w_fs w) -> _run E script args w = (r, w') -> fs_wf (w_fs w').
Proof.
  intros Hwf. rewrite _run_spec.
  destruct (lookup_node (w_fs w) script) as [[d m|]|]; [|by intros [= _ <-] ..].
  destruct (can_exec m); [|by intros [= _ <-]]. intros [= _ <-]. simpl. by apply proc_run_wf.
Qed.

(** [init] with the profile's primitive list named by [profile_primitives]. *)
Lemma init_unfold (s : string) (profile : Profile) (force : bool) (w : world) :
  init E s profile force w =
  (repo <- _resolve_repo E s ;;
   echo ("Initializing control metalayer in " +:+ path_str repo) ;;
   _run E (BOOTSTRAP_SCRIPT E) (init_args repo force) ;;
   if decide (profile = baseline) then ret tt
   else _apply_primitives E repo (profile_primitives profile) force ;;
        echo (nl +:+ "Initialization complete.")) w.
Proof. by destruct profile. Qed.

End lemmas.

(** ** Theorems *)

Section theorems.
Context `{Process} (E : env).

(** C12: [init] on every branch.  After the repository resolves and the
    bootstrap script is an executable file, [init] prints its banner and
    runs the script with the repository (and [--force]); a nonzero exit
    code [c] ends it with [typer.Exit(c)] and nothing is applied; a zero
    code ends it there for [baseline] and otherwise applies exactly the
    profile's primitives and prints the completion line. *)
Theorem init_spec (s : string) (profile : Profile) (force : bool) (w : world) (repo : path)
        (d : list Byte.byte) (m : Z) :
  _resolve_repo E s w = (inr repo, w) ->
  lookup_node (w_fs w) (BOOTSTRAP_SCRIPT E) = Some (File d m) -> can_exec m = true ->
  let argv := path_str (BOOTSTRAP_SCRIPT E) :: init_args repo force in
  let r := proc_run argv (env_cwd E) (w_fs w) in
  let w1 := mkWorld r.2 (w_out w ++ [EvOut ("Initializing control metalayer in " +:+ path_str repo);
                                     EvProc argv (env_cwd E) r.1]) in
  init E s profile force w =
    if decide (r.1 = 0%Z) then
      if decide (profile = baseline) then (inr tt, w1)
      else (_apply_primitives E repo (profile_primitives profile) force ;;
            echo (nl +:+ "Initialization complete.")) w1
    else (inl (Exit r.1), w1).
Proof.
  intros Hres Hl Hx. cbv zeta.
  unfold init. rewrite (bind_inr _ _ _ _ _ Hres), bind_echo.
  unfold se_bind at 1. rewrite _run_spec. cbn [w_fs add_events]. rewrite Hl, Hx.
  cbv zeta. cbn [w_out add_events]. rewrite <-app_assoc. simpl.
  destruct (decide (_ = 0%Z)); [|done].
  destruct (decide (profile = baseline)); [done|].
  unfold profile_primitives. rewrite (decide_False (P := profile = baseline)) by done. reflexivity.
Qed.

(** C21: [audit] passes the script's verdict through.  After the
    repository resolves and the audit script is an executable file,
    [audit] runs it once with the repository (and [--strict]) and ends
    normally on exit code 0 and with [typer.Exit(c)] on a nonzero code
    [c]; the process status is the code's low byte, so for every code a
    child can report (between -255 and 255) the status is 0 exactly when
    the script succeeded. *)
Theorem audit_status (s : string) (strict : bool) (w : world) (repo : path)
        (d : list Byte.byte) (m : Z) :
  _resolve_repo E s w = (inr repo, w) ->
  lookup_node (w_fs w) (AUDIT_SCRIPT E) = Some (File d m) -> can_exec m = true ->
  let argv := path_str (AUDIT_SCRIPT E) :: audit_args repo strict in
  let r := proc_run argv (env_cwd E) (w_fs w) in
  audit E s strict w = (if decide (r.1 = 0%Z) then inr tt else inl (Exit r.1),
                        mkWorld r.2 (w_out w ++ [EvProc argv (env_cwd E) r.1])) /\
  exit_status (audit E s strict w).1 = Z.land r.1 255 /\
  ((-255 <= r.1 <= 255)%Z -> exit_status (audit E s strict w).1 = 0%Z <-> r.1 = 0%Z).
Proof.
  intros Hres Hl Hx. cbv zeta.
  assert (Ha : audit E s strict w =
    (if decide ((proc_run (path_str (AUDIT_SCRIPT E) :: audit_args repo strict) (env_cwd E) (w_fs w)).1 = 0%Z)
     then inr tt else inl (Exit (proc_run (path_str (AUDIT_SCRIPT E) :: audit_args repo strict) (env_cwd E) (w_fs w)).1),
     mkWorld (proc_run (path_str (AUDIT_SCRIPT E) :: audit_args repo strict) (env_cwd E) (w_fs w)).2
       (w_out w ++ [EvProc (path_str (AUDIT_SCRIPT E) :: audit_args repo strict) (env_cwd E)
                      (proc_run (path_str (AUDIT_SCRIPT E) :: audit_args repo strict) (env_cwd E) (w_fs w)).1]))).
  { unfold audit. rewrite (bind_inr _ _ _ _ _ Hres), _run_spec, Hl, Hx. reflexivity. }
  rewrite Ha. simpl. split; [done|].
  destruct (decide _) as [->|Hne]; simpl; [done|]. split; [done|].
  intros Hb. by apply land_255_zero.
Qed.

(** C30: [primitive list] is read-only and prints the catalog: every
    primitive name in enum order, each followed by its files, and a line
    [  - rel] appears exactly for the paths the catalog declares. *)
Theorem primitive_list_output (w : world) :
  primitive_list w = (inr tt, add_events (map EvOut catalog_listing) w) /\
  forall rel, ("  - " +:+ rel) ∈ catalog_listing <-> catalog_file rel.
Proof.
  split.
  - unfold primitive_list, catalog_listing. rewrite (for_events _ _ (fun p => map EvOut
      (primitive_value p :: map (fun rel => "  - " +:+ rel) (PRIMITIVE_FILES p)))).
    + by rewrite map_flat_map.
    + intros p w'. rewrite bind_echo, for_echo, add_events_app. simpl. by rewrite map_map.
  - intros rel. unfold catalog_listing, catalog_file, primitives_files.
    rewrite !list_elem_of_In, !in_flat_map. split.
    + intros (p & Hp & [Hv|Hr]).
      * exfalso. destruct p; rewrite !string_app_cons in Hv; discriminate.
      * apply in_map_iff in Hr as (r & Hr & Hin). cbv [String.append] in Hr.
        simplify_eq. by exists p.
    + intros (p & Hp & Hin). exists p. split; [done|]. right. by apply in_map.
Qed.

(** C17: a missing bootstrap script is a configuration error: [init]
    prints its banner and one error line, exits with code 2, and applies
    no primitive, whatever the profile. *)
Theorem init_bootstrap_missing (s : string) (profile : Profile) (force : bool) (w : world)
        (repo : path) :
  _resolve_repo E s w = (inr repo, w) ->
  path_exists (w_fs w) (BOOTSTRAP_SCRIPT E) = false ->
  init E s profile force w =
    (inl (Exit 2), add_events [EvOut ("Initializing control metalayer in " +:+ path_str repo);
                               EvErr ("error: script not found: " +:+ path_str (BOOTSTRAP_SCRIPT E))] w) /\
  exit_status (init E s profile force w).1 = 2%Z.
Proof.
  intros Hres Hmiss.
  assert (Hl : lookup_node (w_fs w) (BOOTSTRAP_SCRIPT E) = None).
  { unfold path_exists in Hmiss. by destruct (lookup_node _ _). }
  assert (Hi : init E s profile force w =
    (inl (Exit 2), add_events [EvOut ("Initializing control metalayer in " +:+ path_str repo);
                               EvErr ("error: script not found: " +:+ path_str (BOOTSTRAP_SCRIPT E))] w)).
  { rewrite init_unfold, (bind_inr _ _ _ _ _ Hres), bind_echo.
    apply bind_inl. rewrite _run_spec. cbn [w_fs add_events]. rewrite Hl.
    unfold add_event, add_events. simpl. by rewrite <-app_assoc. }
  by rewrite Hi.
Qed.

(** C18: a path starting with [~user] for a user without a home directory
    makes [Path.expanduser] raise [RuntimeError]: every command that
    resolves a repository ends with that exception (a traceback and
    status 1), not with the one-line error and status 2 of an invalid
    repository, and nothing else happens. *)
Theorem unknown_user_exit (s user : string) (rest : list string) (w : world)
        (profile : Profile) (force strict : bool) (primitives : list Primitive) :
  parse_path s = PurePath false (String "~" user :: rest) -> user <> "" ->
  env_user_home E user = None ->
  init E s profile force w = (inl RuntimeError, w) /\
  audit E s strict w = (inl RuntimeError, w) /\
  primitive_add E primitives s force w = (inl RuntimeError, w) /\
  exit_status (init E s profile force w).1 = 1%Z.
Proof.
  intros Hp Hu Hh.
  assert (Hr : _resolve_repo E s w = (inl RuntimeError, w)).
  { apply resolve_repo_expand_error. rewrite Hp. by apply expanduser_unknown. }
  unfold init, audit, primitive_add. by rewrite !(bind_inl _ _ _ _ _ Hr).
Qed.

End theorems.

Section add.
Context `{Process} (E : env).
Hypothesis proc_pure : forall argv cwd fs, (proc_run argv cwd fs).2 = fs.

Lemma PRIMITIVE_FILES_nonempty (p : Primitive) : exists rel, rel ∈ PRIMITIVE_FILES p.
Proof. destruct p; eexists; by apply elem_of_cons; left. Qed.

(** A completed batch keeps the repository a directory. *)
Lemma apply_primitives_repo_dir (repo : path) (primitives : list Primitive) (force : bool)
      (w w' : world) :
  fs_wf (w_fs w) -> lookup_node (w_fs w) repo = Some Dir ->
  _apply_primitives E repo primitives force w = (inr tt, w') ->
  lookup_node (w_fs w') repo = Some Dir.
Proof.
  intros Hwf Hd Hrun. destruct primitives as [|p ps]; [by injection Hrun as <-|].
  destruct (apply_primitives_settles E proc_pure _ _ _ _ _ Hwf Hrun) as (Hwf' & _ & Hset & _).
  destruct (PRIMITIVE_FILES_nonempty p) as [rel Hrel].
  destruct (Hset p ltac:(by apply elem_of_cons; left) rel Hrel) as [_ Hex].
  unfold path_exists, join_path in Hex. destruct (lookup_node (w_fs w') (repo ++ path_parts rel)) as [n|] eqn:Hn; [|done].
  apply (fs_wf_ancestor _ repo (path_parts rel) n Hwf'); [|done].
  by apply catalog_parts_nonempty, (catalog_file_of p).
Qed.

(** A bootstrap or audit script that changes no file leaves the file
    system as it was, whatever it returns. *)
Lemma run_pure (script : path) (args : list string) (w w' : world) (r : exn + unit) :
  _run E script args w = (r, w') -> w_fs w' = w_fs w.
Proof.
  rewrite _run_spec. destruct (lookup_node (w_fs w) script) as [[d m|]|]; [|by intros [= _ <-] ..].
  destruct (can_exec m); [|by intros [= _ <-]]. intros [= _ <-]. apply proc_pure.
Qed.

(** What a completed [init] leaves: the repository resolved on the
    starting world, is still a directory, and every primitive of the
    profile is settled (its templates and its files present). *)
Lemma init_settles (s : string) (profile : Profile) (force : bool) (w w1 : world) :
  fs_wf (w_fs w) -> init E s profile force w = (inr tt, w1) ->
  exists repo, _resolve_repo E s w = (inr repo, w) /\ lookup_node (w_fs w1) repo = Some Dir /\
    forall p, p ∈ profile_primitives profile -> settled E repo (w_fs w1) p.
Proof.
  intros Hwf Hi. rewrite init_unfold in Hi.
  destruct (_resolve_repo E s w) as [[e|repo] w0] eqn:Hres; [by rewrite (bind_inl _ _ _ _ _ Hres) in Hi|].
  destruct (resolve_repo_inr E _ _ _ _ Hres) as [-> Hd]. exists repo. split; [done|].
  rewrite (bind_inr _ _ _ _ _ Hres), bind_echo in Hi.
  destruct (_run E (BOOTSTRAP_SCRIPT E) (init_args repo force)
              (add_events [EvOut ("Initializing control metalayer in " +:+ path_str repo)] w))
    as [[e|[]] w2] eqn:Hrun; [by rewrite (bind_inl _ _ _ _ _ Hrun) in Hi|].
  pose proof (run_pure _ _ _ _ _ Hrun) as Hfs2. simpl in Hfs2.
  rewrite (bind_inr _ _ _ _ _ Hrun) in Hi.
  destruct (decide (profile = baseline)) as [->|Hnb].
  - injection Hi as <-. rewrite Hfs2. split; [done|]. intros p Hp. by apply not_elem_of_nil in Hp.
  - rewrite <-Hfs2 in Hwf, Hd.
    destruct (_apply_primitives E repo (profile_primitives profile) force w2) as [[e|[]] w3] eqn:Ha;
      [by rewrite (bind_inl _ _ _ _ _ Ha) in Hi|].
    rewrite (bind_inr _ _ _ _ _ Ha), echo_run in Hi. injection Hi as <-.
    destruct (apply_primitives_settles E proc_pure _ _ _ _ _ Hwf Ha) as (_ & _ & Hset & _).
    split; [apply (apply_primitives_repo_dir _ _ _ _ _ Hwf Hd Ha) | apply Hset].
Qed.

(** C16: [primitive add] is idempotent as a command.  After a completed
    [primitive add] (with or without [--force]), the same command without
    [--force] completes again, changes no file, and prints only the skip
    report and the completion line. *)
Theorem primitive_add_idempotent (primitives : list Primitive) (s : string) (force : bool)
        (w w1 : world) :
  fs_wf (w_fs w) ->
  primitive_add E primitives s force w = (inr tt, w1) ->
  exists repo,
    primitive_add E primitives s false w1 =
      (inr tt, add_events (skip_trace repo (hook_code repo (w_fs w1)) primitives ++
                           [EvOut (nl +:+ "Primitive update complete.")]) w1).
Proof.
  intros Hwf Hrun. unfold primitive_add, se_bind at 1 in Hrun.
  destruct (_resolve_repo E s w) as [[e|repo] w0] eqn:Hres; [done|]. exists repo.
  destruct (resolve_repo_inr E _ _ _ _ Hres) as [-> Hd].
  unfold se_bind in Hrun. destruct (_apply_primitives E repo primitives force w) as [[e|[]] w2] eqn:Ha;
    [done|]. injection Hrun as <-.
  destruct (apply_primitives_settles E proc_pure _ _ _ _ _ Hwf Ha) as (Hwf2 & _ & Hset & _ & Hready).
  pose proof (apply_primitives_repo_dir _ _ _ _ _ Hwf Hd Ha) as Hd2.
  unfold primitive_add.
  rewrite (bind_inr _ _ _ _ _ (resolve_repo_dir E s w (add_event (EvOut (nl +:+ "Primitive update complete.")) w2) repo Hres Hd2)).
  rewrite (bind_inr _ _ _ _ _ (apply_primitives_settled E proc_pure repo primitives (add_event (EvOut (nl +:+ "Primitive update complete.")) w2) Hwf2 Hset Hready)).
  cbv beta. by rewrite echo_run, add_events_app.
Qed.

(** C13: profile monotonicity (spec 8.3).  From the same world, the files
    present after [init] with [baseline] are all present after [governed],
    and those after [governed] are all present after [autonomous]: the
    larger profile runs the same bootstrap and the same primitives first
    and only adds files after them. *)
Theorem init_profile_monotone (s : string) (force : bool) (w wb wg wa : world) :
  fs_wf (w_fs w) ->
  init E s baseline force w = (inr tt, wb) ->
  init E s governed force w = (inr tt, wg) ->
  init E s autonomous force w = (inr tt, wa) ->
  fs_grows (w_fs wb) (w_fs wg) /\ fs_grows (w_fs wg) (w_fs wa).
Proof.
  intros Hwf Hb Hg Ha. rewrite init_unfold in Hb. rewrite init_unfold in Hg. rewrite init_unfold in Ha.
  destruct (_resolve_repo E s w) as [[e|repo] w1] eqn:Hres;
    [by rewrite (bind_inl _ _ _ _ _ Hres) in Hb|].
  destruct (resolve_repo_inr E _ _ _ _ Hres) as [-> _].
  rewrite (bind_inr _ _ _ _ _ Hres), bind_echo in Hb.
  rewrite (bind_inr _ _ _ _ _ Hres), bind_echo in Hg.
  rewrite (bind_inr _ _ _ _ _ Hres), bind_echo in Ha.
  destruct (_run E (BOOTSTRAP_SCRIPT E) (init_args repo force)
              (add_events [EvOut ("Initializing control metalayer in " +:+ path_str repo)] w))
    as [[e|[]] w2] eqn:Hrun; [by rewrite (bind_inl _ _ _ _ _ Hrun) in Hb|].
  pose proof (run_wf E _ _ (add_events [EvOut ("Initializing control metalayer in " +:+ path_str repo)] w) _ _ Hwf Hrun) as Hwf2.
  rewrite (bind_inr _ _ _ _ _ Hrun) in Hb. rewrite (bind_inr _ _ _ _ _ Hrun) in Hg.
  rewrite (bind_inr _ _ _ _ _ Hrun) in Ha. injection Hb as <-.
  change (profile_primitives governed) with GOVERNED_PRIMITIVES in Hg.
  change (profile_primitives autonomous)
    with (GOVERNED_PRIMITIVES ++ [recovery; state; nightly; web; cli]) in Ha.
  rewrite decide_False in Hg by done. rewrite decide_False in Ha by done.
  destruct (_apply_primitives E repo GOVERNED_PRIMITIVES force w2) as [[e|[]] w3] eqn:HG;
    [by rewrite (bind_inl _ _ _ _ _ HG) in Hg|].
  rewrite (bind_inr _ _ _ _ _ HG) in Hg. injection Hg as <-.
  destruct (apply_primitives_settles E proc_pure _ _ _ _ _ Hwf2 HG) as (Hwf3 & Hg3 & _).
  unfold se_bind at 1 in Ha. rewrite apply_primitives_app in Ha.
  rewrite (bind_inr _ _ _ _ _ HG) in Ha.
  destruct (_apply_primitives E repo [recovery; state; nightly; web; cli] force w3)
    as [[e|[]] w4] eqn:HX; [done|].
  injection Ha as <-.
  destruct (apply_primitives_settles E proc_pure _ _ _ _ _ Hwf3 HX) as (_ & Hg4 & _).
  done.
Qed.

End add.

(** ** Witnesses *)

Lemma init_spec_witness :
  let argv := path_str (BOOTSTRAP_SCRIPT E0) :: init_args repo0 false in
  let r := @proc_run proc_ok argv (env_cwd E0) (w_fs w0) in
  let w1 := mkWorld r.2 (w_out w0 ++ [EvOut ("Initializing control metalayer in " +:+ path_str repo0);
                                      EvProc argv (env_cwd E0) r.1]) in
  @init proc_ok E0 "repo" governed false w0 =
    if decide (r.1 = 0%Z) then
      if decide (governed = baseline) then (inr tt, w1)
      else (@_apply_primitives proc_ok E0 repo0 (profile_primitives governed) false ;;
            echo (nl +:+ "Initialization complete.")) w1
    else (inl (Exit r.1), w1).
Proof.
  apply (@init_spec proc_ok E0 "repo" governed false w0 repo0 [] 493).
  - apply (resolve_repo_ok _ _ _ (PurePath false ["repo"])); vm_compute; reflexivity.
  - vm_compute. reflexivity.
  - reflexivity.
Defined.

Lemma audit_status_witness :
  let argv := path_str (AUDIT_SCRIPT E0) :: audit_args repo0 true in
  let r := @proc_run proc_fail argv (env_cwd E0) (w_fs w0) in
  @audit proc_fail E0 "repo" true w0 = (if decide (r.1 = 0%Z) then inr tt else inl (Exit r.1),
                                        mkWorld r.2 (w_out w0 ++ [EvProc argv (env_cwd E0) r.1])) /\
  exit_status (@audit proc_fail E0 "repo" true w0).1 = Z.land r.1 255 /\
  ((-255 <= r.1 <= 255)%Z -> exit_status (@audit proc_fail E0 "repo" true w0).1 = 0%Z <-> r.1 = 0%Z).
Proof.
  apply (@audit_status proc_fail E0 "repo" true w0 repo0 [] 493).
  - apply (resolve_repo_ok _ _ _ (PurePath false ["repo"])); vm_compute; reflexivity.
  - vm_compute. reflexivity.
  - reflexivity.
Defined.

Lemma primitive_add_idempotent_witness :
  exists w1, @primitive_add proc_ok E0 [policy; hooks] "repo" true w0 = (inr tt, w1) /\
  exists repo,
    @primitive_add proc_ok E0 [policy; hooks] "repo" false w1 =
      (inr tt, add_events (skip_trace repo (@hook_code proc_ok repo (w_fs w1)) [policy; hooks] ++
                           [EvOut (nl +:+ "Primitive update complete.")]) w1).
Proof.
  set (run := @primitive_add proc_ok E0 [policy; hooks] "repo" true w0).
  assert (Hr : run = (inr tt, run.2)) by (apply run_result; vm_compute; reflexivity).
  exists run.2. split; [exact Hr|].
  exact (@primitive_add_idempotent proc_ok E0 (fun _ _ _ => eq_refl) _ _ true w0 run.2 fs0_wf Hr).
Defined.

(** The fixture without the bootstrap script. *)
Definition w_noboot : world := mkWorld (delete (BOOTSTRAP_SCRIPT E0) fs0) [].

Lemma init_bootstrap_missing_witness :
  @init proc_ok E0 "repo" governed false w_noboot =
    (inl (Exit 2), add_events [EvOut ("Initializing control metalayer in " +:+ path_str repo0);
                               EvErr ("error: script not found: " +:+ path_str (BOOTSTRAP_SCRIPT E0))] w_noboot) /\
  exit_status (@init proc_ok E0 "repo" governed false w_noboot).1 = 2%Z.
Proof.
  apply (@init_bootstrap_missing proc_ok E0 "repo" governed false w_noboot repo0).
  - apply (resolve_repo_ok _ _ _ (PurePath false ["repo"])); vm_compute; reflexivity.
  - vm_compute. reflexivity.
Defined.

Lemma unknown_user_exit_witness :
  @init proc_ok E0 "~ghost/repo" governed false w0 = (inl RuntimeError, w0) /\
  @audit proc_ok E0 "~ghost/repo" true w0 = (inl RuntimeError, w0) /\
  @primitive_add proc_ok E0 [policy] "~ghost/repo" false w0 = (inl RuntimeError, w0) /\
  exit_status (@init proc_ok E0 "~ghost/repo" governed false w0).1 = 1%Z.
Proof.
  apply (@unknown_user_exit proc_ok E0 "~ghost/repo" "ghost" ["repo"]);
    [vm_compute; reflexivity | discriminate | reflexivity].
Defined.

Lemma init_profile_monotone_witness :
  exists wb wg wa,
    @init proc_ok E0 "repo" baseline false w0 = (inr tt, wb) /\
    @init proc_ok E0 "repo" governed false w0 = (inr tt, wg) /\
    @init proc_ok E0 "repo" autonomous false w0 = (inr tt, wa) /\
    fs_grows (w_fs wb) (w_fs wg) /\ fs_grows (w_fs wg) (w_fs wa).
Proof.
  set (rb := @init proc_ok E0 "repo" baseline false w0).
  set (rg := @init proc_ok E0 "repo" governed false w0).
  set (ra := @init proc_ok E0 "repo" autonomous false w0).
  assert (Hb : rb = (inr tt, rb.2)) by (apply run_result; vm_compute; reflexivity).
  assert (Hg : rg = (inr tt, rg.2)) by (apply run_result; vm_compute; reflexivity).
  assert (Ha : ra = (inr tt, ra.2)) by (apply run_result; vm_compute; reflexivity).
  exists rb.2, rg.2, ra.2. split_and!; [exact Hb | exact Hg | exact Ha | ..];
  apply (@init_profile_monotone proc_ok E0 (fun _ _ _ => eq_refl) "repo" false w0 _ _ _ fs0_wf Hb Hg Ha).
Defined.

End Commands.
