(* ===== verification/Cli.v ===== *)
(** * Cli: the command line of the wizard

    Models the Typer application of [control_wizard.py]: the two groups
    (lines 18-20: [app], and [primitive_app] mounted as [primitive]),
    the commands they route to (the decorators of lines 167, 190, 203,
    227 and 236) and the parameters each command declares, with their
    defaults: [init [REPO_PATH] [--profile|-p P] [--force]],
    [audit [REPO_PATH] [--strict]], [status [REPO_PATH]],
    [primitive list], [primitive add PRIMITIVE... [--repo|-r R] [--force]].
    [main] parses an argument vector and runs the command (the [app()]
    call of line 249); [script] puts the import guard of lines 11-16
    before it.

    Token scanning follows Click, on which Typer is built, for the forms
    these declarations admit: [--name value], [--name=value], [-p value],
    [-pvalue], flags, [--] ending the options, options and arguments
    interleaved, the last value of a repeated option winning, [--help]
    and the completion options.  A usage error (unknown option or
    command, missing value or argument, extra argument, invalid choice)
    prints the usage and the error on stderr and ends the process with
    status 2; help and completion print on stdout and end it with
    status 0.  What Click prints is a parameter of [main]
    ([help_text], [usage_text]): the theorems hold whatever its wording.

    The theorems: printing a command as an argument vector and parsing it
    gives the command back, and running that vector runs the command; the
    declared defaults; and an invalid primitive name is a usage error that
    touches no file and only prints Click's usage text on stderr. *)

From S2P Require Import Prelude Catalog OS Fixture Resolver Applier Coverage Commands.
Import Catalog Fixture Resolver Applier Coverage Commands.

Module Cli.

(** ** Invocations *)

(** A parsed invocation: the command and its converted parameters. *)
Inductive cmd :=
  | CInit (repo_path : string) (profile : Profile) (force : bool)
  | CAudit (repo_path : string) (strict : bool)
  | CStatus (repo_path : string)
  | CPrimList
  | CPrimAdd (primitives : list Primitive) (repo : string) (force : bool).

(** What parsing decides: run a command, stop after help or completion,
    or fail with a usage error. *)
Inductive outcome := Invoke (c : cmd) | NoCommand | UsageError.

(** ** Scanning the tokens of one command *)

(** An option table: each name as typed, the parameter it sets, and
    whether it takes a value. *)
Definition opt_table := list (string * (string * bool)).

(** The options seen (latest first) and the positional arguments. *)
Record pargs := PArgs { pa_opts : list (string * string); pa_pos : list string }.

Fixpoint assoc {A} (k : string) (l : list (string * A)) : option A :=
  match l with
  | [] => None
  | (k', a) :: l' => if decide (k = k') then Some a else assoc k l'
  end.

(** [--name=value]: the name and the text after the first [=]. *)
Fixpoint split_eq (s : string) : string * option string :=
  match s with
  | EmptyString => (EmptyString, None)
  | String c rest =>
      if decide (c = "="%char) then (EmptyString, Some rest)
      else let r := split_eq rest in (String c r.1, r.2)
  end.

Definition set_opt (k v : string) (acc : pargs) : pargs :=
  PArgs ((k, v) :: pa_opts acc) (pa_pos acc).

Definition add_pos (t : string) (acc : pargs) : pargs :=
  PArgs (pa_opts acc) (pa_pos acc ++ [t]).

(** Click's parser, left to right: [--] makes the rest arguments; a token
    of two or more characters starting with [-] is an option (long with
    [--], short otherwise, a short option's value may be attached); any
    other token is an argument.  [None] is a usage error. *)
Fixpoint scan (tbl : opt_table) (toks : list string) (acc : pargs) : option pargs :=
  match toks with
  | [] => Some acc
  | t :: rest =>
      if decide (t = "--") then Some (PArgs (pa_opts acc) (pa_pos acc ++ rest))
      else if String.prefix "--" t then
        let (name, inline) := split_eq t in
        match assoc name tbl, inline with
        | Some (k, true), Some v => scan tbl rest (set_opt k v acc)
        | Some (k, true), None =>
            match rest with
            | v :: rest' => scan tbl rest' (set_opt k v acc)
            | [] => None
            end
        | Some (k, false), None => scan tbl rest (set_opt k "" acc)
        | _, _ => None
        end
      else
        match t with
        | String c (String c' attached) =>
            if decide (c = "-"%char) then
              match assoc (String c (String c' EmptyString)) tbl with
              | Some (k, true) =>
                  match attached with
                  | EmptyString =>
                      match rest with
                      | v :: rest' => scan tbl rest' (set_opt k v acc)
                      | [] => None
                      end
                  | _ => scan tbl rest (set_opt k attached acc)
                  end
              | _ => None
              end
            else scan tbl rest (add_pos t acc)
        | _ => scan tbl rest (add_pos t acc)
        end
  end.

Definition has_opt (k : string) (pa : pargs) : bool :=
  match assoc k (pa_opts pa) with Some _ => true | None => false end.

(** ** The declared parameters (lines 168-171, 191-193, 204-205, 237-240) *)

Definition help_opt : string * (string * bool) := ("--help", ("help", false)).

Definition init_opts : opt_table :=
  [("--profile", ("profile", true)); ("-p", ("profile", true));
   ("--force", ("force", false)); help_opt].

Definition audit_opts : opt_table := [("--strict", ("strict", false)); help_opt].

Definition status_opts : opt_table := [help_opt].

Definition list_opts : opt_table := [help_opt].

Definition add_opts : opt_table :=
  [("--repo", ("repo", true)); ("-r", ("repo", true));
   ("--force", ("force", false)); help_opt].

(** The optional [REPO_PATH] argument with its default [Path(".")]. *)
Definition arg_or_dot (pos : list string) : option string :=
  match pos with
  | [] => Some "."
  | [r] => Some r
  | _ => None
  end.

(** The conversion of every [PRIMITIVE] argument to the enum. *)
Fixpoint convert_primitives (names : list string) : option (list Primitive) :=
  match names with
  | [] => Some []
  | n :: ns =>
      match primitive_of_value n, convert_primitives ns with
      | Some p, Some ps => Some (p :: ps)
      | _, _ => None
      end
  end.

(** One command: scan its tokens; [--help] stops before any conversion;
    then each parameter is converted or defaulted. *)
Definition parse_command (tbl : opt_table) (build : pargs -> option cmd) (toks : list string)
  : outcome :=
  match scan tbl toks (PArgs [] []) with
  | None => UsageError
  | Some pa =>
      if has_opt "help" pa then NoCommand
      else match build pa with Some c => Invoke c | None => UsageError end
  end.

Definition build_init (pa : pargs) : option cmd :=
  r ← arg_or_dot (pa_pos pa) ;
  p ← (match assoc "profile" (pa_opts pa) with
        | None => Some governed
        | Some v => profile_of_value v
        end) ;
  Some (CInit r p (has_opt "force" pa)).

Definition build_audit (pa : pargs) : option cmd :=
  r ← arg_or_dot (pa_pos pa) ; Some (CAudit r (has_opt "strict" pa)).

Definition build_status (pa : pargs) : option cmd :=
  r ← arg_or_dot (pa_pos pa) ; Some (CStatus r).

Definition build_list (pa : pargs) : option cmd :=
  match pa_pos pa with [] => Some CPrimList | _ => None end.

(** [typer.Argument(...)] on a list: one or more values. *)
Definition build_add (pa : pargs) : option cmd :=
  match pa_pos pa with
  | [] => None
  | names =>
      ps ← convert_primitives names ;
      Some (CPrimAdd ps (default "." (assoc "repo" (pa_opts pa))) (has_opt "force" pa))
  end.

(** ** Groups *)

(** The options of a group before its command name: [None] is a usage
    error, otherwise the options met and the tokens from the command on. *)
Fixpoint scan_group (known : list string) (toks : list string)
  : option (list string * list string) :=
  match toks with
  | [] => Some ([], [])
  | t :: rest =>
      if decide (t = "--") then Some ([], rest)
      else if String.prefix "-" t && bool_decide (1 < String.length t) then
        if bool_decide (t ∈ known) then
          r ← scan_group known rest ; Some (t :: r.1, r.2)
        else None
      else Some ([], toks)
  end.

(** [primitive_app]: [list] and [add]. *)
Definition parse_primitive (toks : list string) : outcome :=
  match scan_group ["--help"] toks with
  | None => UsageError
  | Some (_ :: _, _) => NoCommand
  | Some ([], "list" :: rest) => parse_command list_opts build_list rest
  | Some ([], "add" :: rest) => parse_command add_opts build_add rest
  | Some ([], _) => UsageError
  end.

(** [app]: its commands and the [primitive] group; Typer adds the
    completion options to the root. *)
Definition parse_cli (argv : list string) : outcome :=
  match scan_group ["--help"; "--install-completion"; "--show-completion"] argv with
  | None => UsageError
  | Some (_ :: _, _) => NoCommand
  | Some ([], "init" :: rest) => parse_command init_opts build_init rest
  | Some ([], "audit" :: rest) => parse_command audit_opts build_audit rest
  | Some ([], "status" :: rest) => parse_command status_opts build_status rest
  | Some ([], "primitive" :: rest) => parse_primitive rest
  | Some ([], _) => UsageError
  end.

(** ** Running *)

Section run.
Context `{Process} (E : env).

Definition dispatch (c : cmd) : M unit :=
  match c with
  | CInit r p f => init E r p f
  | CAudit r s => audit E r s
  | CStatus r => status E r
  | CPrimList => primitive_list
  | CPrimAdd ps r f => primitive_add E ps r f
  end.

(** The texts Click prints are parameters of the model: [help_text
    argv] stands for the lines of the help page (or the completion
    script) it prints on stdout, [usage_text argv] for the usage line and
    error message it prints on stderr before exiting with status 2. *)
Context (help_text usage_text : list string -> list string).

(** [app()], line 249. *)
Definition main (argv : list string) : M unit :=
  match parse_cli argv with
  | Invoke c => dispatch c
  | NoCommand => for_ (help_text argv) echo
  | UsageError => for_ (usage_text argv) echo_err ;; raise (Exit 2)
  end.

(** Lines 11-16: without the [typer] package the import raises
    [SystemExit(message)], which prints the message on stderr and ends
    the process with status 1, before any command is parsed. *)
Definition MISSING_TYPER : string :=
  "Missing dependency: typer. Install with `python3 -m pip install typer`.".

(** The file run as a program: the import guard, then [app()]. *)
Definition script (typer_installed : bool) (argv : list string) : M unit :=
  if typer_installed then main argv
  else echo_err MISSING_TYPER ;; raise (Exit 1).

End run.

(** ** Printing an invocation *)

(** An argument vector that names every parameter; [--] keeps a path
    that starts with [-] an argument. *)
Definition render (c : cmd) : list string :=
  match c with
  | CInit r p f => ["init"; "--profile"; profile_value p] ++ (if f then ["--force"] else []) ++ ["--"; r]
  | CAudit r s => ["audit"] ++ (if s then ["--strict"] else []) ++ ["--"; r]
  | CStatus r => ["status"; "--"; r]
  | CPrimList => ["primitive"; "list"]
  | CPrimAdd ps r f =>
      ["primitive"; "add"; "--repo"; r] ++ (if f then ["--force"] else []) ++
      "--" :: map primitive_value ps
  end.

Definition cmd_wf (c : cmd) : Prop :=
  match c with CPrimAdd ps _ _ => ps <> [] | _ => True end.

(** ** Lemmas *)

Lemma convert_primitives_value (ps : list Primitive) :
  convert_primitives (map primitive_value ps) = Some ps.
Proof. induction ps as [|p ps IH]; [done|]. simpl. rewrite IH. by destruct p. Qed.

Lemma convert_primitives_invalid (names : list string) (n : string) :
  n ∈ names -> primitive_of_value n = None -> convert_primitives names = None.
Proof.
  induction names as [|m ns IH]; [by intros ?%not_elem_of_nil|].
  intros [->|Hn]%elem_of_cons Hv; simpl; [by rewrite Hv|].
  rewrite (IH Hn Hv). by destruct (primitive_of_value m).
Qed.

Lemma build_add_names (o : list (string * string)) (names : list string) :
  names <> [] ->
  build_add (PArgs o names) =
    (ps ← convert_primitives names ;
     Some (CPrimAdd ps (default "." (assoc "repo" o)) (has_opt "force" (PArgs o names)))).
Proof. by destruct names. Qed.

(** A token that does not start with [-] is an argument, for a command
    and for a group. *)
Lemma not_dash_token (r : string) :
  String.prefix "-" r = false ->
  r <> "--" /\ String.prefix "--" r = false /\
  match r with String c (String _ _) => c <> "-"%char | _ => True end.
Proof.
  destruct r as [|c r]; [intros _; split_and!; [discriminate|done|done]|].
  change (String.prefix "-" (String c r)) with (if ascii_dec "-" c then String.prefix "" r else false).
  change (String.prefix "--" (String c r)) with (if ascii_dec "-" c then String.prefix "-" r else false).
  destruct (ascii_dec "-" c) as [<-|Hc]; [destruct r; intros [=]|]. intros _.
  split_and!; [intros [= -> _]; by apply Hc | done | destruct r; [done|]; intros ->; by apply Hc].
Qed.

Lemma scan_arg (tbl : opt_table) (r : string) (rest : list string) (acc : pargs) :
  String.prefix "-" r = false -> scan tbl (r :: rest) acc = scan tbl rest (add_pos r acc).
Proof.
  intros (Hne & Hl & Hs)%not_dash_token. simpl. rewrite decide_False by done. rewrite Hl.
  destruct r as [|c [|c' r']]; [done|done|]. by rewrite decide_False.
Qed.

Lemma scan_group_arg (known : list string) (r : string) (rest : list string) :
  String.prefix "-" r = false -> scan_group known (r :: rest) = Some ([], r :: rest).
Proof.
  intros Hp. pose proof (not_dash_token r Hp) as (Hne & _). simpl.
  rewrite decide_False by done. by rewrite Hp.
Qed.

Section theorems.
Context `{Process} (E : env) (help_text usage_text : list string -> list string).

(** C8: round trip of the command line.  Printing any invocation as an
    argument vector and parsing it gives the invocation back (for
    [primitive add], with at least one primitive), and running that
    vector runs the command with exactly those parameters. *)
Theorem cli_roundtrip (c : cmd) (w : world) :
  cmd_wf c ->
  parse_cli (render c) = Invoke c /\ main E help_text usage_text (render c) w = dispatch E c w.
Proof.
  intros Hwf. assert (Hp : parse_cli (render c) = Invoke c).
  { destruct c as [r p f|r st|r| |ps r f]; simpl in Hwf.
    - by destruct p, f.
    - by destruct st.
    - done.
    - done.
    - destruct ps as [|p ps]; [done|].
      destruct f; unfold parse_cli, parse_primitive, parse_command; simpl;
        rewrite <-(map_cons primitive_value p ps), build_add_names, convert_primitives_value; done. }
  split; [done|]. unfold main. by rewrite Hp.
Qed.


(** C31: the declared defaults.  A repository path that does not start
    with [-] is the [REPO_PATH] argument; without it the commands work
    on [.]; [init] uses the [governed] profile and no [--force], [audit]
    is not strict, and [primitive add] works on [.] without [--force]. *)
Theorem cli_defaults (r : string) (p : Primitive) :
  String.prefix "-" r = false ->
  parse_cli ["init"; r] = Invoke (CInit r governed false) /\
  parse_cli ["audit"; r] = Invoke (CAudit r false) /\
  parse_cli ["status"; r] = Invoke (CStatus r) /\
  parse_cli ["init"] = Invoke (CInit "." governed false) /\
  parse_cli ["audit"] = Invoke (CAudit "." false) /\
  parse_cli ["status"] = Invoke (CStatus ".") /\
  parse_cli ["primitive"; "add"; primitive_value p] = Invoke (CPrimAdd [p] "." false).
Proof.
  intros Hr. unfold parse_cli, parse_command.
  rewrite !scan_group_arg by done. cbn [String.prefix].
  split_and!; [| | |done|done|done|by destruct p]; rewrite scan_arg by done; done.
Qed.

(** C19: an invalid primitive name is a usage error.  When the arguments
    of [primitive add] scan without [--help] and one of the named
    primitives is not a member of the enum, the process ends with status
    2 before the repository is resolved: the only output is Click's usage
    and error text on stderr, no file is touched and no process runs. *)
Theorem invalid_primitive_usage (args : list string) (pa : pargs) (n : string) (w : world) :
  scan add_opts args (PArgs [] []) = Some pa -> has_opt "help" pa = false ->
  n ∈ pa_pos pa -> primitive_of_value n = None ->
  let argv := "primitive" :: "add" :: args in
  main E help_text usage_text argv w = (inl (Exit 2), add_events (map EvErr (usage_text argv)) w) /\
  exit_status (main E help_text usage_text argv w).1 = 2%Z.
Proof.
  intros Hs Hh Hn Hv argv.
  assert (Hp : parse_cli argv = UsageError).
  { unfold argv, parse_cli. rewrite scan_group_arg by done. cbn.
    unfold parse_primitive. rewrite scan_group_arg by done. cbn.
    unfold parse_command. rewrite Hs, Hh. unfold build_add.
    destruct (pa_pos pa) as [|m ms] eqn:Hpos; [by apply not_elem_of_nil in Hn|].
    by rewrite (convert_primitives_invalid _ n). }
  unfold main. rewrite Hp, (bind_inr _ _ _ _ _ (for_echo_err _ _)). done.
Qed.

End theorems.

(** ** Witnesses *)

(** Stand-ins for Click's texts in the witnesses. *)
Definition help_stub (argv : list string) : list string := ["Usage: control_wizard.py [OPTIONS] COMMAND [ARGS]..."].
Definition usage_stub (argv : list string) : list string :=
  ["Usage: control_wizard.py [OPTIONS] COMMAND [ARGS]..."; "Error: invalid usage"].

Lemma cli_roundtrip_witness :
  parse_cli (render (CPrimAdd [policy; hooks] "-odd dir" true)) = Invoke (CPrimAdd [policy; hooks] "-odd dir" true) /\
  @main proc_ok E0 help_stub usage_stub (render (CPrimAdd [policy; hooks] "-odd dir" true)) w0 =
    @dispatch proc_ok E0 (CPrimAdd [policy; hooks] "-odd dir" true) w0.
Proof. apply (@cli_roundtrip proc_ok E0 help_stub usage_stub (CPrimAdd [policy; hooks] "-odd dir" true) w0). discriminate. Defined.

Lemma invalid_primitive_usage_witness :
  @main proc_ok E0 help_stub usage_stub ["primitive"; "add"; "policy"; "--force"; "bogus"] w0 =
    (inl (Exit 2), add_events (map EvErr (usage_stub ["primitive"; "add"; "policy"; "--force"; "bogus"])) w0) /\
  exit_status (@main proc_ok E0 help_stub usage_stub ["primitive"; "add"; "policy"; "--force"; "bogus"] w0).1 = 2%Z.
Proof.
  apply (@invalid_primitive_usage proc_ok E0 help_stub usage_stub ["policy"; "--force"; "bogus"]
           (PArgs [("force", "")] ["policy"; "bogus"]) "bogus" w0);
    [reflexivity | reflexivity | by right; left | reflexivity].
Defined.

Lemma cli_defaults_witness :
  parse_cli ["init"; "repo"] = Invoke (CInit "repo" governed false) /\
  parse_cli ["audit"; "repo"] = Invoke (CAudit "repo" false) /\
  parse_cli ["status"; "repo"] = Invoke (CStatus "repo") /\
  parse_cli ["init"] = Invoke (CInit "." governed false) /\
  parse_cli ["audit"] = Invoke (CAudit "." false) /\
  parse_cli ["status"] = Invoke (CStatus ".") /\
  parse_cli ["primitive"; "add"; primitive_value hooks] = Invoke (CPrimAdd [hooks] "." false).
Proof. apply (cli_defaults "repo" hooks). reflexivity. Defined.

End Cli.
