(* ===== verification/ExitStatus.v ===== *)
(** * ExitStatus: the status the process ends with

    The program (the import guard of lines 11-16, then [app()] of
    line 249) ends the process with the status [exit_status] of
    [Commands]: 0 for a normal return, the low byte of [c] for
    [typer.Exit(c)], 1 for any other exception.  This file proves, for
    every argument vector and every world, that the status is 0 exactly
    when the command returned normally: no failing path of the program
    reports success.  The argument is compositional: [exit_failing]
    holds of every exception a failing path raises ([typer.Exit(2)] of
    the resolver, the template check and the script check, the nonzero
    code of a script, and the [OSError] and [RuntimeError] of the library
    calls), and [raises_only exit_failing] is proved for each function of
    [control_wizard.py] from the facts about the functions it calls. *)

From S2P Require Import Prelude Catalog OS Fixture Resolver Materializer Applier Coverage Commands Cli.
Import Catalog Fixture Resolver Materializer Applier Coverage Commands Cli.

Module ExitStatus.

(** An exception whose status is not 0: every exception but
    [typer.Exit(c)] ends the interpreter with status 1, and [Exit c] is
    raised only for [c] nonzero and within the range of a child's
    return code, whose low byte is then nonzero. *)
Definition exit_failing (e : exn) : Prop :=
  match e with
  | Exit c => c <> 0%Z /\ (-255 <= c <= 255)%Z
  | _ => True
  end.

Lemma exit_failing_2 : exit_failing (Exit 2).
Proof. simpl. lia. Qed.

#[local] Hint Resolve exit_failing_2 : raises.

(** ** The library calls raise no [Exit] *)

Lemma raises_echo (s : string) : raises_only exit_failing (echo s).
Proof. apply raises_modify. Qed.

Lemma raises_echo_err (s : string) : raises_only exit_failing (echo_err s).
Proof. apply raises_modify. Qed.

Lemma raises_exists_at (p : path) : raises_only exit_failing (exists_at p).
Proof. by intros w e w' [=]. Qed.

Lemma raises_is_dir_at (p : path) : raises_only exit_failing (is_dir_at p).
Proof. by intros w e w' [=]. Qed.

Lemma raises_fs_call (r : fsys -> errno + fsys) : raises_only exit_failing (fs_call r).
Proof. intros w e w'. unfold fs_call. by destruct (r (w_fs w)); intros [= <- _]. Qed.

Lemma raises_read_at (p : path) : raises_only exit_failing (read_at p).
Proof. intros w e w'. unfold read_at. by destruct (read_bytes (w_fs w) p); intros [= <- _]. Qed.

Lemma raises_spawn `{Process} (prog : path) (args : list string) (cwd : path) :
  raises_only exit_failing (spawn prog args cwd).
Proof.
  intros w e w'. unfold spawn.
  by repeat case_match; intros [= <- _].
Qed.

#[local] Hint Resolve raises_echo raises_echo_err raises_exists_at raises_is_dir_at
  raises_fs_call raises_read_at raises_spawn : raises.

Lemma expanduser_error (E : env) (p : pure_path) (e : exn) :
  expanduser E p = inl e -> e = RuntimeError.
Proof. unfold expanduser. by repeat case_match; intros [= <-]. Qed.

(** ** Each function of the program *)

Section components.
Context `{Process} (E : env) (help_text usage_text : list string -> list string).

(** A child's return code is within [-255, 255]: [subprocess.run]
    returns the exit status, or minus the number of the signal that
    killed the child. *)
Hypothesis proc_code_range : forall argv cwd fs, (-255 <= (proc_run argv cwd fs).1 <= 255)%Z.

Lemma raises_resolve_repo (s : string) : raises_only exit_failing (_resolve_repo E s).
Proof.
  unfold _resolve_repo. raises_solve.
  match goal with Hx : expanduser _ _ = inl _ |- _ => by rewrite (expanduser_error _ _ _ Hx) end.
Qed.

Lemma raises_copy_template (rel : string) (repo : path) (force : bool) :
  raises_only exit_failing (_copy_template E rel repo force).
Proof. unfold _copy_template. raises_solve. Qed.

Lemma raises_activate_hooks (repo : path) : raises_only exit_failing (_activate_hooks repo).
Proof. unfold _activate_hooks. raises_solve. Qed.

#[local] Hint Resolve raises_resolve_repo raises_copy_template raises_activate_hooks : raises.

Lemma raises_apply_primitives (repo : path) (ps : list Primitive) (force : bool) :
  raises_only exit_failing (_apply_primitives E repo ps force).
Proof. unfold _apply_primitives, apply_primitive, copy_step. raises_solve. Qed.

(** The one place a child's code becomes an exception. *)
Lemma raises_run (script : path) (args : list string) :
  raises_only exit_failing (_run E script args).
Proof.
  unfold _run. apply raises_bind; [auto with raises|]. intros ex. case_match; [raises_solve|].
  apply (raises_bind_post _ (fun code => -255 <= code <= 255)%Z); [auto with raises| |].
  - intros w code w'. unfold spawn. repeat case_match; intros [= <- _]. apply proc_code_range.
  - intros code Hc. case_decide; [apply raises_ret | by apply raises_raise].
Qed.

#[local] Hint Resolve raises_apply_primitives raises_run : raises.

Lemma raises_dispatch (c : cmd) : raises_only exit_failing (dispatch E c).
Proof.
  destruct c; simpl;
    unfold init, audit, status, status_body, primitive_list, primitive_add; raises_solve.
Qed.

Lemma raises_main (argv : list string) : raises_only exit_failing (main E help_text usage_text argv).
Proof.
  unfold main. destruct (parse_cli argv); [apply raises_dispatch | raises_solve | raises_solve].
Qed.

Lemma raises_script (installed : bool) (argv : list string) :
  raises_only exit_failing (script E help_text usage_text installed argv).
Proof.
  unfold script. destruct installed; [apply raises_main|].
  apply raises_bind; [auto with raises|]. intros _. apply raises_raise. simpl. lia.
Qed.

(** C9: the process status is 0 exactly when the program returned
    normally (a command completed, or help was shown), for every
    argument vector, every starting world, and with or without the
    [typer] package: a missing [typer], a usage error, an invalid
    repository, a missing template or script, a failing script, and
    every library error end the process with a nonzero status. *)
Theorem main_status_zero (installed : bool) (argv : list string) (w : world) :
  exit_status (script E help_text usage_text installed argv w).1 = 0%Z <-> (script E help_text usage_text installed argv w).1 = inr tt.
Proof.
  destruct (script E help_text usage_text installed argv w) as [[e|[]] w'] eqn:Hm; simpl; [|done]. split; [|done].
  pose proof (raises_script installed argv w e w' Hm) as He.
  destruct e as [c| |]; simpl; [|discriminate..].
  destruct He as [Hc Hr]. intros Hz. by apply (land_255_zero c Hr) in Hz.
Qed.

End components.

(** ** Witnesses *)

Lemma main_status_zero_witness :
  exit_status (@script proc_fail E0 help_stub usage_stub true ["audit"; "/home/dev/repo"] w0).1 = 0%Z <->
  (@script proc_fail E0 help_stub usage_stub true ["audit"; "/home/dev/repo"] w0).1 = inr tt.
Proof. apply (@main_status_zero proc_fail E0 help_stub usage_stub). intros. simpl. lia. Defined.

End ExitStatus.
