(* ===== verification/Scenario.v ===== *)
(** * Scenario: sequences of commands

    [init] followed by [status] on the same path, for every world and
    every profile: the second command sees what the first one left (the
    sequence rule of a program logic, with [init_settles] as the
    postcondition of [init] and the precondition of [status]). *)

From S2P Require Import Prelude Catalog OS Fixture Resolver Applier Coverage Commands Cli.
Import Catalog Fixture Resolver Applier Coverage Commands Cli.

Module Scenario.

(** The report line of a primitive whose files are all present. *)
Definition ok_line (p : Primitive) : string :=
  let n := show_nat (length (PRIMITIVE_FILES p)) in
  "  [OK ] " +:+ primitive_value p +:+ ": " +:+ n +:+ "/" +:+ n.

Section init_status.
Context `{Process} (E : env).
Hypothesis proc_pure : forall argv cwd fs, (proc_run argv cwd fs).2 = fs.

(** C10: [init] then [status] (spec 8.3 and 8.4 together).  After a
    completed [init R --profile P] from a well-formed file system (with
    a bootstrap script that changes no file), [status R] resolves the
    same repository, completes, changes nothing, prints exactly the
    report of the file system [init] left, and that report has the line
    [[OK ] p: n/n] for every primitive [p] of the profile. *)
Theorem init_then_status (s : string) (profile : Profile) (force : bool) (w w1 : world) :
  fs_wf (w_fs w) -> init E s profile force w = (inr tt, w1) ->
  exists repo,
    status E s w1 = (inr tt, add_events (map EvOut (status_lines (w_fs w1) repo)) w1) /\
    forall p, p ∈ profile_primitives profile -> ok_line p ∈ status_lines (w_fs w1) repo.
Proof.
  intros Hwf Hi. destruct (init_settles E proc_pure _ _ _ _ _ Hwf Hi) as (repo & Hres & Hd & Hset).
  exists repo. split.
  - unfold status. rewrite (bind_inr _ _ _ _ _ (resolve_repo_dir E s w w1 repo Hres Hd)).
    apply status_body_report.
  - intros p Hp. unfold status_lines. rewrite !elem_of_app. right; right; right.
    apply list_elem_of_fmap. exists p. split; [|apply list_elem_of_In, all_primitives_complete].
    cbv zeta. rewrite (settled_count_present E _ _ _ (Hset p Hp)).
    unfold primitive_marker, ok_line. by rewrite decide_True.
Qed.

End init_status.

Lemma init_then_status_witness :
  exists repo,
    @status E0 "/home/dev/repo" (@init proc_ok E0 "/home/dev/repo" governed false w0).2 =
      (inr tt, add_events (map EvOut (status_lines (w_fs (@init proc_ok E0 "/home/dev/repo" governed false w0).2) repo))
                          (@init proc_ok E0 "/home/dev/repo" governed false w0).2) /\
    forall p, p ∈ profile_primitives governed ->
      ok_line p ∈ status_lines (w_fs (@init proc_ok E0 "/home/dev/repo" governed false w0).2) repo.
Proof.
  apply (@init_then_status proc_ok E0 (fun _ _ _ => eq_refl) "/home/dev/repo" governed false w0); [apply fs0_wf|].
  set (run := @init proc_ok E0 "/home/dev/repo" governed false w0).
  assert (Hr : run = (inr tt, run.2)) by (apply run_result; vm_compute; reflexivity).
  exact Hr.
Defined.

End Scenario.
